(** * OrionTV update service ([services/updateService.ts])

    A shallow embedding of the [UpdateService] class: the pure version
    comparison, and the four asynchronous operations (version check,
    clean-up of old APK files, download, install) as programs of a small
    state-and-exception monad over an explicit platform (network, file
    store, installer, clock).

    JavaScript values are modelled as the language has them: a [number]
    is an IEEE-754 binary64 value (the Standard Library's [spec_float]
    at precision 53), a string is a sequence of UTF-16 code units. *)

From Stdlib Require Import Strings.String Strings.Ascii.
From Stdlib Require Import ZArith NArith PArith List Bool Lia.
From Stdlib Require Import Permutation Sorted.
From Stdlib Require Import Floats.SpecFloat.
Import ListNotations.

#[local] Set Warnings "-register-all".
Local Open Scope Z_scope.

(* ================================================================== *)
(** * JavaScript numbers *)
(* ================================================================== *)

Module JsNumber.

(** binary64: 53 bits of precision, exponents of infinities at 1024. *)
Definition prec : Z := 53.
Definition emax : Z := 1024.

Definition number : Type := spec_float.

Definition NaN : number := S754_nan.
Definition pos_zero : number := S754_zero false.
Definition Infinity : number := S754_infinity false.

(** The number nearest to an integer (ties to even). *)
Definition of_Z (z : Z) : number := binary_normalize prec emax z 0 false.

(** The number nearest to [num / den], with the sign [neg]. *)
Definition of_ratio (neg : bool) (num den : positive) : number :=
  let '(q, e, l) := SFdiv_core_binary prec emax (Zpos num) 0 (Zpos den) 0 in
  binary_round_aux prec emax neg q e l.

(** The number nearest to [mant * 10 ^ exp10], with the sign [neg]. *)
Definition of_decimal (neg : bool) (mant : N) (exp10 : Z) : number :=
  match mant with
  | N0 => S754_zero neg
  | Npos m =>
      match exp10 with
      | Z0 => binary_round prec emax neg m 0
      | Zpos k => binary_round prec emax neg (m * 10 ^ k)%positive 0
      | Zneg k => of_ratio neg m (10 ^ k)%positive
      end
  end.

(** [x < y] and [x > y]: false as soon as one side is NaN. *)
Definition lt (x y : number) : bool := SFltb x y.
Definition gt (x y : number) : bool := SFltb y x.

Definition sub (x y : number) : number := SFsub prec emax x y.
Definition mul (x y : number) : number := SFmul prec emax x y.
Definition div (x y : number) : number := SFdiv prec emax x y.

Definition is_nan (x : number) : bool :=
  match x with S754_nan => true | _ => false end.

(** ToBoolean on a number: [+0], [-0] and [NaN] are falsy. *)
Definition truthy (x : number) : bool :=
  match x with
  | S754_zero _ | S754_nan => false
  | _ => true
  end.

(** [Math.floor]. A finite number with a negative exponent is
    [m / 2^k]; its floor has no more than 53 significant bits. *)
Definition Math_floor (x : number) : number :=
  match x with
  | S754_finite s m (Zneg k) =>
      binary_normalize prec emax
        (Z.shiftr (cond_Zopp s (Zpos m)) (Zpos k)) 0 s
  | _ => x
  end.

(** The number of bits of a mantissa. *)
Definition dig (m : positive) : Z := Zpos (digits2_pos m).

(** The value of a number in units of [2 ^ -1074], the smallest
    positive number: an integer for every finite number; an infinity
    counts as [2 ^ 1024]. *)
Definition scaled (x : number) : Z :=
  match x with
  | S754_zero _ => 0
  | S754_finite s m e => cond_Zopp s (Zpos m * 2 ^ (e + 1074))
  | S754_infinity s => cond_Zopp s (2 ^ 2098)
  | S754_nan => 0
  end.

(** The numbers a sequence of digits can denote: [+0], the positive
    finite numbers in their canonical form, and [+Infinity]. *)
Definition ordinary (x : number) : bool :=
  match x with
  | S754_zero false | S754_infinity false => true
  | S754_finite false m e => bounded prec emax m e
  | _ => false
  end.

(** [x] is the number of the integer [v], exactly. *)
Definition denotes (x : number) (v : Z) : Prop :=
  ordinary x = true /\ scaled x = v * 2 ^ 1074.

End JsNumber.

(* ================================================================== *)
(** * JavaScript strings *)
(* ================================================================== *)

Module JsString.
Import JsNumber.

(** A string is a sequence of UTF-16 code units. *)
Definition jsstring : Type := list N.

(** A literal of the source, character by character. *)
Definition str (s : string) : jsstring :=
  List.map N_of_ascii (list_ascii_of_string s).

Definition eqb (a b : jsstring) : bool :=
  if list_eq_dec N.eq_dec a b then true else false.

(** [s.startsWith(p)] *)
Fixpoint startsWith (s p : jsstring) : bool :=
  match p, s with
  | [], _ => true
  | _ :: _, [] => false
  | c :: p', d :: s' => (c =? d)%N && startsWith s' p'
  end.

(** [s.endsWith(p)] *)
Definition endsWith (s p : jsstring) : bool :=
  startsWith (rev s) (rev p).

(** [s.includes(p)] *)
Fixpoint includes (s p : jsstring) : bool :=
  startsWith s p ||
  match s with
  | [] => false
  | _ :: s' => includes s' p
  end.

(** [s.split(sep)] for a one-character separator: never empty. *)
Fixpoint split (sep : N) (s : jsstring) : list jsstring :=
  match s with
  | [] => [[]]
  | c :: s' =>
      if (c =? sep)%N then [] :: split sep s'
      else match split sep s' with
           | [] => [[c]]
           | p :: ps => (c :: p) :: ps
           end
  end.

Definition dot : N := 46.

Definition is_digit (c : N) : bool := (48 <=? c)%N && (c <=? 57)%N.

(** The value of a digit in a radix up to 16, if it is one. *)
Definition digit_value (radix : N) (c : N) : option N :=
  let v :=
    if is_digit c then Some (c - 48)%N
    else if (97 <=? c)%N && (c <=? 102)%N then Some (c - 87)%N
    else if (65 <=? c)%N && (c <=? 70)%N then Some (c - 55)%N
    else None in
  match v with
  | Some d => if (d <? radix)%N then Some d else None
  | None => None
  end.

(** Longest prefix of digits of the radix, and the rest. *)
Fixpoint span_digits (radix : N) (s : jsstring) : jsstring * jsstring :=
  match s with
  | [] => ([], [])
  | c :: s' =>
      match digit_value radix c with
      | Some _ => let '(ds, r) := span_digits radix s' in (c :: ds, r)
      | None => ([], s)
      end
  end.

(** The mathematical value of a digit sequence. *)
Definition digits_value (radix : N) (ds : jsstring) : N :=
  fold_left
    (fun acc c =>
       match digit_value radix c with
       | Some d => (acc * radix + d)%N
       | None => acc
       end) ds 0%N.

(** WhiteSpace and LineTerminator code units (StrWhiteSpaceChar). *)
Definition is_whitespace (c : N) : bool :=
  existsb (N.eqb c)
    [9; 10; 11; 12; 13; 32; 160; 5760; 8232; 8233; 8239; 8287; 12288;
     65279]%N
  || ((8192 <=? c)%N && (c <=? 8202)%N).

Fixpoint trim_start (s : jsstring) : jsstring :=
  match s with
  | c :: s' => if is_whitespace c then trim_start s' else s
  | [] => []
  end.

Definition trim (s : jsstring) : jsstring :=
  rev (trim_start (rev (trim_start s))).

(** [s.replace(/[^0-9]/g, '')] *)
Definition strip_non_digits (s : jsstring) : jsstring :=
  filter is_digit s.

(** ToString of a non-negative integer below 10^21. *)
Fixpoint digits_of_pos (fuel : nat) (p : N) (acc : jsstring) : jsstring :=
  match fuel with
  | O => acc
  | S fuel' =>
      let acc' := (48 + p mod 10)%N :: acc in
      if (p <? 10)%N then acc' else digits_of_pos fuel' (p / 10)%N acc'
  end.

Definition of_N (n : N) : jsstring :=
  digits_of_pos (S (N.to_nat (N.log2 n))) n [].

(** *** StringToNumber: what [Number(s)] computes on a string *)

(** NonDecimalIntegerLiteral: [0x], [0o], [0b] and digits, no sign. *)
Definition non_decimal_literal (t : jsstring) : option number :=
  match t with
  | 48%N :: p :: ds =>
      let radix :=
        if (p =? 120)%N || (p =? 88)%N then Some 16%N
        else if (p =? 111)%N || (p =? 79)%N then Some 8%N
        else if (p =? 98)%N || (p =? 66)%N then Some 2%N
        else None in
      match radix, ds with
      | Some r, _ :: _ =>
          match span_digits r ds with
          | (_, []) => Some (of_Z (Z.of_N (digits_value r ds)))
          | _ => None
          end
      | _, _ => None
      end
  | _ => None
  end.

(** ExponentPart: [e] or [E], an optional sign, at least one digit,
    up to the end of the literal. An absent part is exponent 0. *)
Definition exponent_part (t : jsstring) : option Z :=
  match t with
  | [] => Some 0
  | e :: t' =>
      if (e =? 101)%N || (e =? 69)%N then
        let '(neg, u) :=
          match t' with
          | 43%N :: u => (false, u)
          | 45%N :: u => (true, u)
          | _ => (false, t')
          end in
        match span_digits 10 u with
        | ((_ :: _) as ds, []) =>
            Some (cond_Zopp neg (Z.of_N (digits_value 10 ds)))
        | _ => None
        end
      else None
  end.

(** StrUnsignedDecimalLiteral. *)
Definition unsigned_decimal_literal (neg : bool) (t : jsstring)
  : option number :=
  if eqb t (str "Infinity") then Some (S754_infinity neg)
  else
    let '(ip, r) := span_digits 10 t in
    let '(fp, r') :=
      match r with
      | 46%N :: r1 =>
          let '(fp, r2) := span_digits 10 r1 in (Some fp, r2)
      | _ => (None, r)
      end in
    let frac := match fp with Some f => f | None => [] end in
    match ip, frac with
    | [], [] => None
    | _, _ =>
        match exponent_part r' with
        | Some e =>
            Some (of_decimal neg (digits_value 10 (ip ++ frac))
                    (e - Z.of_nat (length frac)))
        | None => None
        end
    end.

(** StrDecimalLiteral: an optional sign, then the unsigned literal. *)
Definition decimal_literal (t : jsstring) : option number :=
  match t with
  | 43%N :: u => unsigned_decimal_literal false u
  | 45%N :: u => unsigned_decimal_literal true u
  | _ => unsigned_decimal_literal false t
  end.

(** [Number(s)]: white space is trimmed, the empty string is [+0],
    anything that is not a numeric literal is [NaN]. *)
Definition Number (s : jsstring) : number :=
  match trim s with
  | [] => pos_zero
  | t =>
      match non_decimal_literal t with
      | Some v => v
      | None =>
          match decimal_literal t with
          | Some v => v
          | None => NaN
          end
      end
  end.

(** [parseInt(s, 10)]: white space is trimmed at the start, a sign
    is accepted, the longest prefix of decimal digits is read; no
    digit at all gives [NaN]. *)
Definition parseInt10 (s : jsstring) : number :=
  let t := trim_start s in
  let '(neg, u) :=
    match t with
    | 43%N :: u => (false, u)
    | 45%N :: u => (true, u)
    | _ => (false, t)
    end in
  match span_digits 10 u with
  | ([], _) => NaN
  | (ds, _) => of_decimal neg (digits_value 10 ds) 0
  end.

End JsString.

(* ================================================================== *)
(** * Version comparison *)
(* ================================================================== *)

Module Version.
Import JsNumber JsString.

(** [p[i] ?? 0] *)
Definition at_or_zero (p : list number) (i : nat) : number :=
  match nth_error p i with
  | Some n => n
  | None => pos_zero
  end.

(** The [for] loop of [compareVersions] from index [i], with
    [remaining] iterations left before [i] reaches the bound. *)
Fixpoint compare_loop (p1 p2 : list number) (i remaining : nat) : Z :=
  match remaining with
  | O => 0
  | S remaining' =>
      let n1 := at_or_zero p1 i in
      let n2 := at_or_zero p2 i in
      if gt n1 n2 then 1
      else if lt n1 n2 then -1
      else compare_loop p1 p2 (S i) remaining'
  end.

Definition compareVersions (v1 v2 : jsstring) : Z :=
  let p1 := List.map Number (split dot v1) in
  let p2 := List.map Number (split dot v2) in
  compare_loop p1 p2 0 (Nat.max (length p1) (length p2)).

End Version.

(* ================================================================== *)
(** * The platform the service runs on *)
(* ================================================================== *)

Module Platform.
Import JsNumber JsString.

(** A thrown value: an [Error] object with its message. *)
Inductive JsError : Type :=
| Error (message : jsstring)
| TypeError (message : jsstring).

Definition message (e : JsError) : jsstring :=
  match e with
  | Error m | TypeError m => m
  end.

(** What [response.json()] resolves to. *)
Inductive Json : Type :=
| JNull
| JBool (b : bool)
| JNumber (x : number)
| JString (s : jsstring)
| JArray (items : list Json)
| JObject (fields : list (jsstring * Json)).

(** The value of a property read: a JSON value or [undefined]. *)
Inductive JsValue : Type :=
| Undefined
| Value (j : Json).

(** The own property [key] of a parsed object: of a repeated key,
    the last one in the text stays. *)
Fixpoint own_property (key : jsstring) (fields : list (jsstring * Json))
  : JsValue :=
  match fields with
  | [] => Undefined
  | (k, v) :: rest =>
      match own_property key rest with
      | Undefined => if JsString.eqb k key then Value v else Undefined
      | found => found
      end
  end.

(** [remotePackage.version]: reading a property of [null] throws a
    TypeError (the text of its message is the engine's); booleans,
    numbers, strings and arrays have no such property. *)
Definition get_version (remotePackage : Json) : JsError + JsValue :=
  match remotePackage with
  | JNull =>
      inl (TypeError (str "Cannot read properties of null (reading 'version')"))
  | JObject fields => inr (own_property (str "version") fields)
  | _ => inr Undefined
  end.

(** The response of a fetch: [ok], [status], and what [json()] gives. *)
Record Response : Type := {
  ok : bool;
  status : N;
  json : JsError + Json
}.

Record VersionInfo : Type := {
  version : JsValue;
  downloadUrl : jsstring
}.

(** A progress report of a resumable download. Both fields are
    numbers in the typings of [expo-file-system], which reports an
    expected total of [-1] when the size is not known; [None] is a
    report without the field. *)
Record DownloadProgress : Type := {
  totalBytesWritten : number;
  totalBytesExpectedToWrite : option number
}.

(** What [downloadAsync()] resolves to: [undefined], or a result
    whose [uri] may be missing. *)
Record DownloadResult : Type := { uri : option jsstring }.

(** One run of [downloadAsync()]: the progress reports delivered
    while it runs, then its outcome. *)
Record Download : Type := {
  reports : list DownloadProgress;
  settled : JsError + option DownloadResult
}.

Record Intent : Type := {
  action : jsstring;
  data : jsstring;
  type : jsstring;
  flags : Z
}.

(** The collaborators of the service. Every asynchronous capability
    answers its [n]-th call ([n] counted from 0) as the platform
    decides, with a value or a rejection. *)
Record Platform : Type := {
  (* package.json and constants/UpdateConfig *)
  currentVersion : jsstring;
  GITHUB_RAW_URL : jsstring;
  getDownloadUrl : JsValue -> jsstring;
  (* react-native *)
  OS : jsstring;
  now : nat -> N;
  (* network *)
  fetch : nat -> jsstring -> JsError + Response;
  (* expo-file-system *)
  documentDirectory : option jsstring;
  readDirectoryAsync : nat -> jsstring -> JsError + list jsstring;
  deleteAsync : nat -> jsstring -> option JsError;
  downloadAsync : nat -> jsstring -> jsstring -> Download;
  getInfoAsync : nat -> jsstring -> JsError + bool;
  getContentUriAsync : nat -> jsstring -> JsError + jsstring;
  (* expo-intent-launcher *)
  startActivityAsync : nat -> Intent -> option JsError
}.

(** What the service does that can be seen from outside. *)
Inductive Event : Type :=
| EvAbortTimer (ms : Z)
| EvClearTimer
| EvFetch (url : jsstring)
| EvSleep (ms : Z)
| EvToast (kind text1 text2 : string)
| EvWarn (msg : jsstring) (e : option JsError)
| EvDebug (msg : jsstring)
| EvReadDirectory (dir : jsstring)
| EvDelete (path : jsstring) (idempotent : bool)
| EvNow
| EvDownload (url fileUri : jsstring)
| EvOnProgress (percent : number)
| EvGetInfo (fileUri : jsstring)
| EvGetContentUri (fileUri : jsstring)
| EvStartActivity (i : Intent).

(** The asynchronous capabilities of the platform. *)
Inductive Capability : Type :=
| CFetch | CReadDirectory | CDelete | CNow | CDownload | CGetInfo
| CGetContentUri | CStartActivity.

Definition Capability_eqb (a b : Capability) : bool :=
  match a, b with
  | CFetch, CFetch | CReadDirectory, CReadDirectory
  | CDelete, CDelete | CNow, CNow | CDownload, CDownload
  | CGetInfo, CGetInfo | CGetContentUri, CGetContentUri
  | CStartActivity, CStartActivity => true
  | _, _ => false
  end.

(** How many calls each capability has answered, and the events so
    far, oldest first. *)
Record State : Type := {
  calls : Capability -> nat;
  trace : list Event
}.

Definition initial : State :=
  {| calls := fun _ => O; trace := [] |}.

Definition emit (ev : Event) (s : State) : State :=
  {| calls := calls s; trace := trace s ++ [ev] |}.

Definition count (c : Capability) (s : State) : State :=
  {| calls := fun c' => if Capability_eqb c c' then S (calls s c')
                        else calls s c';
     trace := trace s |}.

(** The backoff waits, the toasts, the deletions and the launches of
    a trace. *)
Definition sleeps (t : list Event) : list Z :=
  flat_map (fun ev => match ev with EvSleep ms => [ms] | _ => [] end) t.

Definition toasts (t : list Event) : list string :=
  flat_map (fun ev => match ev with EvToast _ t1 _ => [t1] | _ => [] end) t.

Definition deleted (t : list Event) : list jsstring :=
  flat_map (fun ev => match ev with EvDelete p _ => [p] | _ => [] end) t.

Definition launched (t : list Event) : list Intent :=
  flat_map (fun ev => match ev with EvStartActivity i => [i] | _ => [] end) t.

Definition progress_calls (t : list Event) : list number :=
  flat_map (fun ev => match ev with EvOnProgress p => [p] | _ => [] end) t.

Definition fetched (t : list Event) : list jsstring :=
  flat_map (fun ev => match ev with EvFetch u => [u] | _ => [] end) t.

Definition downloaded (t : list Event) : list (jsstring * jsstring) :=
  flat_map
    (fun ev => match ev with EvDownload u f => [(u, f)] | _ => [] end) t.

End Platform.

(* ================================================================== *)
(** * Asynchronous code: state and exceptions *)
(* ================================================================== *)

Module Async.
Import Platform.

Inductive Outcome (A : Type) : Type :=
| Return (a : A)
| Throw (e : JsError).
Arguments Return {A} a.
Arguments Throw {A} e.

Definition Async (A : Type) : Type := State -> Outcome A * State.

Definition ret {A} (a : A) : Async A := fun s => (Return a, s).

Definition throw {A} (e : JsError) : Async A := fun s => (Throw e, s).

Definition bind {A B} (c : Async A) (k : A -> Async B) : Async B :=
  fun s =>
    match c s with
    | (Return a, s') => k a s'
    | (Throw e, s') => (Throw e, s')
    end.

(** [try { c } catch (e) { handler e }] *)
Definition try_catch {A} (c : Async A) (handler : JsError -> Async A)
  : Async A :=
  fun s =>
    match c s with
    | (Return a, s') => (Return a, s')
    | (Throw e, s') => handler e s'
    end.

(** An event that cannot fail. *)
Definition tell (ev : Event) : Async unit :=
  fun s => (Return tt, emit ev s).

(** A promise that settles with a value or a rejection. *)
Definition settle {A} (r : JsError + A) : Async A :=
  match r with
  | inl e => throw e
  | inr a => ret a
  end.

(** What a loop body leaves behind: a [return v] of the function, or
    the end of the iteration. *)
Inductive Flow (A : Type) : Type :=
| Returned (v : A)
| NextIteration.
Arguments Returned {A} v.
Arguments NextIteration {A}.

End Async.

Declare Scope async_scope.
Delimit Scope async_scope with async.
Notation "x <- c ;; k" := (Async.bind c (fun x => k))
  (at level 61, c at next level, right associativity) : async_scope.
Notation "c ;;; k" := (Async.bind c (fun _ => k))
  (at level 61, right associativity) : async_scope.

(* ================================================================== *)
(** * Arrays *)
(* ================================================================== *)

Module JsArray.
Import JsNumber.

Section Sort.
Context {A : Type}.
Variable comparefn : A -> A -> number.

(** [Array.prototype.sort(comparefn)] orders [x] after [y] only
    when [comparefn(x, y) > 0]; a [NaN] from the comparator counts
    as [+0]. The sort is stable: this is insertion from the right,
    the earliest element inserted last, and on a consistent
    comparator every stable sort gives the same array. On a comparator
    that is not consistent (a [NaN] against some elements, numbers
    against others) the language leaves the order to the engine, and
    engines give other orders than this one: there only what holds of
    every permutation of the array is said of the result. *)
Definition sorts_after (x y : A) : bool := gt (comparefn x y) pos_zero.

Fixpoint insert (x : A) (l : list A) : list A :=
  match l with
  | [] => [x]
  | y :: l' => if sorts_after x y then y :: insert x l' else x :: l
  end.

Fixpoint sort (l : list A) : list A :=
  match l with
  | [] => []
  | x :: l' => insert x (sort l')
  end.
End Sort.

(** An order of elements by decreasing rank. *)
Definition descending {A} (rank : A -> Z) (x y : A) : Prop :=
  rank y <= rank x.

(** [a.slice(n)] *)
Definition slice {A} (n : nat) (a : list A) : list A := skipn n a.

End JsArray.

(* ================================================================== *)
(** * The update service *)
(* ================================================================== *)

Module UpdateService.
Import JsNumber JsString Platform Async JsArray Version.
Local Open Scope async_scope.
Local Open Scope list_scope.

Definition ANDROID_MIME_TYPE : jsstring :=
  str "application/vnd.android.package-archive".

Definition maxRetries : nat := 3.

(** Modelled from the spec: [utils/Logger] is not among the sources;
    its failures are not part of the design, a log line is an event
    that cannot fail the caller. *)
Definition logger_warn (msg : jsstring) (e : JsError) : Async unit :=
  tell (EvWarn msg (Some e)).

Definition logger_debug (msg : jsstring) : Async unit :=
  tell (EvDebug msg).

(** Modelled from the spec: the notification sink
    ([react-native-toast-message]) is fire-and-forget, it never blocks
    or fails the caller. *)
Definition Toast_show (kind text1 text2 : string) : Async unit :=
  tell (EvToast kind text1 text2).

Section Service.
Variable P : Platform.

(** ** Calls to the platform *)

Definition call_fetch (url : jsstring) : Async Response :=
  fun s =>
    settle (fetch P (calls s CFetch) url) (count CFetch (emit (EvFetch url) s)).

Definition call_readDirectoryAsync (dir : jsstring)
  : Async (list jsstring) :=
  fun s =>
    settle (readDirectoryAsync P (calls s CReadDirectory) dir)
      (count CReadDirectory (emit (EvReadDirectory dir) s)).

Definition call_deleteAsync (path : jsstring) (idempotent : bool)
  : Async unit :=
  fun s =>
    match deleteAsync P (calls s CDelete) path with
    | Some e => throw e
    | None => ret tt
    end (count CDelete (emit (EvDelete path idempotent) s)).

Definition call_now : Async N :=
  fun s => (Return (now P (calls s CNow)), count CNow (emit EvNow s)).

Definition call_getInfoAsync (fileUri : jsstring) : Async bool :=
  fun s =>
    settle (getInfoAsync P (calls s CGetInfo) fileUri)
      (count CGetInfo (emit (EvGetInfo fileUri) s)).

Definition call_getContentUriAsync (fileUri : jsstring)
  : Async jsstring :=
  fun s =>
    settle (getContentUriAsync P (calls s CGetContentUri) fileUri)
      (count CGetContentUri (emit (EvGetContentUri fileUri) s)).

Definition call_startActivityAsync (i : Intent) : Async unit :=
  fun s =>
    match startActivityAsync P (calls s CStartActivity) i with
    | Some e => throw e
    | None => ret tt
    end (count CStartActivity (emit (EvStartActivity i) s)).

Definition sleep (ms : Z) : Async unit := tell (EvSleep ms).

(** ** 1. checkVersion *)

(** What the [try] block makes of a response. *)
Definition read_response (response : Response)
  : JsError + VersionInfo :=
  if negb (ok response) then
    inl (Error (str "HTTP " ++ of_N (status response)))
  else
    match json response with
    | inl e => inl e
    | inr remotePackage =>
        match get_version remotePackage with
        | inl e => inl e
        | inr remoteVersion =>
            inr {| version := remoteVersion;
                   downloadUrl := getDownloadUrl P remoteVersion |}
        end
    end.

(** What the [try] block makes of the answer to the fetch. *)
Definition read_fetch (r : JsError + Response) : JsError + VersionInfo :=
  match r with
  | inl e => inl e
  | inr response => read_response response
  end.

(** The [try] block of one attempt. *)
Definition checkVersion_try : Async VersionInfo :=
  tell (EvAbortTimer 10000) ;;;
  response <- call_fetch (GITHUB_RAW_URL P) ;;
  tell EvClearTimer ;;;
  settle (read_response response).

Definition attempt_label (name : string) (attempt : nat) : jsstring :=
  str name ++ str " attempt " ++ of_N (N.of_nat attempt)
    ++ str "/" ++ of_N (N.of_nat maxRetries).

(** The [for] loop from [attempt], with [remaining] iterations left
    before [attempt] exceeds [maxRetries]. *)
Fixpoint checkVersion_loop (attempt remaining : nat)
  : Async VersionInfo :=
  match remaining with
  | O => throw (Error (str "Unexpected"))
  | S remaining' =>
      flow <- try_catch
                (v <- checkVersion_try ;; ret (Returned v))
                (fun e =>
                   logger_warn (attempt_label "checkVersion" attempt) e ;;;
                   if Nat.eqb attempt maxRetries then
                     Toast_show "error" "检查更新失败"
                             "无法获取版本信息，请检查网络" ;;;
                     throw e
                   else
                     sleep (2000 * Z.of_nat attempt) ;;;
                     ret NextIteration) ;;
      match flow with
      | Returned v => ret v
      | NextIteration => checkVersion_loop (S attempt) remaining'
      end
  end.

Definition checkVersion : Async VersionInfo :=
  checkVersion_loop 1 maxRetries.

(** ** 2. cleanOldApkFiles *)

Definition is_apk_name (name : jsstring) : bool :=
  startsWith name (str "OrionTV_v") && endsWith name (str ".apk").

(** [parseInt(name.replace(/[^0-9]/g, ''), 10)] *)
Definition file_number (name : jsstring) : number :=
  parseInt10 (strip_non_digits name).

(** The comparator of the sort: [numB - numA]. *)
Definition newest_first (a b : jsstring) : number :=
  sub (file_number b) (file_number a).

(** The [for ... of stale] loop. *)
Fixpoint delete_stale (dirUri : jsstring) (stale : list jsstring)
  : Async unit :=
  match stale with
  | [] => ret tt
  | file :: rest =>
      try_catch
        (call_deleteAsync (dirUri ++ file) true ;;;
         logger_debug (str "Deleted old APK: " ++ file))
        (fun e =>
           logger_warn (str "Failed to delete " ++ file) e) ;;;
      delete_stale dirUri rest
  end.

(** [!dirUri]: [null] and the empty string are falsy. *)
Definition available (dir : option jsstring) : option jsstring :=
  match dir with
  | Some (_ :: _) => dir
  | _ => None
  end.

Definition cleanOldApkFiles : Async unit :=
  try_catch
    (match available (documentDirectory P) with
     | None => throw (Error (str "Document directory is not available"))
     | Some dirUri =>
         listing <- call_readDirectoryAsync dirUri ;;
         let apkFiles := filter is_apk_name listing in
         if (length apkFiles <=? 2)%nat then ret tt
         else
           let sorted := sort newest_first apkFiles in
           let stale := slice 2 sorted in
           delete_stale dirUri stale
     end)
    (fun e => logger_warn (str "cleanOldApkFiles error") e).

(** ** 3. downloadApk *)

(** The progress callback handed to [createDownloadResumable];
    [onProgress] tells whether the caller gave a callback, and a
    call of it is the event [EvOnProgress]. *)
Definition on_download_progress (onProgress : bool)
    (progress : DownloadProgress) : Async unit :=
  match totalBytesExpectedToWrite progress with
  | Some expected =>
      if onProgress && truthy expected then
        let percent :=
          Math_floor
            (mul (div (totalBytesWritten progress) expected)
               (of_Z 100)) in
        tell (EvOnProgress percent)
      else ret tt
  | None => ret tt
  end.

Fixpoint deliver (onProgress : bool) (rs : list DownloadProgress)
  : Async unit :=
  match rs with
  | [] => ret tt
  | r :: rs' => on_download_progress onProgress r ;;; deliver onProgress rs'
  end.

(** [downloadResumable.downloadAsync()] *)
Definition call_downloadAsync (url fileUri : jsstring)
    (onProgress : bool) : Async (option DownloadResult) :=
  d <- (fun s =>
          (Return (downloadAsync P (calls s CDownload) url fileUri),
           count CDownload (emit (EvDownload url fileUri) s))) ;;
  deliver onProgress (reports d) ;;;
  settle (settled d).

(** A template literal prints [null] as the word. *)
Definition template (v : option jsstring) : jsstring :=
  match v with
  | Some s => s
  | None => str "null"
  end.

(** [result && result.uri]: the uri, when there is a result and
    its uri is a string that is not empty. *)
Definition result_uri (result : option DownloadResult)
  : option jsstring :=
  match result with
  | Some {| uri := Some (c :: u) |} => Some (c :: u)
  | _ => None
  end.

(** The file an attempt started at [timestamp] downloads to. *)
Definition file_uri (timestamp : N) : jsstring :=
  let fileName := str "OrionTV_v" ++ of_N timestamp ++ str ".apk" in
  template (documentDirectory P) ++ fileName.

(** The [try] block of one attempt. *)
Definition downloadApk_try (url : jsstring) (onProgress : bool)
  : Async jsstring :=
  timestamp <- call_now ;;
  let fileUri := file_uri timestamp in
  result <- call_downloadAsync url fileUri onProgress ;;
  match result_uri result with
  | Some u =>
      logger_debug (str "APK downloaded to " ++ u) ;;;
      ret u
  | None => throw (Error (str "Download failed: No URI available"))
  end.

Fixpoint downloadApk_loop (url : jsstring) (onProgress : bool)
    (attempt remaining : nat) : Async jsstring :=
  match remaining with
  | O => throw (Error (str "Download failed"))
  | S remaining' =>
      flow <- try_catch
                (u <- downloadApk_try url onProgress ;; ret (Returned u))
                (fun e =>
                   logger_warn (attempt_label "downloadApk" attempt) e ;;;
                   if Nat.eqb attempt maxRetries then
                     Toast_show "error" "下载失败"
                             "APK 下载出现错误，请检查网络" ;;;
                     throw e
                   else
                     sleep (3000 * Z.of_nat attempt) ;;;
                     ret NextIteration) ;;
      match flow with
      | Returned u => ret u
      | NextIteration =>
          downloadApk_loop url onProgress (S attempt) remaining'
      end
  end.

Definition downloadApk (url : jsstring) (onProgress : bool)
  : Async jsstring :=
  cleanOldApkFiles ;;;
  downloadApk_loop url onProgress 1 maxRetries.

(** ** 4. installApk *)

Definition install_flags : Z := Z.lor 1 16.

Definition installApk (fileUri : jsstring) : Async unit :=
  exists_ <- call_getInfoAsync fileUri ;;
  if negb exists_ then
    throw (Error (str "APK not found at " ++ fileUri))
  else
    contentUri <- call_getContentUriAsync fileUri ;;
    if JsString.eqb (OS P) (str "android") then
      try_catch
        (call_startActivityAsync
           {| action := str "android.intent.action.VIEW";
              data := contentUri;
              type := ANDROID_MIME_TYPE;
              flags := install_flags |})
        (fun e =>
           (if includes (message e) (str "Activity not found") then
              Toast_show "error" "安装失败"
                      "系统没有找到可以打开 APK 的应用，请检查系统设置"
            else if includes (message e) (str "permission") then
              Toast_show "error" "安装失败"
                      "请在设置里允许“未知来源”安装"
            else
              Toast_show "error" "安装失败" "未知错误，请稍后重试") ;;;
           throw e)
    else
      Toast_show "error" "安装失败" "iOS 设备无法直接安装 APK" ;;;
      throw (Error (str "APK install not supported on iOS")).

(** ** 5. Versions *)

Definition getCurrentVersion : jsstring := currentVersion P.

Definition isUpdateAvailable (remoteVersion : jsstring) : bool :=
  0 <? compareVersions remoteVersion (currentVersion P).

End Service.

End UpdateService.

(* ================================================================== *)
(** * What the specification says, in its own words *)
(* ================================================================== *)

Module Spec.
Import JsNumber JsString Platform JsArray UpdateService.

(** A version string: components separated by dots, each a non-empty
    sequence of decimal digits. *)
Definition is_component (c : jsstring) : bool :=
  match c with
  | [] => false
  | _ => forallb is_digit c
  end.

Definition is_version_string (v : jsstring) : bool :=
  forallb is_component (split dot v).

(** Its components, as the integers the digits write. *)
Definition components (v : jsstring) : list Z :=
  List.map (fun c => Z.of_N (digits_value 10 c)) (split dot v).

(** Component by component up to the longer length, a missing
    component counting as 0: 1 at the first component where [a]'s value
    exceeds [b]'s, -1 at the first where it is less, 0 otherwise. *)
Fixpoint compare_with_zeros (b : list Z) : Z :=
  match b with
  | [] => 0
  | y :: b' =>
      if y <? 0 then 1 else if 0 <? y then -1 else compare_with_zeros b'
  end.

Fixpoint compare_components (a b : list Z) : Z :=
  match a with
  | [] => compare_with_zeros b
  | x :: a' =>
      let y := hd 0 b in
      if y <? x then 1 else if x <? y then -1
      else compare_components a' (tl b)
  end.

(** [Number.MAX_SAFE_INTEGER]: up to it every integer is a number. *)
Definition MAX_SAFE_INTEGER : Z := 2 ^ 53 - 1.

Definition safe (v : jsstring) : bool :=
  forallb (fun x => x <=? MAX_SAFE_INTEGER) (components v).

(** The [version] field of a manifest, [undefined] when it has none. *)
Definition version_field (manifest : Json) : JsValue :=
  match manifest with
  | JObject fields => own_property (str "version") fields
  | _ => Undefined
  end.


(** The files the clean-up of a listing goes on to delete: none when
    at most 2 names match, else all matches but the first 2 of the
    sorted ones. *)
Definition stale_files (listing : list jsstring) : list jsstring :=
  let apkFiles := filter is_apk_name listing in
  if (length apkFiles <=? 2)%nat then []
  else slice 2 (sort newest_first apkFiles).

(** The files it keeps. *)
Definition kept_files (listing : list jsstring) : list jsstring :=
  let apkFiles := filter is_apk_name listing in
  if (length apkFiles <=? 2)%nat then apkFiles
  else firstn 2 (sort newest_first apkFiles).

(** The calls of the caller's progress callback that one report of
    the file store leads to: none without a callback or a truthy
    expected total, else one, with the floor of
    [written / expected * 100] computed on numbers. *)
Definition forwarded (onProgress : bool) (r : DownloadProgress)
  : list number :=
  match totalBytesExpectedToWrite r with
  | Some expected =>
      if onProgress && truthy expected then
        [Math_floor (mul (div (totalBytesWritten r) expected) (of_Z 100))]
      else []
  | None => []
  end.

(** Every name of the listing that passes the filter of the clean-up
    has a decimal digit. *)
Definition timestamped (listing : list jsstring) : bool :=
  forallb (fun name => implb (is_apk_name name) (existsb is_digit name))
    listing.

(** No two of the names have the same number. *)
Definition distinct_numbers (names : list jsstring) : Prop :=
  forall x y, In x names -> In y names ->
  SFeqb (file_number x) (file_number y) = true -> x = y.

(** [x <= y] on numbers. *)
Definition le (x y : number) : bool := SFleb x y.

End Spec.

(* ================================================================== *)
(** * Concrete platforms *)
(* ================================================================== *)

Module Scenario.
Import JsNumber JsString Platform.

Definition manifest_url : jsstring :=
  str "https://raw.example/package.json".

Definition url_of (v : JsValue) : jsstring :=
  match v with
  | Value (JString x) => str "https://dl.example/v" ++ x ++ str ".apk"
  | _ => str "https://dl.example/vundefined.apk"
  end.

Definition network_down : JsError := Error (str "Network request failed").

(** A platform from the answers of its capabilities. *)
Definition platform
    (fetch_ : nat -> JsError + Response)
    (dir : option jsstring)
    (listing : JsError + list jsstring)
    (delete_ : nat -> jsstring -> option JsError)
    (download_ : nat -> Download)
    (exists_ : JsError + bool) : Platform :=
  {| currentVersion := str "1.3.0";
     GITHUB_RAW_URL := manifest_url;
     getDownloadUrl := url_of;
     OS := str "android";
     now := fun n => (1700000000000 + N.of_nat n)%N;
     fetch := fun n _ => fetch_ n;
     documentDirectory := dir;
     readDirectoryAsync := fun _ _ => listing;
     deleteAsync := delete_;
     downloadAsync := fun n _ _ => download_ n;
     getInfoAsync := fun _ _ => exists_;
     getContentUriAsync := fun _ u => inr (str "content://" ++ u);
     startActivityAsync := fun _ _ => None |}.

Definition ok_response (body : Json) : Response :=
  {| ok := true; status := 200; json := inr body |}.

Definition no_download : Download :=
  {| reports := []; settled := inl network_down |}.

(** The network is down for every fetch. *)
Definition offline : Platform :=
  platform (fun _ => inl network_down) (Some (str "file:///data/"))
    (inr []) (fun _ _ => None) (fun _ => no_download) (inr false).

(** The first fetch fails, the later ones give version 1.4.0. *)
Definition flaky : Platform :=
  platform
    (fun n =>
       match n with
       | O => inl network_down
       | _ => inr (ok_response (JObject [(str "version", JString (str "1.4.0"))]))
       end)
    (Some (str "file:///data/")) (inr []) (fun _ _ => None)
    (fun _ => no_download) (inr false).

(** The manifest is the JSON text [null]. *)
Definition null_manifest : Platform :=
  platform (fun _ => inr (ok_response JNull)) (Some (str "file:///data/"))
    (inr []) (fun _ _ => None) (fun _ => no_download) (inr false).

(** The manifest is the JSON text [{}]. *)
Definition empty_manifest : Platform :=
  platform (fun _ => inr (ok_response (JObject []))) (Some (str "file:///data/"))
    (inr []) (fun _ _ => None) (fun _ => no_download) (inr false).

(** The first fetch is rejected, the second answers 503, the later
    ones give the manifest [{}]. *)
Definition late_manifest : Platform :=
  platform
    (fun n =>
       match n with
       | O => inl network_down
       | S O => inr {| ok := false; status := 503; json := inr JNull |}
       | _ => inr (ok_response (JObject []))
       end)
    (Some (str "file:///data/")) (inr []) (fun _ _ => None)
    (fun _ => no_download) (inr false).

(** No file at the URI handed to [installApk]. *)
Definition apk_uri : jsstring := str "file:///data/OrionTV_v1700000000000.apk".

(** Five artifacts in the directory; deleting fails every time. *)
Definition five_files : list jsstring :=
  [str "OrionTV_v1700000000300.apk"; str "OrionTV_v1700000000100.apk";
   str "notes.txt";
   str "OrionTV_v1700000000500.apk"; str "OrionTV_v1700000000200.apk";
   str "OrionTV_v1700000000400.apk"].

Definition read_only : Platform :=
  platform (fun _ => inl network_down) (Some (str "file:///data/"))
    (inr five_files) (fun _ _ => Some (Error (str "EACCES")))
    (fun _ => no_download) (inr false).

Definition writable : Platform :=
  platform (fun _ => inl network_down) (Some (str "file:///data/"))
    (inr five_files) (fun _ _ => None) (fun _ => no_download) (inr false).

(** Two names that pass the filter without a digit, before the one
    artifact with a timestamp. *)
Definition untimed_files : list jsstring :=
  [str "OrionTV_vA.apk"; str "OrionTV_vB.apk";
   str "OrionTV_v1700000000500.apk"].

Definition untimed : Platform :=
  platform (fun _ => inl network_down) (Some (str "file:///data/"))
    (inr untimed_files) (fun _ _ => None) (fun _ => no_download) (inr false).

(** Every transfer resolves, with a result that has no uri. *)
Definition no_uri : Download :=
  {| reports := []; settled := inr (Some {| uri := None |}) |}.

Definition uriless : Platform :=
  platform (fun _ => inl network_down) (Some (str "file:///data/"))
    (inr []) (fun _ _ => None) (fun _ => no_uri) (inr false).

(** A transfer that reports 29 of 100 bytes, then 50 of 200, then
    progress without a known total, and succeeds. *)
Definition report (written : Z) (expected : option Z) : DownloadProgress :=
  {| totalBytesWritten := of_Z written;
     totalBytesExpectedToWrite := option_map of_Z expected |}.

Definition reporting_transfer : Download :=
  {| reports := [report 29 (Some 100); report 50 (Some 200);
                 report 60 None; report 70 (Some 0)];
     settled := inr (Some {| uri := Some (str "file:///data/new.apk") |}) |}.

Definition reporting : Platform :=
  platform (fun _ => inl network_down) (Some (str "file:///data/"))
    (inr []) (fun _ _ => None) (fun _ => reporting_transfer) (inr false).

End Scenario.

(* ================================================================== *)
(** * Describing a run *)
(* ================================================================== *)

Module Run.
Import JsString Platform Async.

(** [s'] is [s] after the events [evs], with [more c] further calls of
    each capability [c]. *)
Definition after (s : State) (more : Capability -> nat)
    (evs : list Event) (s' : State) : Prop :=
  trace s' = trace s ++ evs
  /\ forall c, calls s' c = (more c + calls s c)%nat.

Definition one (c : Capability) : Capability -> nat :=
  fun c' => if Capability_eqb c c' then 1%nat else O.

Definition none : Capability -> nat := fun _ => O.

Definition deletions_only (n : nat) : Capability -> nat :=
  fun c => if Capability_eqb CDelete c then n else O.

Definition clock_and_transfer : Capability -> nat :=
  fun c => (one CNow c + one CDownload c)%nat.

(** The outcome of awaiting a promise that settled with [r]. *)
Definition as_outcome {A} (r : JsError + A) : Outcome A :=
  match r with
  | inl e => Throw e
  | inr a => Return a
  end.

(** What the [try] block of [downloadApk] makes of a transfer. *)
Definition read_download (d : Download) : JsError + jsstring :=
  match settled d with
  | inl e => inl e
  | inr result =>
      match UpdateService.result_uri result with
      | Some u => inr u
      | None => inl (Error (JsString.str "Download failed: No URI available"))
      end
  end.

(** The events of a run of [c] from [s]. *)
Definition events_of {A} (c : Async A) (s : State) : list Event :=
  skipn (length (trace s)) (trace (snd (c s))).

End Run.

(* ================================================================== *)
(** * More to observe in a run *)
(* ================================================================== *)

Module Observe.
Import JsNumber JsString Platform UpdateService.

(** The name [downloadApk] gives the file of an attempt started at
    [timestamp]: [`OrionTV_v${timestamp}.apk`]. *)
Definition file_name (timestamp : N) : jsstring :=
  str "OrionTV_v" ++ of_N timestamp ++ str ".apk".

(** The directories listed, the URIs translated and the second lines
    of the toasts of a trace. *)
Definition listed (t : list Event) : list jsstring :=
  flat_map
    (fun ev => match ev with EvReadDirectory d => [d] | _ => [] end) t.

Definition translated (t : list Event) : list jsstring :=
  flat_map
    (fun ev => match ev with EvGetContentUri u => [u] | _ => [] end) t.

Definition toast_bodies (t : list Event) : list string :=
  flat_map (fun ev => match ev with EvToast _ _ t2 => [t2] | _ => [] end) t.

(** A computation that only appends events to the trace, all of them
    of one kind. *)
Definition emits_only {A} (kind : Event -> bool) (c : Async.Async A)
  : Prop :=
  forall s, exists evs,
    trace (snd (c s)) = trace s ++ evs /\ forallb kind evs = true.

(** The events of a version check: the abort timer, the fetch, the
    backoff, the log and the toast. *)
Definition check_event (ev : Event) : bool :=
  match ev with
  | EvAbortTimer _ | EvClearTimer | EvFetch _ | EvSleep _
  | EvToast _ _ _ | EvWarn _ _ => true
  | _ => false
  end.

(** The events of a clean-up: the listing, idempotent deletions and
    the log. *)
Definition cleanup_event (ev : Event) : bool :=
  match ev with
  | EvReadDirectory _ | EvDelete _ true | EvDebug _ | EvWarn _ _ => true
  | _ => false
  end.

(** The events of the download attempts: the clock, the transfer, the
    progress callback, the backoff, the log and the toast. *)
Definition transfer_event (ev : Event) : bool :=
  match ev with
  | EvNow | EvDownload _ _ | EvOnProgress _ | EvSleep _
  | EvToast _ _ _ | EvWarn _ _ | EvDebug _ => true
  | _ => false
  end.

(** The events of an installation: the existence check, the
    translation, the launch and the toast. *)
Definition install_event (ev : Event) : bool :=
  match ev with
  | EvGetInfo _ | EvGetContentUri _ | EvStartActivity _
  | EvToast _ _ _ => true
  | _ => false
  end.

(** The intent [installApk] starts for a content URI. *)
Definition install_intent (contentUri : jsstring) : Intent :=
  {| action := str "android.intent.action.VIEW";
     data := contentUri;
     type := ANDROID_MIME_TYPE;
     flags := 17 |}.

(** The second line of the toast [installApk] shows for a failed
    launch, by the message of the error. *)
Definition launch_failure_body (e : JsError) : string :=
  if includes (message e) (str "Activity not found") then
    "系统没有找到可以打开 APK 的应用，请检查系统设置"
  else if includes (message e) (str "permission") then
    "请在设置里允许“未知来源”安装"
  else "未知错误，请稍后重试".

(** A platform whose files exist and whose launcher answers [launch]
    on the operating system [os]. *)
Definition device (os : string) (launch : option JsError) : Platform :=
  {| currentVersion := str "1.3.0";
     GITHUB_RAW_URL := Scenario.manifest_url;
     getDownloadUrl := Scenario.url_of;
     OS := str os;
     now := fun n => (1700000000000 + N.of_nat n)%N;
     fetch := fun _ _ => inl Scenario.network_down;
     documentDirectory := Some (str "file:///data/");
     readDirectoryAsync := fun _ _ => inr [];
     deleteAsync := fun _ _ => None;
     downloadAsync := fun _ _ _ => Scenario.reporting_transfer;
     getInfoAsync := fun _ _ => inr true;
     getContentUriAsync := fun _ u => inr (str "content://" ++ u);
     startActivityAsync := fun _ _ => launch |}.

End Observe.

(* ================================================================== *)
(** * Facts on binary64 rounding *)
(* ================================================================== *)

Section Binary64.
Import JsNumber.

Lemma dig_pos m : 1 <= dig m.
Proof. unfold dig. lia. Qed.

Lemma dig_bounds m : 2 ^ (dig m - 1) <= Zpos m < 2 ^ dig m.
Proof.
  unfold dig. induction m as [m IH|m IH|]; cbn [digits2_pos].
  - rewrite Pos2Z.inj_succ.
    replace (Z.succ (Zpos (digits2_pos m)) - 1) with (Z.succ (Zpos (digits2_pos m) - 1)) by lia.
    rewrite !Z.pow_succ_r by lia. lia.
  - rewrite Pos2Z.inj_succ.
    replace (Z.succ (Zpos (digits2_pos m)) - 1) with (Z.succ (Zpos (digits2_pos m) - 1)) by lia.
    rewrite !Z.pow_succ_r by lia. lia.
  - cbn. lia.
Qed.

Lemma dig_unique m d : 2 ^ (d - 1) <= Zpos m < 2 ^ d -> dig m = d.
Proof.
  intros [L U]. pose proof (dig_bounds m) as [L' U']. pose proof (dig_pos m).
  assert (0 < d).
  { destruct (Z_lt_le_dec 0 d); [assumption|].
    assert (2 ^ d <= 1).
    { destruct (Z.eq_dec d 0) as [->|]; [cbn; lia|].
      rewrite Z.pow_neg_r by lia. lia. }
    lia. }
  destruct (Z.lt_trichotomy (dig m) d) as [C|[C|C]]; [|assumption|].
  - assert (2 ^ dig m <= 2 ^ (d - 1)) by (apply Z.pow_le_mono_r; lia). lia.
  - assert (2 ^ d <= 2 ^ (dig m - 1)) by (apply Z.pow_le_mono_r; lia). lia.
Qed.

Lemma dig_mono m n : (m <= n)%positive -> dig m <= dig n.
Proof.
  intros H. pose proof (dig_bounds m) as [L _]. pose proof (dig_bounds n) as [_ U].
  pose proof (dig_pos m). pose proof (dig_pos n).
  destruct (Z_lt_le_dec (dig n) (dig m)); [|assumption].
  assert (2 ^ dig n <= 2 ^ (dig m - 1)) by (apply Z.pow_le_mono_r; lia). lia.
Qed.

Lemma iter_xO m d : Zpos (Pos.iter xO m d) = Zpos m * 2 ^ Zpos d.
Proof.
  induction d as [|d IH] using Pos.peano_ind.
  - cbn. lia.
  - rewrite Pos.iter_succ, Pos2Z.inj_succ, Z.pow_succ_r by lia.
    rewrite Pos2Z.inj_xO, IH. lia.
Qed.

Lemma dig_shiftl m mz k :
  0 <= k -> Zpos mz = Zpos m * 2 ^ k -> dig mz = dig m + k.
Proof.
  intros K E. apply dig_unique. rewrite E.
  pose proof (dig_bounds m) as [L U]. pose proof (dig_pos m).
  replace (dig m + k - 1) with ((dig m - 1) + k) by lia.
  rewrite !Z.pow_add_r by lia.
  assert (0 < 2 ^ k) by (apply Z.pow_pos_nonneg; lia). nia.
Qed.

Lemma dig_shiftr m mz k :
  0 <= k < dig m -> Zpos mz = Zpos m / 2 ^ k -> dig mz = dig m - k.
Proof.
  intros K E. apply dig_unique. rewrite E.
  pose proof (dig_bounds m) as [L U].
  assert (P : 0 < 2 ^ k) by (apply Z.pow_pos_nonneg; lia).
  split.
  - apply Z.div_le_lower_bound; [exact P|].
    rewrite <- Z.pow_add_r by lia. replace (k + (dig m - k - 1)) with (dig m - 1) by lia.
    exact L.
  - apply Z.div_lt_upper_bound; [exact P|].
    rewrite <- Z.pow_add_r by lia. replace (k + (dig m - k)) with (dig m) by lia.
    exact U.
Qed.

(** shr *)
Lemma iter_pos_nat {A} (f : A -> A) p x :
  iter_pos f p x = Nat.iter (Pos.to_nat p) f x.
Proof.
  revert x. induction p as [p IH|p IH|]; intros x; cbn [iter_pos].
  - rewrite !IH, Pos2Nat.inj_xI.
    replace (2 * Pos.to_nat p)%nat with (Pos.to_nat p + Pos.to_nat p)%nat by lia.
    rewrite Nat.iter_succ_r, Nat.iter_add. reflexivity.
  - rewrite !IH, Pos2Nat.inj_xO.
    replace (2 * Pos.to_nat p)%nat with (Pos.to_nat p + Pos.to_nat p)%nat by lia.
    rewrite Nat.iter_add. reflexivity.
  - reflexivity.
Qed.

Lemma shr_1_m r : 0 <= shr_m r -> shr_m (shr_1 r) = shr_m r / 2.
Proof.
  destruct r as [m b c]. cbn [shr_m]. intros H.
  destruct m as [|p|p]; [reflexivity| |lia].
  destruct p as [p|p|]; cbn [shr_1 shr_m].
  - rewrite Pos2Z.inj_xI. apply Z.div_unique with 1; lia.
  - rewrite Pos2Z.inj_xO. apply Z.div_unique with 0; lia.
  - reflexivity.
Qed.

Lemma shr_iter_m n r :
  0 <= shr_m r -> shr_m (Nat.iter n shr_1 r) = shr_m r / 2 ^ Z.of_nat n.
Proof.
  intros H. induction n as [|n IH].
  - cbn. rewrite Z.div_1_r. reflexivity.
  - rewrite Nat.iter_succ. rewrite shr_1_m.
    + rewrite IH, Nat2Z.inj_succ, Z.pow_succ_r by lia.
      rewrite Z.div_div by (try apply Z.pow_pos_nonneg; lia).
      f_equal. lia.
    + rewrite IH. apply Z.div_pos; [lia|apply Z.pow_pos_nonneg; lia].
Qed.

Lemma fexp_eq x : fexp prec emax x = Z.max (x - 53) (-1074).
Proof. reflexivity. Qed.

Lemma shr_m_of_loc m l : shr_m (shr_record_of_loc m l) = m.
Proof. destruct l as [|[]]; reflexivity. Qed.

Lemma loc_of_loc m l : loc_of_shr_record (shr_record_of_loc m l) = l.
Proof. destruct l as [|[]]; reflexivity. Qed.

Lemma shr_fexp_canon m e l :
  -1074 <= e -> e <= fexp prec emax (dig m + e) ->
  exists r m',
    shr_fexp prec emax (Zpos m) e l = (r, fexp prec emax (dig m + e))
    /\ shr_m r = Zpos m'
    /\ dig m' + fexp prec emax (dig m + e) = dig m + e
    /\ (m' <= m)%positive
    /\ (fexp prec emax (dig m + e) = e ->
        r = shr_record_of_loc (Zpos m) l /\ m' = m).
Proof.
  intros E1 E2. unfold shr_fexp. change (Zdigits2 (Zpos m)) with (dig m).
  set (f := fexp prec emax (dig m + e)) in *.
  pose proof (dig_pos m) as D. pose proof (fexp_eq (dig m + e)) as F.
  fold f in F.
  destruct (f - e) as [|p|p] eqn:N; [| |lia].
  - assert (f = e) by lia. subst f. cbn [shr].
    exists (shr_record_of_loc (Zpos m) l), m.
    rewrite shr_m_of_loc. replace (fexp prec emax (dig m + e)) with e by lia.
    repeat split; try lia; reflexivity.
  - cbn [shr]. rewrite iter_pos_nat.
    assert (K : 0 <= Zpos p < dig m) by lia.
    assert (Q : 0 < Zpos m / 2 ^ Zpos p).
    { apply Z.div_str_pos. split; [apply Z.pow_pos_nonneg; lia|].
      pose proof (dig_bounds m) as [L _].
      assert (2 ^ Zpos p <= 2 ^ (dig m - 1)) by (apply Z.pow_le_mono_r; lia).
      lia. }
    exists (Nat.iter (Pos.to_nat p) shr_1 (shr_record_of_loc (Zpos m) l)),
      (Z.to_pos (Zpos m / 2 ^ Zpos p)).
    assert (M : shr_m (Nat.iter (Pos.to_nat p) shr_1
                         (shr_record_of_loc (Zpos m) l))
                = Zpos m / 2 ^ Zpos p).
    { rewrite shr_iter_m by (rewrite shr_m_of_loc; lia).
      rewrite shr_m_of_loc, positive_nat_Z. reflexivity. }
    split; [f_equal; lia|]. split; [rewrite M, Z2Pos.id; [reflexivity|lia]|].
    split.
    + rewrite (dig_shiftr m _ (Zpos p) K) by (rewrite Z2Pos.id; lia). lia.
    + split; [|lia].
      assert (Zpos m / 2 ^ Zpos p <= Zpos m).
      { apply Z.div_le_upper_bound; [apply Z.pow_pos_nonneg; lia|].
        assert (0 < 2 ^ Zpos p) by (apply Z.pow_pos_nonneg; lia).
        nia. }
      assert (X : Zpos (Z.to_pos (Zpos m / 2 ^ Zpos p)) <= Zpos m)
        by (rewrite Z2Pos.id; lia).
      exact X.
Qed.

Lemma round_nearest_even_pos m l :
  exists m2, round_nearest_even (Zpos m) l = Zpos m2 /\ (m <= m2)%positive
             /\ (l = loc_Exact -> m2 = m).
Proof.
  destruct l as [|[]]; cbn [round_nearest_even].
  - exists m. repeat split; lia || reflexivity.
  - destruct (Z.even (Zpos m)).
    + exists m. repeat split; try lia; discriminate.
    + exists (m + 1)%positive. repeat split; try lia; discriminate.
  - exists m. repeat split; try lia; discriminate.
  - exists (m + 1)%positive. repeat split; try lia; discriminate.
Qed.

(** A rounded number is infinite or a bounded finite one, of the sign
    asked for. *)
Lemma binary_round_aux_valid s m e l :
  -1074 <= e -> e <= fexp prec emax (dig m + e) ->
  binary_round_aux prec emax s (Zpos m) e l = S754_infinity s
  \/ exists m' e',
      binary_round_aux prec emax s (Zpos m) e l = S754_finite s m' e'
      /\ bounded prec emax m' e' = true.
Proof.
  intros E1 E2. unfold binary_round_aux.
  destruct (shr_fexp_canon m e l E1 E2) as (r & m1 & E & M & D & _ & _).
  rewrite E, M.
  destruct (round_nearest_even_pos m1 (loc_of_shr_record r))
    as (m2 & R & Le & _).
  rewrite R. set (f := fexp prec emax (dig m + e)) in *.
  pose proof (fexp_eq (dig m + e)) as F. fold f in F.
  pose proof (dig_mono _ _ Le) as DM.
  pose proof (fexp_eq (dig m2 + f)) as F2.
  assert (E3 : -1074 <= f) by lia.
  assert (E4 : f <= fexp prec emax (dig m2 + f)) by lia.
  destruct (shr_fexp_canon m2 f loc_Exact E3 E4) as (r2 & m3 & E' & M' & D' & _).
  rewrite E', M'.
  destruct (fexp prec emax (dig m2 + f) <=? emax - prec) eqn:B;
    [right|left; reflexivity].
  eexists; eexists. split; [reflexivity|].
  unfold bounded, canonical_mantissa. rewrite B, andb_true_r.
  apply Z.eqb_eq. change (Zpos (digits2_pos m3)) with (dig m3).
  rewrite D'. reflexivity.
Qed.

Lemma shl_align_spec m e e' mz ez :
  shl_align m e e' = (mz, ez) ->
  ez = Z.min e e' /\ Zpos mz = Zpos m * 2 ^ (e - ez).
Proof.
  unfold shl_align. destruct (e' - e) as [|p|p] eqn:N; intros H;
    inversion H as [[Hm He]].
  - rewrite Z.sub_diag. cbn. lia.
  - rewrite Z.sub_diag. cbn. lia.
  - change (Z.neg p) with (- Zpos p) in N. subst ez.
    rewrite iter_xO. replace (e - e') with (Zpos p) by lia. lia.
Qed.

Lemma binary_round_valid s m e :
  -1074 <= e ->
  binary_round prec emax s m e = S754_infinity s
  \/ exists m' e',
      binary_round prec emax s m e = S754_finite s m' e'
      /\ bounded prec emax m' e' = true.
Proof.
  intros E. unfold binary_round. change (Zpos (digits2_pos m)) with (dig m).
  destruct (shl_align m e (fexp prec emax (dig m + e))) as [mz ez] eqn:A.
  apply shl_align_spec in A. destruct A as [A1 A2].
  pose proof (fexp_eq (dig m + e)) as F.
  assert (D : dig mz = dig m + (e - ez)) by (apply dig_shiftl; [lia|exact A2]).
  apply binary_round_aux_valid; [lia|].
  rewrite D. replace (dig m + (e - ez) + ez) with (dig m + e) by lia. lia.
Qed.

(** An integer of at most 53 bits is a number, exactly. *)
Lemma binary_round_exact s m :
  dig m <= 53 ->
  exists mz,
    binary_round prec emax s m 0 = S754_finite s mz (dig m - 53)
    /\ Zpos mz = Zpos m * 2 ^ (53 - dig m)
    /\ bounded prec emax mz (dig m - 53) = true.
Proof.
  intros D. unfold binary_round. change (Zpos (digits2_pos m)) with (dig m).
  pose proof (dig_pos m) as P.
  assert (F : fexp prec emax (dig m + 0) = dig m - 53)
    by (rewrite fexp_eq; lia).
  rewrite F.
  destruct (shl_align m 0 (dig m - 53)) as [mz ez] eqn:A.
  apply shl_align_spec in A. destruct A as [A1 A2].
  assert (Ez : ez = dig m - 53) by lia. clear A1. subst ez.
  replace (0 - (dig m - 53)) with (53 - dig m) in A2 by lia.
  assert (Dz : dig mz = 53)
    by (rewrite (dig_shiftl m mz (53 - dig m)) by (lia || exact A2); lia).
  assert (Fz : fexp prec emax (dig mz + (dig m - 53)) = dig m - 53)
    by (rewrite fexp_eq; lia).
  exists mz. split; [|split; [exact A2|]].
  - unfold binary_round_aux.
    destruct (shr_fexp_canon mz (dig m - 53) loc_Exact) as (r & m1 & E & M & _ & _ & X);
      [lia|lia|].
    destruct (X Fz) as [-> ->]. rewrite E. cbn [shr_m shr_record_of_loc loc_of_shr_record round_nearest_even].
    rewrite Fz.
    destruct (shr_fexp_canon mz (dig m - 53) loc_Exact) as (r' & m1' & E' & M' & _ & _ & X');
      [lia|lia|].
    destruct (X' Fz) as [-> ->]. rewrite Fz in E'. rewrite E'.
    cbn [shr_m shr_record_of_loc].
    replace (dig m - 53 <=? emax - prec) with true; [reflexivity|].
    symmetry. apply Z.leb_le. unfold emax, prec. lia.
  - unfold bounded, canonical_mantissa. change (Zpos (digits2_pos mz)) with (dig mz).
    rewrite Fz, Z.eqb_refl. apply Z.leb_le. unfold emax, prec. lia.
Qed.

Lemma bounded_facts m e :
  bounded prec emax m e = true ->
  -1074 <= e <= 971 /\ dig m <= 53 /\ (-1074 < e -> dig m = 53).
Proof.
  unfold bounded, canonical_mantissa. rewrite andb_true_iff.
  change (Zpos (digits2_pos m)) with (dig m).
  rewrite Z.eqb_eq, Z.leb_le, fexp_eq. unfold emax, prec. lia.
Qed.

Lemma scaled_finite_bounds m e :
  bounded prec emax m e = true ->
  2 ^ (dig m - 1 + (e + 1074)) <= Zpos m * 2 ^ (e + 1074)
  < 2 ^ (dig m + (e + 1074)).
Proof.
  intros B. apply bounded_facts in B. pose proof (dig_bounds m) as [L U].
  pose proof (dig_pos m).
  rewrite (Z.pow_add_r 2 (dig m - 1) (e + 1074)),
    (Z.pow_add_r 2 (dig m) (e + 1074)) by lia.
  assert (0 < 2 ^ (e + 1074)) by (apply Z.pow_pos_nonneg; lia). nia.
Qed.

Lemma scaled_finite_range m e :
  bounded prec emax m e = true ->
  0 < Zpos m * 2 ^ (e + 1074) < 2 ^ 2098.
Proof.
  intros B. pose proof (scaled_finite_bounds m e B) as [L U].
  apply bounded_facts in B. split; [lia|].
  assert (2 ^ (dig m + (e + 1074)) <= 2 ^ 2098)
    by (apply Z.pow_le_mono_r; lia).
  lia.
Qed.

Lemma compare_finite m1 e1 m2 e2 :
  bounded prec emax m1 e1 = true -> bounded prec emax m2 e2 = true ->
  match e1 ?= e2 with
  | Lt => Lt
  | Gt => Gt
  | Eq => Pos.compare_cont Eq m1 m2
  end = (Zpos m1 * 2 ^ (e1 + 1074) ?= Zpos m2 * 2 ^ (e2 + 1074)).
Proof.
  intros B1 B2.
  pose proof (scaled_finite_bounds m1 e1 B1) as [L1 U1].
  pose proof (scaled_finite_bounds m2 e2 B2) as [L2 U2].
  apply bounded_facts in B1, B2.
  destruct (Z.compare_spec e1 e2) as [E|E|E]; symmetry.
  - subst e2. change (Pos.compare_cont Eq m1 m2) with (Zpos m1 ?= Zpos m2).
    symmetry. apply Zmult_compare_compat_r.
    apply Z.lt_gt, Z.pow_pos_nonneg; lia.
  - apply Z.compare_lt_iff.
    assert (2 ^ (dig m1 + (e1 + 1074)) <= 2 ^ (dig m2 - 1 + (e2 + 1074)))
      by (apply Z.pow_le_mono_r; lia).
    lia.
  - apply Z.compare_gt_iff.
    assert (2 ^ (dig m2 + (e2 + 1074)) <= 2 ^ (dig m1 - 1 + (e1 + 1074)))
      by (apply Z.pow_le_mono_r; lia).
    lia.
Qed.

(** On ordinary numbers the order is the order of the scaled values. *)
Lemma SFcompare_ordinary x y :
  ordinary x = true -> ordinary y = true ->
  SFcompare x y = Some (scaled x ?= scaled y).
Proof.
  destruct x as [[]|[]| |[] mx ex], y as [[]|[]| |[] my ey];
    cbn [ordinary]; try discriminate; intros Bx By;
    cbn [SFcompare scaled cond_Zopp]; try reflexivity.
  - pose proof (scaled_finite_range my ey By).
    symmetry. f_equal. apply Z.compare_lt_iff. lia.
  - pose proof (scaled_finite_range my ey By).
    symmetry. f_equal. apply Z.compare_gt_iff. lia.
  - pose proof (scaled_finite_range mx ex Bx).
    symmetry. f_equal. apply Z.compare_gt_iff. lia.
  - pose proof (scaled_finite_range mx ex Bx).
    symmetry. f_equal. apply Z.compare_lt_iff. lia.
  - f_equal. apply compare_finite; assumption.
Qed.

Lemma SFltb_ordinary x y :
  ordinary x = true -> ordinary y = true ->
  SFltb x y = (scaled x <? scaled y).
Proof.
  intros Bx By. unfold SFltb, Z.ltb. rewrite (SFcompare_ordinary x y Bx By).
  reflexivity.
Qed.

Lemma SFleb_ordinary x y :
  ordinary x = true -> ordinary y = true ->
  SFleb x y = (scaled x <=? scaled y).
Proof.
  intros Bx By. unfold SFleb, Z.leb. rewrite (SFcompare_ordinary x y Bx By).
  destruct (scaled x ?= scaled y); reflexivity.
Qed.

Lemma fst_shl_align m e ez :
  ez <= e -> Zpos (fst (shl_align m e ez)) = Zpos m * 2 ^ (e - ez).
Proof.
  intros H. destruct (shl_align m e ez) as [mz ez'] eqn:A.
  apply shl_align_spec in A. destruct A as [A1 A2]. cbn [fst].
  rewrite A2. f_equal. f_equal. lia.
Qed.

(** The sign of a difference of ordinary numbers is the sign of the
    difference of their scaled values. *)
Lemma SFsub_sign x y :
  ordinary x = true -> ordinary y = true ->
  SFltb (S754_zero false) (SFsub prec emax y x) = (scaled x <? scaled y).
Proof.
  destruct x as [[]|[]| |[] mx ex], y as [[]|[]| |[] my ey];
    cbn [ordinary]; try discriminate; intros Bx By;
    cbn [SFsub scaled cond_Zopp negb]; try reflexivity.
  - pose proof (scaled_finite_range my ey By).
    cbn [SFltb SFcompare]. symmetry. apply Z.ltb_lt. lia.
  - pose proof (scaled_finite_range my ey By).
    cbn [SFltb SFcompare]. symmetry. apply Z.ltb_ge. lia.
  - pose proof (scaled_finite_range mx ex Bx).
    cbn [SFltb SFcompare]. symmetry. apply Z.ltb_ge. lia.
  - pose proof (scaled_finite_range mx ex Bx).
    cbn [SFltb SFcompare]. symmetry. apply Z.ltb_lt. lia.
  - pose proof (bounded_facts _ _ Bx) as Fx.
    pose proof (bounded_facts _ _ By) as Fy.
    rewrite !fst_shl_align by lia.
    set (ez := Z.min ey ex).
    assert (S : Zpos mx * 2 ^ (ex + 1074)
                = (Zpos mx * 2 ^ (ex - ez)) * 2 ^ (ez + 1074)).
    { rewrite <- Z.mul_assoc, <- Z.pow_add_r by lia. do 2 f_equal. lia. }
    assert (T : Zpos my * 2 ^ (ey + 1074)
                = (Zpos my * 2 ^ (ey - ez)) * 2 ^ (ez + 1074)).
    { rewrite <- Z.mul_assoc, <- Z.pow_add_r by lia. do 2 f_equal. lia. }
    rewrite S, T.
    assert (Pz : 0 < 2 ^ (ez + 1074)) by (apply Z.pow_pos_nonneg; lia).
    set (a := Zpos my * 2 ^ (ey - ez)) in *.
    set (b := Zpos mx * 2 ^ (ex - ez)) in *.
    destruct (a - b) as [|d|d] eqn:D; cbn [binary_normalize].
    + cbn [SFltb SFcompare]. symmetry. apply Z.ltb_ge. nia.
    + destruct (binary_round_valid false d ez) as [I|(m' & e' & I & _)];
        [lia| |]; rewrite I; cbn [SFltb SFcompare]; symmetry; apply Z.ltb_lt;
        assert (0 < a - b) by lia; nia.
    + destruct (binary_round_valid true d ez) as [I|(m' & e' & I & _)];
        [lia| |]; rewrite I; cbn [SFltb SFcompare]; symmetry; apply Z.ltb_ge;
        assert (a - b < 0) by lia; nia.
Qed.

End Binary64.

(* ================================================================== *)
(** * Properties of the version comparison *)
(* ================================================================== *)

Section CompareFacts.
Import JsNumber JsString Version.

(** The order of numbers: [x < y] excludes [y < x]. *)
Lemma SFcompare_Lt_Gt (x y : number) :
  SFcompare x y = Some Lt -> SFcompare y x = Some Gt.
Proof.
  destruct x as [sx|sx| |sx mx ex], y as [sy|sy| |sy my ey];
    simpl; try discriminate;
    try (destruct sx; discriminate);
    try (destruct sy; discriminate);
    try (destruct sx, sy; (discriminate || reflexivity)).
  destruct sx, sy; try discriminate; try reflexivity;
    rewrite (Z.compare_antisym ex ey);
    destruct (ex ?= ey) eqn:E; simpl; try discriminate; try reflexivity;
    pose proof (Pos.compare_cont_antisym mx my Eq) as A; simpl in A;
    rewrite <- A; destruct (Pos.compare_cont Eq mx my); simpl;
    intros H; inversion H; reflexivity.
Qed.

Lemma lt_asym (x y : number) : SFltb x y = true -> SFltb y x = false.
Proof.
  unfold SFltb. destruct (SFcompare x y) as [[]|] eqn:E;
    try discriminate.
  intros _. rewrite (SFcompare_Lt_Gt x y E). reflexivity.
Qed.

Lemma compare_loop_range (p1 p2 : list number) (n i : nat) :
  compare_loop p1 p2 i n = -1 \/ compare_loop p1 p2 i n = 0
  \/ compare_loop p1 p2 i n = 1.
Proof.
  revert i. induction n as [|n IH]; intros i; simpl.
  - right; left; reflexivity.
  - destruct (gt _ _); [right; right; reflexivity|].
    destruct (lt _ _); [left; reflexivity|]. apply IH.
Qed.

Lemma compare_loop_swap (p1 p2 : list number) (n i : nat) :
  compare_loop p1 p2 i n = - compare_loop p2 p1 i n.
Proof.
  revert i. induction n as [|n IH]; intros i; simpl; [reflexivity|].
  unfold gt, lt.
  destruct (SFltb (at_or_zero p2 i) (at_or_zero p1 i)) eqn:G.
  - rewrite (lt_asym _ _ G). reflexivity.
  - destruct (SFltb (at_or_zero p1 i) (at_or_zero p2 i)) eqn:L.
    + reflexivity.
    + apply IH.
Qed.

End CompareFacts.

(** C9. For every pair of strings, numeric or not, [compareVersions]
    returns -1, 0 or 1 (it is a total function), swapping the arguments
    negates the result, and a string compared with itself gives 0. *)
Theorem compareVersions_antisymmetric (a b : JsString.jsstring) :
  (Version.compareVersions a b = -1 \/ Version.compareVersions a b = 0
   \/ Version.compareVersions a b = 1)
  /\ Version.compareVersions a b = - Version.compareVersions b a
  /\ Version.compareVersions a a = 0.
Proof.
  unfold Version.compareVersions. split; [apply compare_loop_range|]. split.
  - rewrite Nat.max_comm. apply compare_loop_swap.
  - pose proof (compare_loop_swap
                  (map JsString.Number (JsString.split JsString.dot a))
                  (map JsString.Number (JsString.split JsString.dot a))
                  (Nat.max (length (map JsString.Number (JsString.split JsString.dot a)))
                     (length (map JsString.Number (JsString.split JsString.dot a)))) 0).
    lia.
Qed.

(** C4. [isUpdateAvailable(v)] is true exactly when
    [compareVersions(v, currentVersion) > 0], for the [currentVersion]
    of the build. *)
Theorem isUpdateAvailable_iff_newer (P : Platform.Platform)
    (v : JsString.jsstring) :
  UpdateService.isUpdateAvailable P v = true
  <-> Version.compareVersions v (Platform.currentVersion P) > 0.
Proof.
  unfold UpdateService.isUpdateAvailable. rewrite Z.ltb_lt. lia.
Qed.

(* ================================================================== *)
(** * Versions made of digits *)
(* ================================================================== *)

Section DigitStrings.
Import JsNumber JsString.

Lemma is_digit_cases c :
  is_digit c = true ->
  In c [48; 49; 50; 51; 52; 53; 54; 55; 56; 57]%N.
Proof.
  unfold is_digit. rewrite andb_true_iff, !N.leb_le. intros [L U].
  cbn [In].
  destruct (N.eq_dec c 48); [auto|]. destruct (N.eq_dec c 49); [auto 10|].
  destruct (N.eq_dec c 50); [auto 10|]. destruct (N.eq_dec c 51); [auto 10|].
  destruct (N.eq_dec c 52); [auto 10|]. destruct (N.eq_dec c 53); [auto 10|].
  destruct (N.eq_dec c 54); [auto 10|]. destruct (N.eq_dec c 55); [auto 10|].
  destruct (N.eq_dec c 56); [auto 10|]. destruct (N.eq_dec c 57); [auto 20|].
  lia.
Qed.

Ltac digit_cases H :=
  apply is_digit_cases in H; cbn [In] in H;
  repeat (destruct H as [H|H]; [subst|]); [..|contradiction].

Lemma digit_not_whitespace c : is_digit c = true -> is_whitespace c = false.
Proof. intros H. digit_cases H; reflexivity. Qed.

Lemma digit_not_sign c :
  is_digit c = true -> c <> 43%N /\ c <> 45%N /\ c <> 73%N.
Proof. intros H. digit_cases H; repeat split; discriminate. Qed.

Lemma digit_value_digit c :
  is_digit c = true -> digit_value 10 c = Some (c - 48)%N.
Proof. intros H. digit_cases H; reflexivity. Qed.

Lemma span_digits_all ds :
  forallb is_digit ds = true -> span_digits 10 ds = (ds, []).
Proof.
  induction ds as [|c ds IH]; [reflexivity|]. cbn [forallb span_digits].
  rewrite andb_true_iff. intros [C D].
  rewrite (digit_value_digit c C), (IH D). reflexivity.
Qed.

Lemma trim_start_digits ds :
  forallb is_digit ds = true -> trim_start ds = ds.
Proof.
  destruct ds as [|c ds]; [reflexivity|]. cbn [forallb trim_start].
  rewrite andb_true_iff. intros [C _].
  rewrite (digit_not_whitespace c C). reflexivity.
Qed.

Lemma forallb_rev {A} (f : A -> bool) l :
  forallb f l = true -> forallb f (rev l) = true.
Proof.
  rewrite !forallb_forall. intros H x I. apply H, in_rev, I.
Qed.

Lemma trim_digits ds : forallb is_digit ds = true -> trim ds = ds.
Proof.
  intros H. unfold trim. rewrite (trim_start_digits ds H).
  rewrite (trim_start_digits (rev ds) (forallb_rev _ _ H)).
  apply rev_involutive.
Qed.

Lemma non_decimal_digits ds :
  forallb is_digit ds = true -> non_decimal_literal ds = None.
Proof.
  destruct ds as [|c [|p ds]]; try reflexivity.
  - cbn [non_decimal_literal]. destruct c as [|c]; [reflexivity|].
    repeat (destruct c as [c|c|]; try reflexivity).
  - cbn [forallb]. rewrite !andb_true_iff. intros (_ & Hp & _).
    assert (R : (if (p =? 120)%N || (p =? 88)%N then Some 16%N
                 else if (p =? 111)%N || (p =? 79)%N then Some 8%N
                 else if (p =? 98)%N || (p =? 66)%N then Some 2%N
                 else None) = None) by (digit_cases Hp; reflexivity).
    unfold non_decimal_literal. rewrite R.
    destruct c as [|c]; [reflexivity|].
    repeat (destruct c as [c|c|]; try reflexivity).
Qed.

(** [Number] and [parseInt] on a sequence of digits. *)
Lemma Number_digits ds :
  Spec.is_component ds = true ->
  Number ds = of_decimal false (digits_value 10 ds) 0.
Proof.
  unfold Spec.is_component. destruct ds as [|c ds]; [discriminate|].
  intros H. unfold Number. rewrite (trim_digits _ H), (non_decimal_digits _ H).
  assert (C : is_digit c = true)
    by (cbn [forallb] in H; apply andb_true_iff in H; apply H).
  destruct (digit_not_sign c C) as (N1 & N2 & N3).
  assert (D : decimal_literal (c :: ds)
              = unsigned_decimal_literal false (c :: ds)).
  { unfold decimal_literal. destruct c as [|c]; [reflexivity|].
    repeat (destruct c as [c|c|]; try reflexivity); contradiction. }
  rewrite D. unfold unsigned_decimal_literal.
  assert (I : eqb (c :: ds) (str "Infinity") = false).
  { unfold eqb. destruct (list_eq_dec N.eq_dec (c :: ds) (str "Infinity"))
      as [E|]; [|reflexivity]. inversion E. contradiction. }
  rewrite I, (span_digits_all _ H). cbn [exponent_part length].
  rewrite app_nil_r. reflexivity.
Qed.

Lemma parseInt10_digits ds :
  forallb is_digit ds = true -> ds <> [] ->
  parseInt10 ds = of_decimal false (digits_value 10 ds) 0.
Proof.
  intros H N. unfold parseInt10. rewrite (trim_start_digits _ H).
  destruct ds as [|c ds]; [contradiction|].
  assert (C : is_digit c = true)
    by (cbn [forallb] in H; apply andb_true_iff in H; apply H).
  pose proof (span_digits_all _ H) as S.
  digit_cases C; cbv beta iota; rewrite S; reflexivity.
Qed.

End DigitStrings.

Section Values.
Import JsNumber JsString Version.

Lemma of_decimal_ordinary n : ordinary (of_decimal false n 0) = true.
Proof.
  destruct n as [|m]; [reflexivity|]. cbn [of_decimal].
  destruct (binary_round_valid false m 0) as [I|(m' & e' & I & B)];
    [lia| |]; rewrite I; [reflexivity|exact B].
Qed.

Lemma of_decimal_exact n :
  Z.of_N n < 2 ^ 53 ->
  scaled (of_decimal false n 0) = Z.of_N n * 2 ^ 1074.
Proof.
  destruct n as [|m]; [reflexivity|]. cbn [of_decimal Z.of_N]. intros H.
  assert (D : dig m <= 53).
  { pose proof (dig_bounds m) as [L _]. pose proof (dig_pos m).
    destruct (Z_lt_le_dec 53 (dig m)); [|assumption].
    assert (2 ^ 53 <= 2 ^ (dig m - 1)) by (apply Z.pow_le_mono_r; lia). lia. }
  destruct (binary_round_exact false m D) as (mz & E & V & _).
  rewrite E. cbn [scaled cond_Zopp]. rewrite V, <- Z.mul_assoc.
  pose proof (dig_pos m).
  rewrite <- Z.pow_add_r by lia. do 2 f_equal. lia.
Qed.

Lemma denotes_zero : denotes pos_zero 0.
Proof. split; reflexivity. Qed.

Lemma denotes_gt x v y w :
  denotes x v -> denotes y w -> gt x y = (w <? v).
Proof.
  intros [Ox Sx] [Oy Sy]. unfold gt. rewrite (SFltb_ordinary y x Oy Ox), Sx, Sy.
  destruct (Z.ltb_spec w v), (Z.ltb_spec (w * 2 ^ 1074) (v * 2 ^ 1074));
    try reflexivity; assert (0 < 2 ^ 1074) by (apply Z.pow_pos_nonneg; lia);
    nia.
Qed.

Lemma denotes_lt x v y w :
  denotes x v -> denotes y w -> lt x y = (v <? w).
Proof. intros Hx Hy. apply (denotes_gt y w x v Hy Hx). Qed.

Lemma at_or_zero_tl p i : at_or_zero p (S i) = at_or_zero (tl p) i.
Proof. destruct p as [|x p]; [destruct i|]; reflexivity. Qed.

Lemma compare_loop_tl p1 p2 n i :
  compare_loop p1 p2 (S i) n = compare_loop (tl p1) (tl p2) i n.
Proof.
  revert i. induction n as [|n IH]; intros i; [reflexivity|].
  cbn [compare_loop]. rewrite !at_or_zero_tl, IH. reflexivity.
Qed.

Lemma compare_loop_zeros p2 b :
  Forall2 denotes p2 b ->
  compare_loop [] p2 0 (length p2) = Spec.compare_with_zeros b.
Proof.
  induction 1 as [|y w p2 b D F IH]; [reflexivity|].
  cbn [length compare_loop Spec.compare_with_zeros at_or_zero nth_error].
  rewrite (denotes_gt _ _ _ _ denotes_zero D),
    (denotes_lt _ _ _ _ denotes_zero D).
  destruct (w <? 0); [reflexivity|]. destruct (0 <? w); [reflexivity|].
  rewrite compare_loop_tl. exact IH.
Qed.

Lemma compare_loop_components p1 a :
  Forall2 denotes p1 a ->
  forall p2 b, Forall2 denotes p2 b ->
  compare_loop p1 p2 0 (Nat.max (length p1) (length p2))
  = Spec.compare_components a b.
Proof.
  induction 1 as [|x v p1 a D F IH]; intros p2 b F2.
  - cbn [length Nat.max Spec.compare_components].
    apply compare_loop_zeros, F2.
  - assert (M : Nat.max (length (x :: p1)) (length p2)
                = S (Nat.max (length p1) (length (tl p2))))
      by (destruct p2; cbn [length tl Nat.max]; lia).
    rewrite M. cbn [compare_loop Spec.compare_components].
    assert (D2 : denotes (at_or_zero p2 0) (hd 0 b))
      by (destruct F2; [apply denotes_zero|assumption]).
    assert (F3 : Forall2 denotes (tl p2) (tl b))
      by (destruct F2; [constructor|assumption]).
    change (at_or_zero (x :: p1) 0) with x.
    rewrite (denotes_gt _ _ _ _ D D2), (denotes_lt _ _ _ _ D D2).
    destruct (hd 0 b <? v); [reflexivity|].
    destruct (v <? hd 0 b); [reflexivity|].
    rewrite compare_loop_tl. apply IH, F3.
Qed.

Lemma components_denote cs :
  forallb Spec.is_component cs = true ->
  Forall (fun x => x <= Spec.MAX_SAFE_INTEGER)
    (List.map (fun c => Z.of_N (digits_value 10 c)) cs) ->
  Forall2 denotes (List.map Number cs)
    (List.map (fun c => Z.of_N (digits_value 10 c)) cs).
Proof.
  induction cs as [|c cs IH]; [constructor|].
  cbn [forallb List.map]. rewrite andb_true_iff. intros [C Cs] B.
  inversion B as [|? ? Bc Bcs]; subst. constructor; [|apply IH; assumption].
  rewrite (Number_digits c C). split; [apply of_decimal_ordinary|].
  apply of_decimal_exact. unfold Spec.MAX_SAFE_INTEGER in Bc. lia.
Qed.

End Values.

(** C1, as stated, fails above [2 ^ 53]: 9007199254740993 is rounded
    to the number 9007199254740992, so the two versions compare equal
    although the component of the first exceeds that of the second. *)
Lemma compareVersions_rounds_large_components :
  Spec.is_version_string (JsString.str "9007199254740993") = true
  /\ Spec.is_version_string (JsString.str "9007199254740992") = true
  /\ Version.compareVersions (JsString.str "9007199254740993")
       (JsString.str "9007199254740992") = 0
  /\ Spec.compare_components
       (Spec.components (JsString.str "9007199254740993"))
       (Spec.components (JsString.str "9007199254740992")) = 1.
Proof. vm_compute. repeat split; reflexivity. Qed.

(** C1, amended. For version strings whose components are sequences
    of digits denoting integers up to [2 ^ 53 - 1], [compareVersions]
    is the comparison of the specification: component by component, a
    missing component counting as 0, 1 at the first component where the
    first version is larger, -1 where it is smaller, 0 when none is. *)
Theorem compareVersions_compares_components (a b : JsString.jsstring) :
  Spec.is_version_string a = true -> Spec.is_version_string b = true ->
  Spec.safe a = true -> Spec.safe b = true ->
  Version.compareVersions a b
  = Spec.compare_components (Spec.components a) (Spec.components b).
Proof.
  intros Va Vb Sa Sb. unfold Version.compareVersions.
  apply compare_loop_components; apply components_denote;
    try assumption; apply Forall_forall; intros x I; apply Z.leb_le.
  - unfold Spec.safe in Sa. rewrite forallb_forall in Sa. apply Sa, I.
  - unfold Spec.safe in Sb. rewrite forallb_forall in Sb. apply Sb, I.
Qed.

(** The examples of the specification. *)
Lemma compareVersions_compares_components_witness :
  Version.compareVersions (JsString.str "1.2.0") (JsString.str "1.2") = 0
  /\ Version.compareVersions (JsString.str "1.10.0") (JsString.str "1.9.9") = 1
  /\ Version.compareVersions (JsString.str "1.2") (JsString.str "1.2.1") = -1
  /\ Version.compareVersions (JsString.str "0.0.0") (JsString.str "0") = 0.
Proof.
  split; [|split; [|split]].
  - rewrite (compareVersions_compares_components
               (JsString.str "1.2.0") (JsString.str "1.2")
               eq_refl eq_refl eq_refl eq_refl). reflexivity.
  - rewrite (compareVersions_compares_components
               (JsString.str "1.10.0") (JsString.str "1.9.9")
               eq_refl eq_refl eq_refl eq_refl). reflexivity.
  - rewrite (compareVersions_compares_components
               (JsString.str "1.2") (JsString.str "1.2.1")
               eq_refl eq_refl eq_refl eq_refl). reflexivity.
  - rewrite (compareVersions_compares_components
               (JsString.str "0.0.0") (JsString.str "0")
               eq_refl eq_refl eq_refl eq_refl). reflexivity.
Defined.

(* ================================================================== *)
(** * Running the asynchronous operations *)
(* ================================================================== *)

Section Runs.
Import JsNumber JsString Platform Async JsArray UpdateService Run.
Variable P : Platform.

Lemma after_refl s : after s none [] s.
Proof. split; [symmetry; apply app_nil_r | reflexivity]. Qed.

Lemma after_trans s1 s2 s3 m1 m2 e1 e2 :
  after s1 m1 e1 s2 -> after s2 m2 e2 s3 ->
  after s1 (fun c => (m2 c + m1 c)%nat) (e1 ++ e2) s3.
Proof.
  intros [T1 C1] [T2 C2]. split.
  - rewrite T2, T1, app_assoc. reflexivity.
  - intros c. rewrite C2, C1. lia.
Qed.

Lemma after_ext s m m' evs s' :
  (forall c, m c = m' c) -> after s m evs s' -> after s m' evs s'.
Proof.
  intros E [T C]. split; [exact T|]. intros c. rewrite C, E. reflexivity.
Qed.

Lemma after_emit s ev : after s none [ev] (emit ev s).
Proof. split; reflexivity. Qed.

Lemma after_call s c ev : after s (one c) [ev] (count c (emit ev s)).
Proof.
  split; [reflexivity|]. intros c'. unfold one. simpl.
  destruct (Capability_eqb c c'); reflexivity.
Qed.

(** ** checkVersion *)

Lemma settle_run {A} (r : JsError + A) s :
  settle r s = (as_outcome r, s).
Proof. destruct r; reflexivity. Qed.

(** One [try] block: one fetch, no wait, no toast. *)
Lemma checkVersion_try_run s :
  exists evs s',
    checkVersion_try P s =
      (as_outcome (read_fetch P (fetch P (calls s CFetch) (GITHUB_RAW_URL P))), s')
    /\ after s (one CFetch) evs s'
    /\ sleeps evs = [] /\ toasts evs = []
    /\ fetched evs = [GITHUB_RAW_URL P].
Proof.
  unfold checkVersion_try, bind, tell, call_fetch. simpl.
  destruct (fetch P (calls s CFetch) (GITHUB_RAW_URL P)) as [e|r]; simpl.
  - eexists; eexists. split; [reflexivity|]. split.
    + eapply after_ext; [|eapply after_trans; [apply after_emit|];
                          apply after_call].
      intros []; reflexivity.
    + repeat split; reflexivity.
  - rewrite settle_run. eexists; eexists. split; [reflexivity|]. split.
    + eapply after_ext; [|eapply after_trans; [apply after_emit|];
                          eapply after_trans; [apply after_call|];
                          apply after_emit].
      intros []; reflexivity.
    + repeat split; reflexivity.
Qed.

Lemma events_of_after {A} (c : Async A) s m evs :
  after s m evs (snd (c s)) -> events_of c s = evs.
Proof.
  intros [T _]. unfold events_of. rewrite T, skipn_app, skipn_all, Nat.sub_diag.
  reflexivity.
Qed.

(** One iteration of the loop of [checkVersion]: a success returns, a
    failure of the last attempt shows the toast and throws, any other
    failure waits [2000 * attempt] and goes to the next attempt. *)
Lemma checkVersion_loop_step attempt r s :
  exists evs s',
    after s (one CFetch) evs s'
    /\ fetched evs = [GITHUB_RAW_URL P]
    /\ match read_fetch P (fetch P (calls s CFetch) (GITHUB_RAW_URL P)) with
       | inr v =>
           checkVersion_loop P attempt (S r) s = (Return v, s')
           /\ sleeps evs = [] /\ toasts evs = []
       | inl e =>
           if Nat.eqb attempt maxRetries then
             checkVersion_loop P attempt (S r) s = (Throw e, s')
             /\ sleeps evs = [] /\ toasts evs = ["检查更新失败"%string]
           else
             checkVersion_loop P attempt (S r) s
             = checkVersion_loop P (S attempt) r s'
             /\ sleeps evs = [2000 * Z.of_nat attempt] /\ toasts evs = []
       end.
Proof.
  destruct (checkVersion_try_run s) as (evs & s1 & E & A & Sl & To & Fe).
  cbn [checkVersion_loop]. unfold bind, try_catch. rewrite E.
  destruct (read_fetch P (fetch P (calls s CFetch) (GITHUB_RAW_URL P)))
    as [e|v]; cbn [as_outcome].
  - unfold tell, sleep, tell.
    destruct (Nat.eqb attempt maxRetries).
    + exists (evs ++ [EvWarn (attempt_label "checkVersion" attempt) (Some e)]
                ++ [EvToast "error" "检查更新失败" "无法获取版本信息，请检查网络"]).
      eexists. split; [|split; [|split; [reflexivity|]]].
      * eapply after_ext; [|eapply after_trans; [exact A|];
                            eapply after_trans; apply after_emit].
        intros []; reflexivity.
      * unfold fetched in *. rewrite flat_map_app, Fe. reflexivity.
      * unfold sleeps, toasts in *. rewrite !flat_map_app, Sl, To.
        split; reflexivity.
    + exists (evs ++ [EvWarn (attempt_label "checkVersion" attempt) (Some e)]
                ++ [EvSleep (2000 * Z.of_nat attempt)]).
      eexists. split; [|split; [|split; [reflexivity|]]].
      * eapply after_ext; [|eapply after_trans; [exact A|];
                            eapply after_trans; apply after_emit].
        intros []; reflexivity.
      * unfold fetched in *. rewrite flat_map_app, Fe. reflexivity.
      * unfold sleeps, toasts in *. rewrite !flat_map_app, Sl, To.
        split; reflexivity.
  - exists evs, s1. split; [exact A|]. split; [exact Fe|].
    split; [reflexivity|]. split; assumption.
Qed.

(** The whole of [checkVersion], by the answers to its fetches. *)
Lemma checkVersion_run s :
  let url := GITHUB_RAW_URL P in
  let attempt n := read_fetch P (fetch P (n + calls s CFetch) url) in
  let out := fst (checkVersion P s) in
  let evs := events_of (checkVersion P) s in
  match attempt 0%nat with
  | inr v =>
      out = Return v /\ sleeps evs = [] /\ toasts evs = []
      /\ fetched evs = [url]
  | inl _ =>
      match attempt 1%nat with
      | inr v =>
          out = Return v /\ sleeps evs = [2000] /\ toasts evs = []
          /\ fetched evs = [url; url]
      | inl _ =>
          match attempt 2%nat with
          | inr v =>
              out = Return v /\ sleeps evs = [2000; 4000]
              /\ toasts evs = [] /\ fetched evs = [url; url; url]
          | inl e =>
              out = Throw e /\ sleeps evs = [2000; 4000]
              /\ toasts evs = ["检查更新失败"%string]
              /\ fetched evs = [url; url; url]
          end
      end
  end.
Proof.
  cbv zeta. unfold checkVersion, maxRetries.
  destruct (checkVersion_loop_step 1 2 s) as (ev1 & s1 & A1 & F1 & H1).
  cbn [Nat.add].
  destruct (read_fetch P (fetch P (calls s CFetch) (GITHUB_RAW_URL P)))
    as [e1|v1].
  2:{ destruct H1 as (E & Sl & To).
      assert (EV : events_of (checkVersion_loop P 1 3) s = ev1)
        by (eapply events_of_after; rewrite E; exact A1).
      rewrite EV, E. repeat split; assumption. }
  cbn [Nat.eqb maxRetries] in H1. destruct H1 as (E1 & Sl1 & To1).
  destruct (checkVersion_loop_step 2 1 s1) as (ev2 & s2 & A2 & F2 & H2).
  assert (C1 : calls s1 CFetch = S (calls s CFetch)) by (apply A1).
  rewrite C1 in H2.
  destruct (read_fetch P (fetch P (S (calls s CFetch)) (GITHUB_RAW_URL P)))
    as [e2|v2].
  2:{ destruct H2 as (E & Sl & To).
      pose proof (after_trans _ _ _ _ _ _ _ A1 A2) as A.
      assert (EV : events_of (checkVersion_loop P 1 3) s = ev1 ++ ev2)
        by (eapply events_of_after; rewrite E1, E; exact A).
      rewrite EV, E1, E. unfold sleeps, toasts, fetched in *.
      rewrite !flat_map_app, Sl1, Sl, To1, To, F1, F2.
      repeat split; reflexivity. }
  cbn [Nat.eqb maxRetries] in H2. destruct H2 as (E2 & Sl2 & To2).
  destruct (checkVersion_loop_step 3 0 s2) as (ev3 & s3 & A3 & F3 & H3).
  assert (C2 : calls s2 CFetch = S (S (calls s CFetch)))
    by (destruct A2 as [_ C]; rewrite C, C1; reflexivity).
  rewrite C2 in H3.
  pose proof (after_trans _ _ _ _ _ _ _ (after_trans _ _ _ _ _ _ _ A1 A2) A3)
    as A.
  destruct (read_fetch P (fetch P (S (S (calls s CFetch))) (GITHUB_RAW_URL P)))
    as [e3|v3]; cbn [Nat.eqb maxRetries] in H3;
    destruct H3 as (E3 & Sl3 & To3);
    assert (EV : events_of (checkVersion_loop P 1 3) s = (ev1 ++ ev2) ++ ev3)
      by (eapply events_of_after; rewrite E1, E2, E3; exact A);
    rewrite EV, E1, E2, E3; unfold sleeps, toasts, fetched in *;
    rewrite !flat_map_app, Sl1, Sl2, Sl3, To1, To2, To3, F1, F2, F3;
    repeat split; reflexivity.
Qed.

End Runs.



(* ================================================================== *)
(** * No validation of the manifest *)
(* ================================================================== *)

(** C10, as stated, fails on the manifest [null]: the response is ok
    and its body parses as JSON, yet reading [version] of [null] throws
    a TypeError, so every attempt fails and [checkVersion] throws after
    its two waits. *)
Lemma checkVersion_null_manifest_fails :
  let r := Scenario.ok_response Platform.JNull in
  let run := UpdateService.checkVersion Scenario.null_manifest in
  Platform.ok r = true
  /\ Platform.json r = inr Platform.JNull
  /\ (exists message,
        UpdateService.read_response Scenario.null_manifest r
        = inl (Platform.TypeError message))
  /\ (exists message,
        fst (run Platform.initial) = Async.Throw (Platform.TypeError message))
  /\ Platform.sleeps (Run.events_of run Platform.initial) = [2000; 4000].
Proof.
  cbv zeta. split; [reflexivity|]. split; [reflexivity|].
  split; [eexists; reflexivity|]. split; [eexists; reflexivity|].
  vm_compute. reflexivity.
Qed.

(** C10, amended. Whichever of the three attempts it is that, after
    failures of the earlier ones, is answered by a response with ok
    status whose body parses as JSON to a value other than [null]: the
    attempt succeeds whatever the [version] field is, missing or not a
    string, and [checkVersion] returns there, with that value (possibly
    [undefined]) as [version] and the URL builder applied to it as
    [downloadUrl]. *)
Theorem checkVersion_does_not_validate
    (P : Platform.Platform) (s : Platform.State) (n : nat)
    (response : Platform.Response) (manifest : Platform.Json) :
  let answer m :=
    Platform.fetch P (m + Platform.calls s Platform.CFetch)
      (Platform.GITHUB_RAW_URL P) in
  let info :=
    {| Platform.version := Spec.version_field manifest;
       Platform.downloadUrl :=
         Platform.getDownloadUrl P (Spec.version_field manifest) |} in
  let evs := Run.events_of (UpdateService.checkVersion P) s in
  (n < 3)%nat ->
  (forall m, (m < n)%nat ->
     exists e, UpdateService.read_fetch P (answer m) = inl e) ->
  answer n = inr response ->
  Platform.ok response = true ->
  Platform.json response = inr manifest ->
  manifest <> Platform.JNull ->
  UpdateService.read_response P response = inr info
  /\ fst (UpdateService.checkVersion P s) = Async.Return info
  /\ Platform.sleeps evs = firstn n [2000; 4000]
  /\ length (Platform.fetched evs) = S n.
Proof.
  cbv zeta. intros N Early F O J NN.
  assert (RR : UpdateService.read_response P response
               = inr {| Platform.version := Spec.version_field manifest;
                        Platform.downloadUrl :=
                          Platform.getDownloadUrl P
                            (Spec.version_field manifest) |}).
  { unfold UpdateService.read_response. rewrite O, J. cbn [negb].
    destruct manifest; try contradiction; reflexivity. }
  split; [exact RR|].
  assert (RF : UpdateService.read_fetch P
                 (Platform.fetch P (n + Platform.calls s Platform.CFetch)
                    (Platform.GITHUB_RAW_URL P))
               = inr {| Platform.version := Spec.version_field manifest;
                        Platform.downloadUrl :=
                          Platform.getDownloadUrl P
                            (Spec.version_field manifest) |})
    by (rewrite F; exact RR).
  pose proof (checkVersion_run P s) as H. cbv zeta in H.
  destruct n as [|[|[|n]]]; [| | |lia]; cbn [Nat.add] in H, RF.
  - rewrite RF in H. destruct H as (R & Sl & _ & Fe).
    rewrite R, Sl, Fe. repeat split; reflexivity.
  - destruct (Early 0%nat) as (e0 & E0); [lia|]. cbn [Nat.add] in E0.
    rewrite E0, RF in H. destruct H as (R & Sl & _ & Fe).
    rewrite R, Sl, Fe. repeat split; reflexivity.
  - destruct (Early 0%nat) as (e0 & E0); [lia|].
    destruct (Early 1%nat) as (e1 & E1); [lia|]. cbn [Nat.add] in E0, E1.
    rewrite E0, E1, RF in H. destruct H as (R & Sl & _ & Fe).
    rewrite R, Sl, Fe. repeat split; reflexivity.
Qed.

(** The third fetch is the first to give a manifest, [{}], which has no
    [version]: the check returns [undefined] after its two waits. *)
Lemma checkVersion_does_not_validate_witness :
  fst (UpdateService.checkVersion Scenario.late_manifest Platform.initial)
  = Async.Return
      {| Platform.version := Platform.Undefined;
         Platform.downloadUrl :=
           JsString.str "https://dl.example/vundefined.apk" |}
  /\ Platform.sleeps
       (Run.events_of (UpdateService.checkVersion Scenario.late_manifest)
          Platform.initial) = [2000; 4000].
Proof.
  destruct (checkVersion_does_not_validate Scenario.late_manifest
              Platform.initial 2
              (Scenario.ok_response (Platform.JObject []))
              (Platform.JObject [])) as (_ & R & Sl & _).
  - lia.
  - intros [|[|m]] M; [eexists; reflexivity|eexists; reflexivity|lia].
  - reflexivity.
  - reflexivity.
  - reflexivity.
  - discriminate.
  - split; [exact R|exact Sl].
Defined.

(* ================================================================== *)
(** * Installing *)
(* ================================================================== *)

(** C8. When the file store reports no file at the URI, [installApk]
    throws the not-found error and never calls the installer launcher. *)
Theorem installApk_missing_file_not_launched
    (P : Platform.Platform) (s : Platform.State) (fileUri : JsString.jsstring) :
  Platform.getInfoAsync P (Platform.calls s Platform.CGetInfo) fileUri
  = inr false ->
  fst (UpdateService.installApk P fileUri s)
  = Async.Throw
      (Platform.Error (JsString.str "APK not found at " ++ fileUri))
  /\ Platform.launched (Run.events_of (UpdateService.installApk P fileUri) s)
     = []
  /\ Platform.calls (snd (UpdateService.installApk P fileUri s))
       Platform.CStartActivity
     = Platform.calls s Platform.CStartActivity.
Proof.
  intros H. unfold Run.events_of, UpdateService.installApk, Async.bind,
    UpdateService.call_getInfoAsync.
  rewrite H. cbn. rewrite skipn_app, skipn_all, Nat.sub_diag.
  repeat split; reflexivity.
Qed.

Lemma installApk_missing_file_not_launched_witness :
  fst (UpdateService.installApk Scenario.offline Scenario.apk_uri
         Platform.initial)
  = Async.Throw
      (Platform.Error
         (JsString.str "APK not found at " ++ Scenario.apk_uri))
  /\ Platform.launched
       (Run.events_of
          (UpdateService.installApk Scenario.offline Scenario.apk_uri)
          Platform.initial) = [].
Proof.
  destruct (installApk_missing_file_not_launched Scenario.offline
              Platform.initial Scenario.apk_uri eq_refl) as (O & L & _).
  split; [exact O | exact L].
Defined.

(* ================================================================== *)
(** * Cleaning up *)
(* ================================================================== *)

Section CleanupRuns.
Import JsNumber JsString Platform Async JsArray UpdateService Run.
Variable P : Platform.

(** The loop over the stale files asks for the deletion of every one
    of them, whatever the file store answers, and returns. *)
Lemma delete_stale_run dirUri stale s :
  exists evs s',
    delete_stale P dirUri stale s = (Return tt, s')
    /\ after s (deletions_only (length stale)) evs s'
    /\ deleted evs = List.map (app dirUri) stale
    /\ sleeps evs = [] /\ toasts evs = [] /\ downloaded evs = []
    /\ launched evs = [] /\ progress_calls evs = [].
Proof.
  revert s. induction stale as [|file rest IH]; intros s.
  - exists [], s. split; [reflexivity|]. split.
    + eapply after_ext; [|apply after_refl]. intros []; reflexivity.
    + repeat split; reflexivity.
  - cbn [delete_stale]. unfold bind at 1. unfold try_catch, bind at 1.
    unfold call_deleteAsync, tell.
    destruct (deleteAsync P (calls s CDelete) (dirUri ++ file)) as [e|];
      cbn [throw ret].
    + destruct (IH (emit (EvWarn (str "Failed to delete " ++ file) (Some e))
                      (count CDelete (emit (EvDelete (dirUri ++ file) true) s))))
        as (evs & s' & E & A & D & Sl & To & Dl & La & Pr).
      exists ([EvDelete (dirUri ++ file) true]
                ++ [EvWarn (str "Failed to delete " ++ file) (Some e)] ++ evs), s'.
      split; [exact E|]. split.
      * eapply after_ext;
          [|eapply after_trans; [apply after_call|];
            eapply after_trans; [apply after_emit|exact A]].
        intros []; unfold deletions_only, one, none; cbn; lia.
      * unfold deleted, sleeps, toasts, downloaded, launched,
          progress_calls in *.
        cbn [flat_map app length List.map].
        rewrite D, Sl, To, Dl, La, Pr. repeat split; reflexivity.
    + destruct (IH (emit (EvDebug (str "Deleted old APK: " ++ file))
                      (count CDelete (emit (EvDelete (dirUri ++ file) true) s))))
        as (evs & s' & E & A & D & Sl & To & Dl & La & Pr).
      exists ([EvDelete (dirUri ++ file) true]
                ++ [EvDebug (str "Deleted old APK: " ++ file)] ++ evs), s'.
      split; [exact E|]. split.
      * eapply after_ext;
          [|eapply after_trans; [apply after_call|];
            eapply after_trans; [apply after_emit|exact A]].
        intros []; unfold deletions_only, one, none; cbn; lia.
      * unfold deleted, sleeps, toasts, downloaded, launched,
          progress_calls in *.
        cbn [flat_map app length List.map].
        rewrite D, Sl, To, Dl, La, Pr. repeat split; reflexivity.
Qed.

(** The whole of [cleanOldApkFiles]: it returns, and deletes what
    [Spec.stale_files] selects when the directory could be listed. *)
Lemma cleanOldApkFiles_run s :
  exists evs s',
    cleanOldApkFiles P s = (Return tt, s')
    /\ trace s' = trace s ++ evs
    /\ (forall c, c <> CDelete -> c <> CReadDirectory ->
        calls s' c = calls s c)
    /\ sleeps evs = [] /\ toasts evs = [] /\ downloaded evs = []
    /\ launched evs = [] /\ progress_calls evs = []
    /\ deleted evs =
       match available (documentDirectory P) with
       | None => []
       | Some dirUri =>
           match readDirectoryAsync P (calls s CReadDirectory) dirUri with
           | inl _ => []
           | inr listing => List.map (app dirUri) (Spec.stale_files listing)
           end
       end.
Proof.
  unfold cleanOldApkFiles, try_catch.
  destruct (available (documentDirectory P)) as [dirUri|].
  - unfold bind, call_readDirectoryAsync.
    destruct (readDirectoryAsync P (calls s CReadDirectory) dirUri)
      as [e|listing]; cbn [settle throw ret].
    + eexists; eexists. split; [reflexivity|]. split.
      * cbn. rewrite <- app_assoc. reflexivity.
      * split; [intros []; intros; cbn; congruence|].
        repeat split; reflexivity.
    + unfold Spec.stale_files.
      destruct (length (filter is_apk_name listing) <=? 2)%nat.
      * eexists; eexists. split; [reflexivity|]. split; [reflexivity|].
        split; [intros []; intros; cbn; congruence|].
        repeat split; reflexivity.
      * destruct (delete_stale_run dirUri
                    (slice 2 (sort newest_first (filter is_apk_name listing)))
                    (count CReadDirectory (emit (EvReadDirectory dirUri) s)))
          as (evs & s' & E & (T & C) & D & Sl & To & Dl & La & Pr).
        rewrite E. exists ([EvReadDirectory dirUri] ++ evs), s'.
        split; [reflexivity|]. split.
        -- rewrite T. cbn. rewrite <- app_assoc. reflexivity.
        -- split.
           ++ intros c N1 N2. rewrite C.
              destruct c; cbn; congruence.
           ++ unfold deleted, sleeps, toasts, downloaded, launched,
                progress_calls in *.
              cbn [flat_map app]. rewrite D, Sl, To, Dl, La, Pr.
              repeat split; reflexivity.
  - eexists; eexists. split; [reflexivity|]. split; [reflexivity|].
    split; [reflexivity|]. repeat split; reflexivity.
Qed.

End CleanupRuns.

(** The sort of the clean-up rearranges the names, no more. *)
Lemma cleanup_sort_perm (names : list JsString.jsstring) :
  Permutation (JsArray.sort UpdateService.newest_first names) names.
Proof.
  induction names as [|x l IH]; cbn [JsArray.sort]; [constructor|].
  assert (I : forall y m,
             Permutation (JsArray.insert UpdateService.newest_first y m)
               (y :: m)).
  { intros y m. induction m as [|z m IHm]; cbn [JsArray.insert];
      [reflexivity|].
    destruct (JsArray.sorts_after _ _ _); [|reflexivity].
    rewrite IHm. apply perm_swap. }
  rewrite I. constructor. exact IH.
Qed.

(** C5. [cleanOldApkFiles] returns normally whatever the file store
    does: with no directory, or a listing that fails, it deletes
    nothing; and when the listing succeeds no rejected deletion stops
    the later ones: whatever the deletions answer, it asks for the
    deletion of every matching name but 2, each once, and of nothing
    else. Which 2 are left is said where every matching name has a
    digit, so that the comparator of the sort is consistent. *)
Theorem cleanOldApkFiles_never_throws
    (P : Platform.Platform) (s : Platform.State) :
  let evs := Run.events_of (UpdateService.cleanOldApkFiles P) s in
  let dir := UpdateService.available (Platform.documentDirectory P) in
  let listing dirUri :=
    Platform.readDirectoryAsync P
      (Platform.calls s Platform.CReadDirectory) dirUri in
  fst (UpdateService.cleanOldApkFiles P s) = Async.Return tt
  /\ (dir = None -> Platform.deleted evs = [])
  /\ (forall dirUri e, dir = Some dirUri -> listing dirUri = inl e ->
      Platform.deleted evs = [])
  /\ (forall dirUri names, dir = Some dirUri -> listing dirUri = inr names ->
      let matches := filter UpdateService.is_apk_name names in
      ((length matches <= 2)%nat -> Platform.deleted evs = [])
      /\ (exists kept stale,
            Platform.deleted evs = List.map (app dirUri) stale
            /\ Permutation matches (kept ++ stale)
            /\ length kept = Nat.min 2 (length matches))
      /\ (Spec.timestamped names = true ->
          Platform.deleted evs
          = List.map (app dirUri) (Spec.stale_files names))).
Proof.
  cbv zeta.
  destruct (cleanOldApkFiles_run P s)
    as (evs & s' & E & T & _ & _ & _ & _ & _ & _ & D).
  assert (EV : Run.events_of (UpdateService.cleanOldApkFiles P) s = evs).
  { unfold Run.events_of. rewrite E. cbn [snd].
    rewrite T, skipn_app, skipn_all, Nat.sub_diag. reflexivity. }
  rewrite EV, E. split; [reflexivity|].
  split; [intros H; rewrite H in D; exact D|]. split.
  - intros dirUri e H L. rewrite H, L in D. exact D.
  - intros dirUri names H L. rewrite H, L in D. rewrite D.
    split; [|split; [|reflexivity]].
    + intros Le. unfold Spec.stale_files.
      apply Nat.leb_le in Le. rewrite Le. reflexivity.
    + exists (Spec.kept_files names), (Spec.stale_files names).
      split; [reflexivity|]. unfold Spec.kept_files, Spec.stale_files.
      destruct (Nat.leb_spec
                  (length (filter UpdateService.is_apk_name names)) 2)
        as [Le|Lt].
      * rewrite app_nil_r. split; [reflexivity|].
        symmetry. apply Nat.min_r. exact Le.
      * unfold JsArray.slice. rewrite firstn_skipn. split.
        -- symmetry. apply cleanup_sort_perm.
        -- rewrite length_firstn, (Permutation_length (cleanup_sort_perm _)).
           reflexivity.
Qed.

(** Five artifacts and a file store that refuses every deletion: the
    three oldest are still all asked for, and the operation returns. *)
Lemma cleanOldApkFiles_never_throws_witness :
  fst (UpdateService.cleanOldApkFiles Scenario.read_only Platform.initial)
  = Async.Return tt
  /\ Platform.deleted
       (Run.events_of (UpdateService.cleanOldApkFiles Scenario.read_only)
          Platform.initial)
     = [JsString.str "file:///data/OrionTV_v1700000000300.apk";
        JsString.str "file:///data/OrionTV_v1700000000200.apk";
        JsString.str "file:///data/OrionTV_v1700000000100.apk"].
Proof.
  destruct (cleanOldApkFiles_never_throws Scenario.read_only Platform.initial)
    as (R & _ & _ & D).
  split; [exact R|].
  destruct (D (JsString.str "file:///data/") Scenario.five_files
              eq_refl eq_refl) as (_ & _ & Ts).
  exact (Ts eq_refl).
Defined.

(* ================================================================== *)
(** * Which files the clean-up deletes *)
(* ================================================================== *)

Section SortFacts.
Import JsNumber JsArray.
Context {A : Type}.
Variable comparefn : A -> A -> number.
Variable rank : A -> Z.
Variable good : A -> Prop.
Hypothesis after_rank :
  forall x y, good x -> good y ->
  sorts_after comparefn x y = (rank x <? rank y).

Lemma insert_perm x l : Permutation (insert comparefn x l) (x :: l).
Proof.
  induction l as [|y l IH]; [reflexivity|]. cbn [insert].
  destruct (sorts_after comparefn x y); [|reflexivity].
  rewrite IH. apply perm_swap.
Qed.

Lemma sort_perm l : Permutation (sort comparefn l) l.
Proof.
  induction l as [|x l IH]; [reflexivity|]. cbn [sort].
  rewrite insert_perm. constructor. exact IH.
Qed.

Lemma insert_sorted x l :
  good x -> Forall good l ->
  StronglySorted (descending rank) l ->
  StronglySorted (descending rank) (insert comparefn x l).
Proof.
  intros Gx Gl S. induction S as [|y l S IH F]; cbn [insert].
  - repeat constructor.
  - inversion Gl as [|? ? Gy Gl']; subst.
    rewrite (after_rank x y Gx Gy).
    destruct (Z.ltb_spec (rank x) (rank y)) as [L|L].
    + constructor; [apply IH, Gl'|].
      eapply Permutation_Forall; [symmetry; apply insert_perm|].
      constructor; [unfold descending; lia|exact F].
    + constructor; [constructor; assumption|].
      constructor; [exact L|].
      eapply Forall_impl; [|exact F].
      unfold descending. intros z Hz. lia.
Qed.

Lemma sort_sorted l :
  Forall good l -> StronglySorted (descending rank) (sort comparefn l).
Proof.
  induction l as [|x l IH]; intros G; [constructor|].
  inversion G as [|? ? Gx Gl]; subst. cbn [sort].
  apply insert_sorted; [exact Gx| |apply IH, Gl].
  eapply Permutation_Forall; [symmetry; apply sort_perm|exact Gl].
Qed.

Lemma sorted_front_newest n l :
  StronglySorted (descending rank) l ->
  forall k d, In k (firstn n l) -> In d (skipn n l) -> rank d <= rank k.
Proof.
  intros S. revert n. induction S as [|x l S IH F]; intros n k d.
  - rewrite firstn_nil. contradiction.
  - destruct n as [|n]; [contradiction|]. cbn [firstn skipn].
    intros [->|K] D.
    + rewrite Forall_forall in F. apply F.
      rewrite <- (firstn_skipn n l). apply in_or_app. right. exact D.
    + apply (IH n); assumption.
Qed.

Lemma sorted_perm_unique l l' :
  (forall x y, In x l -> In y l -> rank x = rank y -> x = y) ->
  StronglySorted (descending rank) l ->
  StronglySorted (descending rank) l' ->
  Permutation l l' -> l = l'.
Proof.
  intros Inj S. revert l'. induction S as [|x l S IH F]; intros l' S' Pm.
  - apply Permutation_nil in Pm. subst. reflexivity.
  - destruct S' as [|y l' S' F'].
    + apply Permutation_sym, Permutation_nil in Pm. discriminate.
    + assert (Ix : In x (y :: l'))
        by (apply (Permutation_in _ Pm); left; reflexivity).
      assert (Iy : In y (x :: l))
        by (apply (Permutation_in _ (Permutation_sym Pm)); left; reflexivity).
      assert (E : x = y).
      { apply Inj; [left; reflexivity|exact Iy|].
        rewrite Forall_forall in F, F'. unfold descending in *.
        destruct Ix as [->|Ix]; [reflexivity|].
        destruct Iy as [->|Iy]; [reflexivity|].
        pose proof (F y Iy). pose proof (F' x Ix). lia. }
      subst y. f_equal. apply IH; [|exact S'|].
      * intros a b Ia Ib. apply Inj; right; assumption.
      * eapply Permutation_cons_inv. exact Pm.
Qed.

End SortFacts.

Section CleanupOrder.
Import JsNumber JsString JsArray Platform UpdateService.

Lemma strip_digits name : forallb is_digit (strip_non_digits name) = true.
Proof.
  apply forallb_forall. intros c I. apply filter_In in I. apply I.
Qed.

Lemma strip_not_empty name :
  existsb is_digit name = true -> strip_non_digits name <> [].
Proof.
  rewrite existsb_exists. intros (c & I & D) E.
  assert (X : In c (strip_non_digits name)) by (apply filter_In; auto).
  rewrite E in X. exact X.
Qed.

Lemma file_number_ordinary name :
  existsb is_digit name = true -> ordinary (file_number name) = true.
Proof.
  intros H. unfold file_number.
  rewrite (parseInt10_digits _ (strip_digits name) (strip_not_empty name H)).
  apply of_decimal_ordinary.
Qed.

Lemma newest_first_rank x y :
  ordinary (file_number x) = true -> ordinary (file_number y) = true ->
  sorts_after newest_first x y
  = (scaled (file_number x) <? scaled (file_number y)).
Proof.
  intros Ox Oy. unfold sorts_after, newest_first, gt, sub.
  apply SFsub_sign; assumption.
Qed.

Lemma SFeqb_ordinary x y :
  ordinary x = true -> ordinary y = true ->
  SFeqb x y = (scaled x =? scaled y).
Proof.
  intros Ox Oy. unfold SFeqb. rewrite (SFcompare_ordinary x y Ox Oy).
  symmetry. apply Z.eqb_compare.
Qed.

Lemma filter_perm {A} (f : A -> bool) l l' :
  Permutation l l' -> Permutation (filter f l) (filter f l').
Proof.
  induction 1 as [|x l l' Pm IH|x y l|l l' l'' P1 IH1 P2 IH2]; cbn [filter].
  - constructor.
  - destruct (f x); [constructor|]; exact IH.
  - destruct (f x), (f y); try reflexivity. apply perm_swap.
  - transitivity (filter f l'); assumption.
Qed.

Lemma matches_ordinary listing :
  Spec.timestamped listing = true ->
  Forall (fun name => ordinary (file_number name) = true)
    (filter is_apk_name listing).
Proof.
  unfold Spec.timestamped. rewrite forallb_forall, Forall_forall.
  intros H name I. apply filter_In in I. destruct I as [I M].
  specialize (H name I). rewrite M in H. apply file_number_ordinary, H.
Qed.

End CleanupOrder.

(** What [cleanOldApkFiles] deletes, by what the file store answers. *)
Lemma cleanOldApkFiles_deleted (P : Platform.Platform) (s : Platform.State) :
  Platform.deleted (Run.events_of (UpdateService.cleanOldApkFiles P) s)
  = match UpdateService.available (Platform.documentDirectory P) with
    | None => []
    | Some dirUri =>
        match Platform.readDirectoryAsync P
                (Platform.calls s Platform.CReadDirectory) dirUri with
        | inl _ => []
        | inr listing => List.map (app dirUri) (Spec.stale_files listing)
        end
    end.
Proof.
  destruct (cleanOldApkFiles_run P s)
    as (evs & s' & E & T & _ & _ & _ & _ & _ & _ & D).
  unfold Run.events_of. rewrite E. cbn [snd].
  rewrite T, skipn_app, skipn_all, Nat.sub_diag. exact D.
Qed.

(** C2, as stated, fails on names that pass the filter without a
    digit: their number is NaN, every comparison of the sort is NaN,
    the listing stays as it is, and the only file with a timestamp is
    the one deleted. *)
Lemma cleanOldApkFiles_deletes_the_timestamped_file :
  filter UpdateService.is_apk_name Scenario.untimed_files
  = Scenario.untimed_files
  /\ Platform.deleted
       (Run.events_of (UpdateService.cleanOldApkFiles Scenario.untimed)
          Platform.initial)
     = [JsString.str "file:///data/OrionTV_v1700000000500.apk"]
  /\ UpdateService.file_number (JsString.str "OrionTV_vA.apk") = JsNumber.NaN
  /\ Spec.le
       (UpdateService.file_number (JsString.str "OrionTV_v1700000000500.apk"))
       (UpdateService.file_number (JsString.str "OrionTV_vA.apk")) = false.
Proof. vm_compute. repeat split; reflexivity. Qed.

(** C2, amended. For every listing in which each name that starts
    with [OrionTV_v] and ends with [.apk] has a decimal digit: the
    clean-up deletes only such names; nothing when at most 2 of them
    exist; else all but 2 of them, and no deleted file has a larger
    number (the digits of its name read as an integer) than a kept one.
    When the numbers are distinct, the deleted files do not depend on
    the order of the listing. *)
Theorem cleanOldApkFiles_keeps_two_newest
    (P : Platform.Platform) (s : Platform.State)
    (dirUri : JsString.jsstring) (listing : list JsString.jsstring) :
  UpdateService.available (Platform.documentDirectory P) = Some dirUri ->
  Platform.readDirectoryAsync P (Platform.calls s Platform.CReadDirectory)
    dirUri = inr listing ->
  Spec.timestamped listing = true ->
  let matches := filter UpdateService.is_apk_name listing in
  let kept := Spec.kept_files listing in
  let stale := Spec.stale_files listing in
  Platform.deleted (Run.events_of (UpdateService.cleanOldApkFiles P) s)
  = List.map (app dirUri) stale
  /\ Permutation matches (kept ++ stale)
  /\ ((length matches <= 2)%nat -> stale = [])
  /\ ((2 < length matches)%nat -> length kept = 2%nat)
  /\ (forall k d, In k kept -> In d stale ->
      Spec.le (UpdateService.file_number d) (UpdateService.file_number k)
      = true)
  /\ (forall listing',
        Permutation listing listing' -> Spec.distinct_numbers matches ->
        Spec.stale_files listing' = stale
        /\ Permutation (Spec.kept_files listing') kept).
Proof.
  intros Dir Ls T. cbv zeta.
  pose proof (matches_ordinary listing T) as G.
  set (matches := filter UpdateService.is_apk_name listing) in *.
  set (rank := fun name => JsNumber.scaled (UpdateService.file_number name)).
  set (good := fun name =>
                 JsNumber.ordinary (UpdateService.file_number name) = true).
  assert (AR : forall x y, good x -> good y ->
               JsArray.sorts_after UpdateService.newest_first x y
               = (rank x <? rank y))
    by (intros x y; apply newest_first_rank).
  pose proof (sort_perm UpdateService.newest_first matches) as SP.
  pose proof (sort_sorted UpdateService.newest_first rank good AR matches G)
    as SS.
  split; [|split; [|split; [|split; [|split]]]].
  - rewrite cleanOldApkFiles_deleted, Dir, Ls. reflexivity.
  - unfold Spec.kept_files, Spec.stale_files. fold matches.
    destruct (length matches <=? 2)%nat.
    + rewrite app_nil_r. reflexivity.
    + unfold JsArray.slice. rewrite firstn_skipn. symmetry. exact SP.
  - intros L. unfold Spec.stale_files. fold matches.
    apply Nat.leb_le in L. rewrite L. reflexivity.
  - intros L. unfold Spec.kept_files. fold matches.
    destruct (Nat.leb_spec (length matches) 2) as [C|C]; [lia|].
    rewrite length_firstn, (Permutation_length SP). lia.
  - intros k d. unfold Spec.kept_files, Spec.stale_files. fold matches.
    destruct (length matches <=? 2)%nat; [contradiction|].
    intros Ik Id.
    assert (Gs : Forall good (JsArray.sort UpdateService.newest_first matches))
      by (eapply Permutation_Forall; [symmetry; exact SP|exact G]).
    rewrite Forall_forall in Gs.
    assert (Gk : good k)
      by (apply Gs; rewrite <- (firstn_skipn 2); apply in_or_app; left;
          exact Ik).
    assert (Gd : good d)
      by (apply Gs; rewrite <- (firstn_skipn 2); apply in_or_app; right;
          exact Id).
    unfold Spec.le. rewrite (SFleb_ordinary _ _ Gd Gk). apply Z.leb_le.
    apply (sorted_front_newest rank 2 _ SS k d Ik Id).
  - intros listing' Pm Dn.
    pose proof (filter_perm UpdateService.is_apk_name _ _ Pm) as Pf.
    fold matches in Pf.
    set (matches' := filter UpdateService.is_apk_name listing') in *.
    assert (G' : Forall good matches')
      by (eapply Permutation_Forall; [exact Pf|exact G]).
    pose proof (sort_perm UpdateService.newest_first matches') as SP'.
    pose proof (sort_sorted UpdateService.newest_first rank good AR matches' G')
      as SS'.
    unfold Spec.kept_files, Spec.stale_files.
    fold matches matches'. rewrite <- (Permutation_length Pf).
    destruct (length matches <=? 2)%nat.
    + split; [reflexivity|symmetry; exact Pf].
    + assert (E : JsArray.sort UpdateService.newest_first matches
                  = JsArray.sort UpdateService.newest_first matches').
      { apply (sorted_perm_unique rank); [|exact SS|exact SS'|].
        - intros x y Ix Iy R.
          assert (Ix' : In x matches)
            by (apply (Permutation_in _ SP), Ix).
          assert (Iy' : In y matches)
            by (apply (Permutation_in _ SP), Iy).
          rewrite Forall_forall in G.
          apply Dn; [exact Ix'|exact Iy'|].
          rewrite (SFeqb_ordinary _ _ (G x Ix') (G y Iy')).
          apply Z.eqb_eq, R.
        - rewrite SP, SP'. exact Pf. }
      rewrite E. split; reflexivity.
Qed.

(** Five artifacts among other files: the two newest stay. *)
Lemma cleanOldApkFiles_keeps_two_newest_witness :
  Platform.deleted
    (Run.events_of (UpdateService.cleanOldApkFiles Scenario.writable)
       Platform.initial)
  = [JsString.str "file:///data/OrionTV_v1700000000300.apk";
     JsString.str "file:///data/OrionTV_v1700000000200.apk";
     JsString.str "file:///data/OrionTV_v1700000000100.apk"]
  /\ Spec.kept_files Scenario.five_files
     = [JsString.str "OrionTV_v1700000000500.apk";
        JsString.str "OrionTV_v1700000000400.apk"].
Proof.
  destruct (cleanOldApkFiles_keeps_two_newest Scenario.writable
              Platform.initial (JsString.str "file:///data/")
              Scenario.five_files eq_refl eq_refl eq_refl) as (D & _).
  split; [exact D|reflexivity].
Defined.

(* ================================================================== *)
(** * Downloading *)
(* ================================================================== *)

Section DownloadRuns.
Import JsNumber JsString Platform Async JsArray UpdateService Run.
Variable P : Platform.

Lemma on_download_progress_run onProgress r s :
  exists evs s',
    on_download_progress onProgress r s = (Return tt, s')
    /\ after s none evs s'
    /\ progress_calls evs = Spec.forwarded onProgress r
    /\ sleeps evs = [] /\ toasts evs = [] /\ downloaded evs = [].
Proof.
  unfold on_download_progress, Spec.forwarded.
  destruct (totalBytesExpectedToWrite r) as [expected|].
  - destruct (onProgress && truthy expected).
    + eexists; eexists. split; [reflexivity|].
      split; [apply after_emit|]. repeat split; reflexivity.
    + exists [], s. split; [reflexivity|].
      split; [apply after_refl|]. repeat split; reflexivity.
  - exists [], s. split; [reflexivity|].
    split; [apply after_refl|]. repeat split; reflexivity.
Qed.

(** The reports of a transfer reach the callback one by one, in order. *)
Lemma deliver_run onProgress rs s :
  exists evs s',
    deliver onProgress rs s = (Return tt, s')
    /\ after s none evs s'
    /\ progress_calls evs = flat_map (Spec.forwarded onProgress) rs
    /\ sleeps evs = [] /\ toasts evs = [] /\ downloaded evs = [].
Proof.
  revert s. induction rs as [|r rs IH]; intros s.
  - exists [], s. split; [reflexivity|].
    split; [apply after_refl|]. repeat split; reflexivity.
  - cbn [deliver flat_map]. unfold bind.
    destruct (on_download_progress_run onProgress r s)
      as (ev1 & s1 & E1 & A1 & Pr1 & Sl1 & To1 & Dl1).
    rewrite E1.
    destruct (IH s1) as (ev2 & s2 & E2 & A2 & Pr2 & Sl2 & To2 & Dl2).
    rewrite E2. exists (ev1 ++ ev2), s2. split; [reflexivity|]. split.
    + eapply after_ext; [|eapply after_trans; [exact A1|exact A2]].
      intros []; reflexivity.
    + unfold progress_calls, sleeps, toasts, downloaded in *.
      rewrite !flat_map_app, Pr1, Pr2, Sl1, Sl2, To1, To2, Dl1, Dl2.
      repeat split; reflexivity.
Qed.

(** One [try] block: one look at the clock, one transfer. *)
Lemma downloadApk_try_run url onProgress s :
  let fileUri := file_uri P (now P (calls s CNow)) in
  let d := downloadAsync P (calls s CDownload) url fileUri in
  exists evs s',
    downloadApk_try P url onProgress s = (as_outcome (read_download d), s')
    /\ after s clock_and_transfer evs s'
    /\ downloaded evs = [(url, fileUri)]
    /\ progress_calls evs = flat_map (Spec.forwarded onProgress) (reports d)
    /\ sleeps evs = [] /\ toasts evs = [].
Proof.
  cbv zeta. unfold downloadApk_try, bind at 1. unfold call_now.
  unfold bind at 1. unfold call_downloadAsync, bind at 1.
  set (fileUri := file_uri P (now P (calls s CNow))).
  cbn [calls count emit Capability_eqb].
  set (d := downloadAsync P (calls s CDownload) url fileUri).
  unfold bind at 1.
  destruct (deliver_run onProgress (reports d)
              (count CDownload
                 (emit (EvDownload url fileUri) (count CNow (emit EvNow s)))))
    as (ev & s1 & E & A & Pr & Sl & To & Dl).
  rewrite E. unfold read_download.
  assert (A1 : after s clock_and_transfer
                 ([EvNow] ++ [EvDownload url fileUri] ++ ev) s1).
  { eapply after_ext;
      [|eapply after_trans; [apply after_call|];
        eapply after_trans; [apply after_call|exact A]].
    intros []; reflexivity. }
  destruct (settled d) as [e|result]; cbn [settle throw ret as_outcome].
  - eexists; exists s1. split; [reflexivity|]. split; [exact A1|].
    unfold downloaded, progress_calls, sleeps, toasts in *.
    cbn [flat_map app]. rewrite Pr, Sl, To, Dl. repeat split; reflexivity.
  - destruct (result_uri result) as [u|]; cbn [as_outcome].
    + unfold bind, tell, ret. eexists; eexists. split; [reflexivity|]. split.
      * eapply after_ext;
          [|eapply after_trans; [exact A1|apply after_emit]].
        intros []; reflexivity.
      * unfold downloaded, progress_calls, sleeps, toasts in *.
        rewrite !flat_map_app. cbn [flat_map app].
        rewrite Pr, Sl, To, Dl, ?app_nil_r. repeat split; reflexivity.
    + eexists; exists s1. split; [reflexivity|]. split; [exact A1|].
      unfold downloaded, progress_calls, sleeps, toasts in *.
      cbn [flat_map app]. rewrite Pr, Sl, To, Dl. repeat split; reflexivity.
Qed.

(** One iteration of the loop of [downloadApk]. *)
Lemma downloadApk_loop_step url onProgress attempt r s :
  let fileUri := file_uri P (now P (calls s CNow)) in
  let d := downloadAsync P (calls s CDownload) url fileUri in
  exists evs s',
    after s clock_and_transfer evs s'
    /\ downloaded evs = [(url, fileUri)]
    /\ progress_calls evs = flat_map (Spec.forwarded onProgress) (reports d)
    /\ match read_download d with
       | inr u =>
           downloadApk_loop P url onProgress attempt (S r) s = (Return u, s')
           /\ sleeps evs = [] /\ toasts evs = []
       | inl e =>
           if Nat.eqb attempt maxRetries then
             downloadApk_loop P url onProgress attempt (S r) s = (Throw e, s')
             /\ sleeps evs = [] /\ toasts evs = ["下载失败"%string]
           else
             downloadApk_loop P url onProgress attempt (S r) s
             = downloadApk_loop P url onProgress (S attempt) r s'
             /\ sleeps evs = [3000 * Z.of_nat attempt] /\ toasts evs = []
       end.
Proof.
  cbv zeta.
  destruct (downloadApk_try_run url onProgress s)
    as (evs & s1 & E & A & Dl & Pr & Sl & To).
  cbn [downloadApk_loop]. unfold bind, try_catch. rewrite E.
  destruct (read_download _) as [e|u]; cbn [as_outcome].
  - unfold tell, sleep, tell.
    destruct (Nat.eqb attempt maxRetries).
    + exists (evs ++ [EvWarn (attempt_label "downloadApk" attempt) (Some e)]
                ++ [EvToast "error" "下载失败" "APK 下载出现错误，请检查网络"]).
      eexists. split; [|split; [|split; [|split; [reflexivity|]]]].
      * eapply after_ext; [|eapply after_trans; [exact A|];
                            eapply after_trans; apply after_emit].
        intros []; reflexivity.
      * unfold downloaded in *. rewrite flat_map_app, Dl. reflexivity.
      * unfold progress_calls in *. rewrite flat_map_app, Pr.
        apply app_nil_r.
      * unfold sleeps, toasts in *. rewrite !flat_map_app, Sl, To.
        split; reflexivity.
    + exists (evs ++ [EvWarn (attempt_label "downloadApk" attempt) (Some e)]
                ++ [EvSleep (3000 * Z.of_nat attempt)]).
      eexists. split; [|split; [|split; [|split; [reflexivity|]]]].
      * eapply after_ext; [|eapply after_trans; [exact A|];
                            eapply after_trans; apply after_emit].
        intros []; reflexivity.
      * unfold downloaded in *. rewrite flat_map_app, Dl. reflexivity.
      * unfold progress_calls in *. rewrite flat_map_app, Pr.
        apply app_nil_r.
      * unfold sleeps, toasts in *. rewrite !flat_map_app, Sl, To.
        split; reflexivity.
  - exists evs, s1. split; [exact A|]. split; [exact Dl|].
    split; [exact Pr|]. split; [reflexivity|]. split; assumption.
Qed.

(** The loop of [downloadApk], by what its transfers settle with. *)
Lemma downloadApk_loop_run url onProgress s :
  let transfer n :=
    downloadAsync P (n + calls s CDownload) url
      (file_uri P (now P (n + calls s CNow))) in
  let attempt n := read_download (transfer n) in
  let reported n := flat_map (Spec.forwarded onProgress) (reports (transfer n)) in
  exists evs s',
    snd (downloadApk_loop P url onProgress 1 maxRetries s) = s'
    /\ trace s' = trace s ++ evs
    /\ let out := fst (downloadApk_loop P url onProgress 1 maxRetries s) in
       match attempt 0%nat with
       | inr u =>
           out = Return u /\ sleeps evs = [] /\ toasts evs = []
           /\ length (downloaded evs) = 1%nat
           /\ progress_calls evs = reported 0%nat
       | inl _ =>
           match attempt 1%nat with
           | inr u =>
               out = Return u /\ sleeps evs = [3000] /\ toasts evs = []
               /\ length (downloaded evs) = 2%nat
               /\ progress_calls evs = reported 0%nat ++ reported 1%nat
           | inl _ =>
               match attempt 2%nat with
               | inr u =>
                   out = Return u /\ sleeps evs = [3000; 6000]
                   /\ toasts evs = []
                   /\ length (downloaded evs) = 3%nat
                   /\ progress_calls evs
                      = reported 0%nat ++ reported 1%nat ++ reported 2%nat
               | inl e =>
                   out = Throw e /\ sleeps evs = [3000; 6000]
                   /\ toasts evs = ["下载失败"%string]
                   /\ length (downloaded evs) = 3%nat
                   /\ progress_calls evs
                      = reported 0%nat ++ reported 1%nat ++ reported 2%nat
               end
           end
       end.
Proof.
  cbv zeta. unfold maxRetries. cbn [Nat.add].
  destruct (downloadApk_loop_step url onProgress 1 2 s)
    as (ev1 & s1 & A1 & D1 & P1 & H1). cbv zeta in H1.
  destruct (read_download
              (downloadAsync P (calls s CDownload) url
                 (file_uri P (now P (calls s CNow))))) as [e1|u1].
  2:{ destruct H1 as (E & Sl & To). exists ev1, s1. rewrite E.
      split; [reflexivity|]. split; [apply A1|]. rewrite D1.
      repeat split; assumption || reflexivity. }
  cbn [Nat.eqb maxRetries] in H1. destruct H1 as (E1 & Sl1 & To1).
  destruct (downloadApk_loop_step url onProgress 2 1 s1)
    as (ev2 & s2 & A2 & D2 & P2 & H2). cbv zeta in H2.
  assert (C1 : calls s1 CDownload = S (calls s CDownload)) by apply A1.
  assert (N1 : calls s1 CNow = S (calls s CNow)) by apply A1.
  rewrite C1, N1 in H2, P2.
  destruct (read_download
              (downloadAsync P (S (calls s CDownload)) url
                 (file_uri P (now P (S (calls s CNow)))))) as [e2|u2].
  2:{ destruct H2 as (E & Sl & To). exists (ev1 ++ ev2), s2. rewrite E1, E.
      split; [reflexivity|]. split.
      - apply (after_trans _ _ _ _ _ _ _ A1 A2).
      - unfold sleeps, toasts, downloaded, progress_calls in *.
        rewrite !flat_map_app, Sl1, Sl, To1, To, D1, D2, P1, P2.
        repeat split; reflexivity. }
  cbn [Nat.eqb maxRetries] in H2. destruct H2 as (E2 & Sl2 & To2).
  destruct (downloadApk_loop_step url onProgress 3 0 s2)
    as (ev3 & s3 & A3 & D3 & P3 & H3). cbv zeta in H3.
  assert (C2 : calls s2 CDownload = S (S (calls s CDownload)))
    by (destruct A2 as [_ C]; rewrite C, C1; reflexivity).
  assert (N2 : calls s2 CNow = S (S (calls s CNow)))
    by (destruct A2 as [_ C]; rewrite C, N1; reflexivity).
  rewrite C2, N2 in H3, P3.
  pose proof (after_trans _ _ _ _ _ _ _ (after_trans _ _ _ _ _ _ _ A1 A2) A3)
    as A.
  destruct (read_download
              (downloadAsync P (S (S (calls s CDownload))) url
                 (file_uri P (now P (S (S (calls s CNow)))))))
    as [e3|u3]; cbn [Nat.eqb maxRetries] in H3;
    destruct H3 as (E3 & Sl3 & To3);
    exists ((ev1 ++ ev2) ++ ev3), s3; rewrite E1, E2, E3;
    (split; [reflexivity|]); (split; [apply A|]);
    unfold sleeps, toasts, downloaded, progress_calls in *;
    rewrite !flat_map_app, Sl1, Sl2, Sl3, To1, To2, To3, D1, D2, D3,
      P1, P2, P3, <- ?app_assoc;
    repeat split; reflexivity.
Qed.

(** The whole of [downloadApk]: the clean-up, then the loop. *)
Lemma downloadApk_run url onProgress s :
  let transfer n :=
    downloadAsync P (n + calls s CDownload) url
      (file_uri P (now P (n + calls s CNow))) in
  let attempt n := read_download (transfer n) in
  let reported n := flat_map (Spec.forwarded onProgress) (reports (transfer n)) in
  let out := fst (downloadApk P url onProgress s) in
  let evs := events_of (downloadApk P url onProgress) s in
  match attempt 0%nat with
  | inr u =>
      out = Return u /\ sleeps evs = [] /\ toasts evs = []
      /\ length (downloaded evs) = 1%nat
      /\ progress_calls evs = reported 0%nat
  | inl _ =>
      match attempt 1%nat with
      | inr u =>
          out = Return u /\ sleeps evs = [3000] /\ toasts evs = []
          /\ length (downloaded evs) = 2%nat
          /\ progress_calls evs = reported 0%nat ++ reported 1%nat
      | inl _ =>
          match attempt 2%nat with
          | inr u =>
              out = Return u /\ sleeps evs = [3000; 6000]
              /\ toasts evs = []
              /\ length (downloaded evs) = 3%nat
              /\ progress_calls evs
                 = reported 0%nat ++ reported 1%nat ++ reported 2%nat
          | inl e =>
              out = Throw e /\ sleeps evs = [3000; 6000]
              /\ toasts evs = ["下载失败"%string]
              /\ length (downloaded evs) = 3%nat
              /\ progress_calls evs
                 = reported 0%nat ++ reported 1%nat ++ reported 2%nat
          end
      end
  end.
Proof.
  cbv zeta.
  destruct (cleanOldApkFiles_run P s)
    as (ev0 & s0 & E0 & T0 & C0 & Sl0 & To0 & Dl0 & _ & Pr0 & _).
  destruct (downloadApk_loop_run url onProgress s0)
    as (evs & s' & E & T & H). cbv zeta in H.
  rewrite (C0 CDownload), (C0 CNow) in H by discriminate.
  assert (EV : events_of (downloadApk P url onProgress) s = ev0 ++ evs).
  { unfold events_of, downloadApk, bind. rewrite E0, E, T, T0.
    rewrite <- app_assoc, skipn_app, skipn_all, Nat.sub_diag. reflexivity. }
  assert (O : fst (downloadApk P url onProgress s)
              = fst (downloadApk_loop P url onProgress 1 maxRetries s0)).
  { unfold downloadApk, bind. rewrite E0. reflexivity. }
  rewrite EV, O. unfold sleeps, toasts, downloaded, progress_calls in *.
  rewrite !flat_map_app, Sl0, To0, Dl0, Pr0. cbn [app]. exact H.
Qed.

End DownloadRuns.

(** C7. In [downloadApk] a transfer that resolves without a URI (no
    result, no [uri], or an empty one) is a failed attempt: the
    operation does not return but starts the next transfer; and when
    three attempts have failed it shows the "download failed" toast
    and throws the error of the last attempt. *)
Theorem downloadApk_missing_uri_is_failure
    (P : Platform.Platform) (s : Platform.State)
    (url : JsString.jsstring) (onProgress : bool) :
  let transfer n :=
    Platform.downloadAsync P (n + Platform.calls s Platform.CDownload) url
      (UpdateService.file_uri P
         (Platform.now P (n + Platform.calls s Platform.CNow))) in
  let attempt n := Run.read_download (transfer n) in
  let no_uri n :=
    exists result, Platform.settled (transfer n) = inr result
                   /\ UpdateService.result_uri result = None in
  let out := fst (UpdateService.downloadApk P url onProgress s) in
  let evs := Run.events_of (UpdateService.downloadApk P url onProgress) s in
  let missing :=
    Platform.Error (JsString.str "Download failed: No URI available") in
  (forall n, no_uri n -> attempt n = inl missing)
  /\ (no_uri 0%nat -> (2 <= length (Platform.downloaded evs))%nat)
  /\ (forall e1 e2 e3,
        attempt 0%nat = inl e1 -> attempt 1%nat = inl e2 ->
        attempt 2%nat = inl e3 ->
      out = Async.Throw e3
      /\ Platform.toasts evs = ["下载失败"%string]
      /\ Platform.sleeps evs = [3000 * 1; 3000 * 2]
      /\ length (Platform.downloaded evs) = 3%nat)
  /\ (no_uri 0%nat -> no_uri 1%nat -> no_uri 2%nat ->
      out = Async.Throw missing
      /\ Platform.toasts evs = ["下载失败"%string]).
Proof.
  cbv zeta.
  assert (M : forall n,
             (exists result,
                 Platform.settled
                   (Platform.downloadAsync P
                      (n + Platform.calls s Platform.CDownload) url
                      (UpdateService.file_uri P
                         (Platform.now P (n + Platform.calls s Platform.CNow))))
                 = inr result
                 /\ UpdateService.result_uri result = None) ->
             Run.read_download
               (Platform.downloadAsync P
                  (n + Platform.calls s Platform.CDownload) url
                  (UpdateService.file_uri P
                     (Platform.now P (n + Platform.calls s Platform.CNow))))
             = inl (Platform.Error
                      (JsString.str "Download failed: No URI available"))).
  { intros n (result & S & U). unfold Run.read_download.
    rewrite S, U. reflexivity. }
  pose proof (downloadApk_run P url onProgress s) as H.
  cbv beta zeta in H.
  split; [exact M|]. split; [|split].
  - intros N0. rewrite (M 0%nat N0) in H.
    destruct (Run.read_download _) in H;
      [destruct (Run.read_download _) in H|];
      destruct H as (_ & _ & _ & L & _); rewrite L; lia.
  - intros e1 e2 e3 A0 A1 A2. rewrite A0, A1, A2 in H.
    destruct H as (O & Sl & To & L & _). repeat split; assumption.
  - intros N0 N1 N2.
    rewrite (M 0%nat N0), (M 1%nat N1), (M 2%nat N2) in H.
    destruct H as (O & _ & To & _). split; assumption.
Qed.

(** Three transfers that resolve without a uri. *)
Lemma downloadApk_missing_uri_is_failure_witness :
  fst (UpdateService.downloadApk Scenario.uriless
         (JsString.str "https://dl.example/v1.4.0.apk") false
         Platform.initial)
  = Async.Throw
      (Platform.Error (JsString.str "Download failed: No URI available"))
  /\ Platform.toasts
       (Run.events_of
          (UpdateService.downloadApk Scenario.uriless
             (JsString.str "https://dl.example/v1.4.0.apk") false)
          Platform.initial)
     = ["下载失败"%string].
Proof.
  destruct (downloadApk_missing_uri_is_failure Scenario.uriless
              Platform.initial
              (JsString.str "https://dl.example/v1.4.0.apk") false)
    as (_ & _ & _ & H).
  apply H; exists (Some {| Platform.uri := None |}); split; reflexivity.
Defined.

(* ================================================================== *)
(** * Progress *)
(* ================================================================== *)



(* ================================================================== *)
(** * More on the version comparison *)
(* ================================================================== *)

Section MoreVersions.
Import JsNumber JsString Version.

Lemma split_not_nil sep s : split sep s <> [].
Proof.
  destruct s as [|c s]; cbn [split]; [discriminate|].
  destruct (c =? sep)%N; [discriminate|].
  destruct (split sep s); discriminate.
Qed.

Lemma split_app_sep sep a c :
  split sep (a ++ sep :: c) = split sep a ++ split sep c.
Proof.
  induction a as [|x a IH]; cbn [app split].
  - rewrite N.eqb_refl. reflexivity.
  - destruct (x =? sep)%N; [rewrite IH; reflexivity|].
    rewrite IH. pose proof (split_not_nil sep a) as N.
    destruct (split sep a) as [|p ps]; [contradiction|]. reflexivity.
Qed.

Lemma at_or_zero_snoc_zero p i :
  at_or_zero (p ++ [pos_zero]) i = at_or_zero p i.
Proof.
  revert i. induction p as [|x p IH]; intros i.
  - destruct i as [|[|i]]; reflexivity.
  - destruct i as [|i]; [reflexivity|].
    rewrite <- app_comm_cons, !at_or_zero_tl. cbn [tl]. apply IH.
Qed.

Lemma at_or_zero_beyond p i :
  (length p <= i)%nat -> at_or_zero p i = pos_zero.
Proof.
  intros H. unfold at_or_zero.
  rewrite (proj2 (nth_error_None p i) H). reflexivity.
Qed.

Lemma compare_loop_ext p1 p1' p2 p2' n i :
  (forall j, at_or_zero p1 j = at_or_zero p1' j) ->
  (forall j, at_or_zero p2 j = at_or_zero p2' j) ->
  compare_loop p1 p2 i n = compare_loop p1' p2' i n.
Proof.
  intros E1 E2. revert i. induction n as [|n IH]; intros i; [reflexivity|].
  cbn [compare_loop]. rewrite E1, E2, IH. reflexivity.
Qed.

(** Iterations past the end of both arrays compare 0 with 0. *)
Lemma compare_loop_past p1 p2 k i :
  (length p1 <= i)%nat -> (length p2 <= i)%nat ->
  compare_loop p1 p2 i k = 0.
Proof.
  revert i. induction k as [|k IH]; intros i L1 L2; [reflexivity|].
  cbn [compare_loop]. rewrite !at_or_zero_beyond by assumption.
  cbn. apply IH; lia.
Qed.

Lemma compare_loop_longer p1 p2 n k i :
  (length p1 <= i + n)%nat -> (length p2 <= i + n)%nat ->
  compare_loop p1 p2 i (n + k) = compare_loop p1 p2 i n.
Proof.
  revert i. induction n as [|n IH]; intros i L1 L2.
  - cbn [Nat.add compare_loop]. apply compare_loop_past; lia.
  - cbn [Nat.add compare_loop].
    destruct (gt _ _); [reflexivity|]. destruct (lt _ _); [reflexivity|].
    apply IH; lia.
Qed.

(** The loop with any bound that reaches the end of both arrays. *)
Lemma compare_loop_bound p1 p2 m :
  (Nat.max (length p1) (length p2) <= m)%nat ->
  compare_loop p1 p2 0 m
  = compare_loop p1 p2 0 (Nat.max (length p1) (length p2)).
Proof.
  intros H.
  replace m with (Nat.max (length p1) (length p2)
                  + (m - Nat.max (length p1) (length p2)))%nat by lia.
  apply compare_loop_longer; lia.
Qed.

Lemma compare_padded p1 p2 :
  compare_loop (p1 ++ [pos_zero]) p2 0
    (Nat.max (length (p1 ++ [pos_zero])) (length p2))
  = compare_loop p1 p2 0 (Nat.max (length p1) (length p2)).
Proof.
  rewrite (compare_loop_ext (p1 ++ [pos_zero]) p1 p2 p2);
    [|apply at_or_zero_snoc_zero|reflexivity].
  apply compare_loop_bound. rewrite length_app. cbn [length]. lia.
Qed.

End MoreVersions.

(** X1. A trailing [.0] never changes the comparison, on either side
    and for every pair of strings, numeric or not. *)
Theorem compareVersions_trailing_zero (a b : JsString.jsstring) :
  Version.compareVersions (a ++ JsString.str ".0") b
  = Version.compareVersions a b
  /\ Version.compareVersions a (b ++ JsString.str ".0")
     = Version.compareVersions a b.
Proof.
  assert (S : forall v,
             List.map JsString.Number
               (JsString.split JsString.dot (v ++ JsString.str ".0"))
             = List.map JsString.Number (JsString.split JsString.dot v)
               ++ [JsNumber.pos_zero]).
  { intros v. change (JsString.str ".0") with (JsString.dot :: [48%N]).
    rewrite split_app_sep, map_app. reflexivity. }
  unfold Version.compareVersions. rewrite !S. split.
  - apply compare_padded.
  - rewrite (compare_loop_swap _ (_ ++ _)), Nat.max_comm, compare_padded.
    rewrite Nat.max_comm. symmetry. apply compare_loop_swap.
Qed.

Section ComponentOrder.
Import JsNumber JsString Version.

Lemma compare_with_zeros_step b :
  Spec.compare_with_zeros b
  = if hd 0 b <? 0 then 1 else if 0 <? hd 0 b then -1
    else Spec.compare_with_zeros (tl b).
Proof. destruct b; reflexivity. Qed.

(** One step of the comparison of the specification, whatever the
    lengths. *)
Lemma compare_components_step a b :
  Spec.compare_components a b
  = if hd 0 b <? hd 0 a then 1 else if hd 0 a <? hd 0 b then -1
    else Spec.compare_components (tl a) (tl b).
Proof.
  destruct a as [|x a]; [|reflexivity].
  cbn [Spec.compare_components hd tl]. apply compare_with_zeros_step.
Qed.

Lemma compare_components_nil : Spec.compare_components [] [] = 0.
Proof. reflexivity. Qed.

(** The comparison of components composes: it is a total preorder on
    the sequences of components padded with zeros. *)
Lemma compare_components_trans n :
  forall a b c,
  (length a <= n)%nat -> (length b <= n)%nat -> (length c <= n)%nat ->
  0 <= Spec.compare_components a b -> 0 <= Spec.compare_components b c ->
  0 <= Spec.compare_components a c
  /\ (Spec.compare_components a b = 1 \/ Spec.compare_components b c = 1 ->
      Spec.compare_components a c = 1).
Proof.
  induction n as [|n IH]; intros a b c La Lb Lc.
  - destruct a, b, c; cbn [length] in *; lia.
  - rewrite (compare_components_step a b), (compare_components_step b c),
      (compare_components_step a c).
    assert (Ta : (length (tl a) <= n)%nat) by (destruct a; cbn [length tl] in *; lia).
    assert (Tb : (length (tl b) <= n)%nat) by (destruct b; cbn [length tl] in *; lia).
    assert (Tc : (length (tl c) <= n)%nat) by (destruct c; cbn [length tl] in *; lia).
    specialize (IH (tl a) (tl b) (tl c) Ta Tb Tc).
    destruct (Z.ltb_spec (hd 0 b) (hd 0 a)), (Z.ltb_spec (hd 0 a) (hd 0 b)),
      (Z.ltb_spec (hd 0 c) (hd 0 b)), (Z.ltb_spec (hd 0 b) (hd 0 c)),
      (Z.ltb_spec (hd 0 c) (hd 0 a)), (Z.ltb_spec (hd 0 a) (hd 0 c));
      lia.
Qed.

Lemma compareVersions_components a b :
  Spec.is_version_string a = true -> Spec.is_version_string b = true ->
  Spec.safe a = true -> Spec.safe b = true ->
  compareVersions a b
  = Spec.compare_components (Spec.components a) (Spec.components b).
Proof.
  intros Va Vb Sa Sb. unfold compareVersions.
  apply compare_loop_components; apply components_denote;
    try assumption; apply Forall_forall; intros x I; apply Z.leb_le.
  - unfold Spec.safe in Sa. rewrite forallb_forall in Sa. apply Sa, I.
  - unfold Spec.safe in Sb. rewrite forallb_forall in Sb. apply Sb, I.
Qed.

End ComponentOrder.

(** X2. On version strings of digits with components up to
    [2 ^ 53 - 1] the comparison is transitive: when [a] is not older
    than [b] and [b] not older than [c], [a] is not older than [c], and
    it is newer as soon as one of the two steps is. *)
Theorem compareVersions_transitive (a b c : JsString.jsstring) :
  Spec.is_version_string a = true -> Spec.safe a = true ->
  Spec.is_version_string b = true -> Spec.safe b = true ->
  Spec.is_version_string c = true -> Spec.safe c = true ->
  0 <= Version.compareVersions a b -> 0 <= Version.compareVersions b c ->
  0 <= Version.compareVersions a c
  /\ (Version.compareVersions a b = 1 \/ Version.compareVersions b c = 1 ->
      Version.compareVersions a c = 1).
Proof.
  intros Va Sa Vb Sb Vc Sc.
  rewrite (compareVersions_components a b), (compareVersions_components b c),
    (compareVersions_components a c) by assumption.
  apply (compare_components_trans
           (length (Spec.components a) + length (Spec.components b)
            + length (Spec.components c))); lia.
Qed.

Lemma compareVersions_transitive_witness :
  Version.compareVersions (JsString.str "1.10") (JsString.str "1.9") = 1.
Proof.
  apply (compareVersions_transitive (JsString.str "1.10")
           (JsString.str "1.9.9") (JsString.str "1.9")
           eq_refl eq_refl eq_refl eq_refl eq_refl eq_refl);
    [vm_compute; discriminate|vm_compute; discriminate|].
  left. reflexivity.
Defined.

(** X3. The installed version is never offered as an update, whatever
    its text; and a version offered as an update is one the installed
    version is older than. *)
Theorem isUpdateAvailable_not_for_current (P : Platform.Platform) :
  UpdateService.isUpdateAvailable P (UpdateService.getCurrentVersion P)
  = false
  /\ forall v, UpdateService.isUpdateAvailable P v = true ->
     Version.compareVersions (UpdateService.getCurrentVersion P) v = -1.
Proof.
  unfold UpdateService.isUpdateAvailable, UpdateService.getCurrentVersion,
    Version.compareVersions.
  split.
  - apply Z.ltb_ge.
    pose proof (compare_loop_swap
                  (map JsString.Number
                     (JsString.split JsString.dot (Platform.currentVersion P)))
                  (map JsString.Number
                     (JsString.split JsString.dot (Platform.currentVersion P)))
                  (Nat.max
                     (length (map JsString.Number
                                (JsString.split JsString.dot
                                   (Platform.currentVersion P))))
                     (length (map JsString.Number
                                (JsString.split JsString.dot
                                   (Platform.currentVersion P))))) 0).
    lia.
  - intros v H. apply Z.ltb_lt in H.
    rewrite compare_loop_swap, Nat.max_comm.
    destruct (compare_loop_range
                (map JsString.Number (JsString.split JsString.dot v))
                (map JsString.Number
                   (JsString.split JsString.dot (Platform.currentVersion P)))
                (Nat.max
                   (length (map JsString.Number (JsString.split JsString.dot v)))
                   (length (map JsString.Number
                              (JsString.split JsString.dot
                                 (Platform.currentVersion P))))) 0)
      as [R|[R|R]]; lia.
Qed.

(* ================================================================== *)
(** * More on checkVersion *)
(* ================================================================== *)

(** X4. [checkVersion] fetches the manifest URL and nothing else,
    between 1 and 3 times. A run that returns shows no toast; a run
    that throws has fetched 3 times, waited 2000 then 4000 ms and shown
    the toast exactly once. *)
Theorem checkVersion_toast_only_on_failure
    (P : Platform.Platform) (s : Platform.State) :
  let evs := Run.events_of (UpdateService.checkVersion P) s in
  (exists n, (1 <= n <= 3)%nat
             /\ Platform.fetched evs = repeat (Platform.GITHUB_RAW_URL P) n)
  /\ match fst (UpdateService.checkVersion P s) with
     | Async.Return _ => Platform.toasts evs = []
     | Async.Throw _ =>
         Platform.toasts evs = ["检查更新失败"%string]
         /\ Platform.sleeps evs = [2000; 4000]
         /\ length (Platform.fetched evs) = 3%nat
     end.
Proof.
  cbv zeta. pose proof (checkVersion_run P s) as H. cbv beta zeta in H.
  destruct (UpdateService.read_fetch P _) in H;
    [destruct (UpdateService.read_fetch P _) in H;
     [destruct (UpdateService.read_fetch P _) in H|]|];
    destruct H as (O & Sl & To & Fe); rewrite O, Fe, To.
  - split; [exists 3%nat; split; [lia|reflexivity]|].
    repeat split; assumption || reflexivity.
  - split; [exists 3%nat; split; [lia|reflexivity]|reflexivity].
  - split; [exists 2%nat; split; [lia|reflexivity]|reflexivity].
  - split; [exists 1%nat; split; [lia|reflexivity]|reflexivity].
Qed.

(* ================================================================== *)
(** * More on the clean-up *)
(* ================================================================== *)

(** X5. Whatever the names in the listing, the clean-up only asks for
    the deletion of files of the listing whose name starts with
    [OrionTV_v] and ends with [.apk], inside the document directory,
    and it asks for exactly as many deletions as there are such names
    beyond 2. *)
Theorem cleanOldApkFiles_deletes_only_artifacts
    (P : Platform.Platform) (s : Platform.State)
    (dirUri : JsString.jsstring) (listing : list JsString.jsstring) :
  UpdateService.available (Platform.documentDirectory P) = Some dirUri ->
  Platform.readDirectoryAsync P (Platform.calls s Platform.CReadDirectory)
    dirUri = inr listing ->
  let evs := Run.events_of (UpdateService.cleanOldApkFiles P) s in
  let matches := filter UpdateService.is_apk_name listing in
  length (Platform.deleted evs) = (length matches - 2)%nat
  /\ forall path, In path (Platform.deleted evs) ->
     exists name, path = dirUri ++ name /\ In name listing
                  /\ UpdateService.is_apk_name name = true.
Proof.
  intros Dir Ls. cbv zeta. rewrite cleanOldApkFiles_deleted, Dir, Ls.
  unfold Spec.stale_files.
  set (matches := filter UpdateService.is_apk_name listing).
  pose proof (sort_perm UpdateService.newest_first matches) as SP.
  destruct (Nat.leb_spec (length matches) 2) as [L|L].
  - split; [cbn; lia|]. intros path [].
  - split.
    + rewrite length_map. unfold JsArray.slice.
      rewrite length_skipn, (Permutation_length SP). reflexivity.
    + intros path I. apply in_map_iff in I. destruct I as (name & E & I).
      exists name. split; [symmetry; exact E|].
      assert (M : In name matches).
      { apply (Permutation_in _ SP). unfold JsArray.slice in I.
        rewrite <- (firstn_skipn 2). apply in_or_app. right. exact I. }
      apply filter_In in M. exact M.
Qed.

Lemma cleanOldApkFiles_deletes_only_artifacts_witness :
  length
    (Platform.deleted
       (Run.events_of (UpdateService.cleanOldApkFiles Scenario.untimed)
          Platform.initial)) = 1%nat.
Proof.
  destruct (cleanOldApkFiles_deletes_only_artifacts Scenario.untimed
              Platform.initial (JsString.str "file:///data/")
              Scenario.untimed_files eq_refl eq_refl) as (L & _).
  exact L.
Defined.

Section FileNames.
Import JsNumber JsString UpdateService Observe.

Lemma digit_value_of_digit d :
  (d < 10)%N -> digit_value 10 (48 + d) = Some d /\ is_digit (48 + d) = true.
Proof.
  intros H.
  assert (C : In d [0; 1; 2; 3; 4; 5; 6; 7; 8; 9]%N).
  { cbn [In]. destruct (N.eq_dec d 0); [auto|].
    destruct (N.eq_dec d 1); [auto|]. destruct (N.eq_dec d 2); [auto 10|].
    destruct (N.eq_dec d 3); [auto 10|]. destruct (N.eq_dec d 4); [auto 10|].
    destruct (N.eq_dec d 5); [auto 10|]. destruct (N.eq_dec d 6); [auto 10|].
    destruct (N.eq_dec d 7); [auto 10|]. destruct (N.eq_dec d 8); [auto 10|].
    destruct (N.eq_dec d 9); [auto 20|]. lia. }
  cbn [In] in C.
  repeat (destruct C as [C|C]; [subst; split; reflexivity|]). contradiction.
Qed.

(** Reading the digits written for a number gives the number back. *)
Lemma digits_of_pos_value fuel :
  forall p acc, (p < 2 ^ N.of_nat fuel)%N ->
  fold_left
    (fun a c => match digit_value 10 c with
                | Some d => (a * 10 + d)%N
                | None => a
                end) (digits_of_pos fuel p acc) 0%N
  = fold_left
      (fun a c => match digit_value 10 c with
                  | Some d => (a * 10 + d)%N
                  | None => a
                  end) acc p.
Proof.
  induction fuel as [|fuel IH]; intros p acc H.
  - cbn in H. assert (p = 0%N) by lia. subst. reflexivity.
  - cbn [digits_of_pos].
    assert (M : (p mod 10 < 10)%N) by (apply N.mod_lt; discriminate).
    destruct (digit_value_of_digit _ M) as [V _].
    destruct (N.ltb_spec p 10) as [L|L].
    + cbn [fold_left]. rewrite V. rewrite N.mod_small by exact L.
      reflexivity.
    + rewrite IH.
      * cbn [fold_left]. rewrite V. f_equal.
        rewrite (N.div_mod p 10) at 3 by discriminate. lia.
      * rewrite Nat2N.inj_succ, N.pow_succ_r' in H.
        apply N.Div0.div_lt_upper_bound. lia.
Qed.

Lemma digits_value_of_N n : digits_value 10 (of_N n) = n.
Proof.
  unfold digits_value, of_N. rewrite digits_of_pos_value; [reflexivity|].
  rewrite Nat2N.inj_succ, N2Nat.id.
  destruct n as [|p]; [reflexivity|]. apply N.log2_spec. reflexivity.
Qed.

Lemma digits_of_pos_digits fuel :
  forall p acc, forallb is_digit acc = true ->
  forallb is_digit (digits_of_pos fuel p acc) = true.
Proof.
  induction fuel as [|fuel IH]; intros p acc H; [exact H|].
  cbn [digits_of_pos].
  assert (M : (p mod 10 < 10)%N) by (apply N.mod_lt; discriminate).
  destruct (digit_value_of_digit _ M) as [_ D].
  destruct (p <? 10)%N; [|apply IH]; cbn [forallb]; rewrite D, H; reflexivity.
Qed.

Lemma of_N_digits n : forallb is_digit (of_N n) = true.
Proof. apply digits_of_pos_digits. reflexivity. Qed.

Lemma digits_of_pos_not_nil fuel p acc :
  digits_of_pos (S fuel) p acc <> [].
Proof.
  revert p acc. induction fuel as [|fuel IH]; intros p acc.
  - cbn [digits_of_pos]. destruct (p <? 10)%N; discriminate.
  - change (digits_of_pos (S (S fuel)) p acc)
      with (if (p <? 10)%N then (48 + p mod 10)%N :: acc
            else digits_of_pos (S fuel) (p / 10) ((48 + p mod 10)%N :: acc)).
    destruct (p <? 10)%N; [discriminate|apply IH].
Qed.

Lemma of_N_not_nil n : of_N n <> [].
Proof. apply digits_of_pos_not_nil. Qed.

Lemma of_N_injective m n : of_N m = of_N n -> m = n.
Proof.
  intros H. rewrite <- (digits_value_of_N m), <- (digits_value_of_N n), H.
  reflexivity.
Qed.

Lemma startsWith_app p s : startsWith (p ++ s) p = true.
Proof.
  induction p as [|c p IH]; [destruct s; reflexivity|].
  cbn [app startsWith]. rewrite N.eqb_refl. exact IH.
Qed.

Lemma filter_digits_all ds :
  forallb is_digit ds = true -> filter is_digit ds = ds.
Proof.
  induction ds as [|c ds IH]; [reflexivity|]. cbn [forallb filter].
  rewrite andb_true_iff. intros [C D]. rewrite C, (IH D). reflexivity.
Qed.

Lemma file_name_is_apk t : is_apk_name (file_name t) = true.
Proof.
  unfold is_apk_name, file_name. rewrite startsWith_app. cbn [andb].
  unfold endsWith. rewrite !rev_app_distr. rewrite <- app_assoc.
  apply startsWith_app.
Qed.

Lemma file_name_digits t : strip_non_digits (file_name t) = of_N t.
Proof.
  unfold strip_non_digits, file_name. rewrite !filter_app.
  rewrite (filter_digits_all _ (of_N_digits t)).
  change (filter is_digit (str "OrionTV_v")) with (@nil N).
  change (filter is_digit (str ".apk")) with (@nil N).
  rewrite app_nil_r. reflexivity.
Qed.

Lemma file_number_file_name t :
  file_number (file_name t) = of_decimal false t 0.
Proof.
  unfold file_number. rewrite file_name_digits.
  rewrite (parseInt10_digits _ (of_N_digits t) (of_N_not_nil t)).
  rewrite digits_value_of_N. reflexivity.
Qed.

Lemma file_name_injective t1 t2 : file_name t1 = file_name t2 -> t1 = t2.
Proof.
  unfold file_name. intros H. apply app_inv_head in H.
  apply app_inv_tail in H. apply of_N_injective, H.
Qed.

End FileNames.

(** X6. The name [downloadApk] gives a file passes the filter of the
    clean-up, and the number the clean-up reads from it is the number
    of its timestamp: the timestamp itself up to [2 ^ 53 - 1]. *)
Theorem file_name_round_trip (timestamp : N) :
  UpdateService.is_apk_name (Observe.file_name timestamp) = true
  /\ UpdateService.file_number (Observe.file_name timestamp)
     = JsNumber.of_Z (Z.of_N timestamp)
  /\ (Z.of_N timestamp <= Spec.MAX_SAFE_INTEGER ->
      JsNumber.denotes
        (UpdateService.file_number (Observe.file_name timestamp))
        (Z.of_N timestamp)).
Proof.
  split; [apply file_name_is_apk|]. rewrite file_number_file_name. split.
  - destruct timestamp; reflexivity.
  - intros H. split; [apply of_decimal_ordinary|].
    apply of_decimal_exact. unfold Spec.MAX_SAFE_INTEGER in H. lia.
Qed.

Section NewestDownloads.
Import JsNumber JsString JsArray UpdateService Observe.




End NewestDownloads.



(* ================================================================== *)
(** * More on downloadApk *)
(* ================================================================== *)



(* ================================================================== *)
(** * What each operation touches *)
(* ================================================================== *)

Section Footprints.
Import JsString Platform Async UpdateService Observe Run.
Local Open Scope async_scope.

Variable kind : Event -> bool.

Lemma emits_only_ret {A} (a : A) : emits_only kind (ret a).
Proof. intros s. exists []. cbn. rewrite app_nil_r. auto. Qed.

Lemma emits_only_throw {A} e : emits_only kind (@throw A e).
Proof. intros s. exists []. cbn. rewrite app_nil_r. auto. Qed.

Lemma emits_only_settle {A} (r : JsError + A) : emits_only kind (settle r).
Proof.
  destruct r; [apply emits_only_throw|apply emits_only_ret].
Qed.

Lemma emits_only_tell ev : kind ev = true -> emits_only kind (tell ev).
Proof. intros K s. exists [ev]. cbn. rewrite K. auto. Qed.

Lemma emits_only_bind {A B} (c : Async A) (k : A -> Async B) :
  emits_only kind c -> (forall a, emits_only kind (k a)) ->
  emits_only kind (bind c k).
Proof.
  intros C K s. unfold bind. destruct (C s) as (e1 & T1 & F1).
  destruct (c s) as [[a|e] s1]; cbn [snd] in *.
  - destruct (K a s1) as (e2 & T2 & F2). exists (e1 ++ e2).
    rewrite T2, T1, app_assoc, forallb_app, F1, F2. auto.
  - exists e1. auto.
Qed.

Lemma emits_only_try_catch {A} (c : Async A) (h : JsError -> Async A) :
  emits_only kind c -> (forall e, emits_only kind (h e)) ->
  emits_only kind (try_catch c h).
Proof.
  intros C H s. unfold try_catch. destruct (C s) as (e1 & T1 & F1).
  destruct (c s) as [[a|e] s1]; cbn [snd] in *.
  - exists e1. auto.
  - destruct (H e s1) as (e2 & T2 & F2). exists (e1 ++ e2).
    rewrite T2, T1, app_assoc, forallb_app, F1, F2. auto.
Qed.

(** A call to the platform: one event, then the answer. *)
Lemma emits_only_call {A} (c : Async A) ev :
  kind ev = true ->
  (forall s, trace (snd (c s)) = trace s ++ [ev]) ->
  emits_only kind c.
Proof.
  intros K T s. exists [ev]. rewrite T. cbn. rewrite K. auto.
Qed.

Variable P : Platform.

Lemma call_fetch_trace url s :
  trace (snd (call_fetch P url s)) = trace s ++ [EvFetch url].
Proof. unfold call_fetch. destruct (fetch P _ url); reflexivity. Qed.

Lemma call_readDirectoryAsync_trace dir s :
  trace (snd (call_readDirectoryAsync P dir s))
  = trace s ++ [EvReadDirectory dir].
Proof.
  unfold call_readDirectoryAsync.
  destruct (readDirectoryAsync P _ dir); reflexivity.
Qed.

Lemma call_deleteAsync_trace path i s :
  trace (snd (call_deleteAsync P path i s)) = trace s ++ [EvDelete path i].
Proof.
  unfold call_deleteAsync. destruct (deleteAsync P _ path); reflexivity.
Qed.

Lemma call_getInfoAsync_trace u s :
  trace (snd (call_getInfoAsync P u s)) = trace s ++ [EvGetInfo u].
Proof.
  unfold call_getInfoAsync. destruct (getInfoAsync P _ u); reflexivity.
Qed.

Lemma call_getContentUriAsync_trace u s :
  trace (snd (call_getContentUriAsync P u s))
  = trace s ++ [EvGetContentUri u].
Proof.
  unfold call_getContentUriAsync.
  destruct (getContentUriAsync P _ u); reflexivity.
Qed.

Lemma call_startActivityAsync_trace i s :
  trace (snd (call_startActivityAsync P i s))
  = trace s ++ [EvStartActivity i].
Proof.
  unfold call_startActivityAsync.
  destruct (startActivityAsync P _ i); reflexivity.
Qed.

End Footprints.

Ltac footprint :=
  repeat first
    [ apply emits_only_ret | apply emits_only_throw
    | apply emits_only_settle
    | apply emits_only_tell; reflexivity
    | apply emits_only_bind; [|intros ?]
    | apply emits_only_try_catch; [|intros ?] ].

Section OperationFootprints.
Import JsString Platform Async UpdateService Observe Run.
Local Open Scope async_scope.
Variable P : Platform.

Lemma checkVersion_loop_events attempt remaining :
  emits_only check_event (checkVersion_loop P attempt remaining).
Proof.
  revert attempt. induction remaining as [|r IH]; intros attempt;
    cbn [checkVersion_loop]; [apply emits_only_throw|].
  apply emits_only_bind.
  - apply emits_only_try_catch.
    + unfold checkVersion_try. footprint.
      eapply emits_only_call; [|apply call_fetch_trace]. reflexivity.
    + intros e. unfold logger_warn, Toast_show, sleep.
      destruct (Nat.eqb attempt maxRetries); footprint.
  - intros [v|]; [apply emits_only_ret|apply IH].
Qed.

Lemma delete_stale_emits kind dirUri stale :
  (forall path, kind (EvDelete path true) = true) ->
  (forall msg, kind (EvDebug msg) = true) ->
  (forall msg e, kind (EvWarn msg e) = true) ->
  emits_only kind (delete_stale P dirUri stale).
Proof.
  intros KD KG KW.
  induction stale as [|file rest IH]; cbn [delete_stale];
    [apply emits_only_ret|].
  unfold logger_debug, logger_warn.
  apply emits_only_bind; [|intros _; exact IH].
  apply emits_only_try_catch.
  - apply emits_only_bind.
    + eapply emits_only_call; [|apply call_deleteAsync_trace]. apply KD.
    + intros _. apply emits_only_tell, KG.
  - intros e. apply emits_only_tell, KW.
Qed.

Lemma delete_stale_events dirUri stale :
  emits_only cleanup_event (delete_stale P dirUri stale).
Proof. apply delete_stale_emits; reflexivity. Qed.

Lemma cleanOldApkFiles_events :
  emits_only cleanup_event (cleanOldApkFiles P).
Proof.
  unfold cleanOldApkFiles, logger_warn. apply emits_only_try_catch.
  - destruct (available _) as [dirUri|]; [|apply emits_only_throw].
    apply emits_only_bind.
    + eapply emits_only_call; [|apply call_readDirectoryAsync_trace].
      reflexivity.
    + intros listing. destruct (_ <=? _)%nat;
        [apply emits_only_ret|apply delete_stale_events].
  - intros e. footprint.
Qed.

Lemma deliver_events onProgress rs :
  emits_only transfer_event (deliver onProgress rs).
Proof.
  induction rs as [|r rs IH]; cbn [deliver]; [apply emits_only_ret|].
  apply emits_only_bind; [|intros _; exact IH].
  unfold on_download_progress.
  destruct (totalBytesExpectedToWrite r) as [expected|];
    [|apply emits_only_ret].
  destruct (_ && _); footprint.
Qed.

Lemma downloadApk_loop_events url onProgress attempt remaining :
  emits_only transfer_event
    (downloadApk_loop P url onProgress attempt remaining).
Proof.
  revert attempt. induction remaining as [|r IH]; intros attempt;
    cbn [downloadApk_loop]; [apply emits_only_throw|].
  apply emits_only_bind.
  - apply emits_only_try_catch.
    + unfold downloadApk_try, call_downloadAsync, logger_debug.
      apply emits_only_bind; [|intros u; apply emits_only_ret].
      apply emits_only_bind; [|intros timestamp].
      { eapply emits_only_call with (ev := EvNow); [reflexivity|].
        reflexivity. }
      apply emits_only_bind; [|intros result].
      { apply emits_only_bind; [|intros d].
        - eapply emits_only_call
            with (ev := EvDownload url (file_uri P timestamp));
            [reflexivity|reflexivity].
        - apply emits_only_bind; [apply deliver_events|intros _].
          apply emits_only_settle. }
      destruct (result_uri result); footprint.
    + intros e. unfold logger_warn, Toast_show, sleep.
      destruct (Nat.eqb attempt maxRetries); footprint.
  - intros [v|]; [apply emits_only_ret|apply IH].
Qed.

Lemma installApk_events fileUri :
  emits_only install_event (installApk P fileUri).
Proof.
  unfold installApk, Toast_show. apply emits_only_bind.
  - eapply emits_only_call; [|apply call_getInfoAsync_trace]. reflexivity.
  - intros exists_. destruct (negb exists_); [apply emits_only_throw|].
    apply emits_only_bind.
    + eapply emits_only_call; [|apply call_getContentUriAsync_trace].
      reflexivity.
    + intros contentUri. destruct (JsString.eqb _ _).
      * apply emits_only_try_catch.
        -- eapply emits_only_call; [|apply call_startActivityAsync_trace].
           reflexivity.
        -- intros e. apply emits_only_bind; [|intros _; apply emits_only_throw].
           destruct (includes _ _); [|destruct (includes _ _)]; footprint.
      * footprint.
Qed.

Lemma events_of_emits {A} (c : Async A) s evs :
  trace (snd (c s)) = trace s ++ evs -> events_of c s = evs.
Proof.
  intros T. unfold events_of. rewrite T, skipn_app, skipn_all, Nat.sub_diag.
  reflexivity.
Qed.

End OperationFootprints.

(* ================================================================== *)
(** * Runs of installApk *)
(* ================================================================== *)

Section InstallRuns.
Import JsString Platform Async UpdateService Observe Run.
Local Open Scope async_scope.
Variable P : Platform.

(** The outcome and the events of [installApk], by the answers of the
    platform. *)
Lemma installApk_run fileUri s :
  let out := fst (installApk P fileUri s) in
  let evs := events_of (installApk P fileUri) s in
  match getInfoAsync P (calls s CGetInfo) fileUri with
  | inl e => out = Throw e /\ evs = [EvGetInfo fileUri]
  | inr false =>
      out = Throw (Error (str "APK not found at " ++ fileUri))
      /\ evs = [EvGetInfo fileUri]
  | inr true =>
      match getContentUriAsync P (calls s CGetContentUri) fileUri with
      | inl e =>
          out = Throw e
          /\ evs = [EvGetInfo fileUri; EvGetContentUri fileUri]
      | inr contentUri =>
          if JsString.eqb (OS P) (str "android") then
            match startActivityAsync P (calls s CStartActivity)
                    (install_intent contentUri) with
            | None =>
                out = Return tt
                /\ evs = [EvGetInfo fileUri; EvGetContentUri fileUri;
                          EvStartActivity (install_intent contentUri)]
            | Some e =>
                out = Throw e
                /\ evs = [EvGetInfo fileUri; EvGetContentUri fileUri;
                          EvStartActivity (install_intent contentUri);
                          EvToast "error" "安装失败"
                            (launch_failure_body e)]
            end
          else
            out = Throw (Error (str "APK install not supported on iOS"))
            /\ evs = [EvGetInfo fileUri; EvGetContentUri fileUri;
                      EvToast "error" "安装失败"
                        "iOS 设备无法直接安装 APK"]
      end
  end.
Proof.
  cbv zeta.
  assert (EV : forall evs l,
             l = trace s ++ evs -> skipn (length (trace s)) l = evs).
  { intros evs l ->. rewrite skipn_app, skipn_all, Nat.sub_diag.
    reflexivity. }
  destruct (getInfoAsync P (calls s CGetInfo) fileUri) as [e|[|]] eqn:GI.
  2:{ destruct (getContentUriAsync P (calls s CGetContentUri) fileUri)
        as [e|contentUri] eqn:GC.
      2:{ destruct (JsString.eqb (OS P) (str "android")) eqn:OSA.
          - destruct (startActivityAsync P (calls s CStartActivity)
                        (install_intent contentUri)) as [e|] eqn:SA;
              unfold events_of, installApk, bind, try_catch,
                call_getInfoAsync, call_getContentUriAsync,
                call_startActivityAsync;
              rewrite GI; cbn [settle ret negb calls count emit
                                 Capability_eqb];
              rewrite GC; cbn [settle ret]; rewrite OSA;
              cbn [calls count emit Capability_eqb];
              change {| action := str "android.intent.action.VIEW";
                        data := contentUri;
                        type := ANDROID_MIME_TYPE;
                        flags := install_flags |}
                with (install_intent contentUri);
              rewrite SA.
            + unfold launch_failure_body, Toast_show, tell. cbn [throw].
              destruct (includes (message e) (str "Activity not found"));
                [|destruct (includes (message e) (str "permission"))];
                cbn [throw fst snd trace emit count];
                (split; [reflexivity|]); apply EV;
                rewrite <- !app_assoc; reflexivity.
            + cbn [ret fst snd trace emit count].
              split; [reflexivity|]. apply EV.
              rewrite <- !app_assoc. reflexivity.
          - unfold events_of, installApk, bind, call_getInfoAsync,
              call_getContentUriAsync.
            rewrite GI. cbn [settle ret negb calls count emit Capability_eqb].
            rewrite GC. cbn [settle ret]. rewrite OSA.
            unfold Toast_show, tell. cbn [throw fst snd trace emit count].
            split; [reflexivity|]. apply EV.
            rewrite <- !app_assoc. reflexivity. }
      unfold events_of, installApk, bind, call_getInfoAsync,
        call_getContentUriAsync.
      rewrite GI. cbn [settle ret negb calls count emit Capability_eqb].
      rewrite GC. cbn [settle throw fst snd trace emit count].
      split; [reflexivity|]. apply EV.
      rewrite <- !app_assoc. reflexivity. }
  - unfold events_of, installApk, bind, call_getInfoAsync. rewrite GI.
    cbn [settle throw fst snd trace emit count].
    split; [reflexivity|]. apply EV. reflexivity.
  - unfold events_of, installApk, bind, call_getInfoAsync. rewrite GI.
    cbn [settle ret throw negb fst snd trace emit count].
    split; [reflexivity|]. apply EV. reflexivity.
Qed.

End InstallRuns.

Section Projections.
Import Platform Observe.

(** A projection that reads no event of a kind is empty on a trace
    of that kind. *)
Lemma flat_map_none {B} (kind : Event -> bool) (f : Event -> list B) evs :
  (forall ev, kind ev = true -> f ev = []) ->
  forallb kind evs = true -> flat_map f evs = [].
Proof.
  intros K. induction evs as [|ev evs IH]; [reflexivity|].
  cbn [forallb flat_map]. rewrite andb_true_iff. intros [E F].
  rewrite (K ev E), (IH F). reflexivity.
Qed.

End Projections.

(** X9. [checkVersion] only uses the abort timer, the network, the
    backoff timer, the log and the toast: from any state it extends the
    trace with such events, and it never lists, deletes, downloads or
    launches anything. *)
Theorem checkVersion_touches_network_only
    (P : Platform.Platform) (s : Platform.State) :
  let evs := Run.events_of (UpdateService.checkVersion P) s in
  Platform.trace (snd (UpdateService.checkVersion P s))
  = Platform.trace s ++ evs
  /\ forallb Observe.check_event evs = true
  /\ Observe.listed evs = [] /\ Platform.deleted evs = []
  /\ Platform.downloaded evs = [] /\ Platform.launched evs = [].
Proof.
  cbv zeta.
  destruct (checkVersion_loop_events P 1 UpdateService.maxRetries s)
    as (evs & T & K).
  fold (UpdateService.checkVersion P) in T.
  rewrite (events_of_emits _ _ _ T). split; [exact T|]. split; [exact K|].
  repeat split; apply (flat_map_none Observe.check_event); try exact K;
    intros []; cbn; intros; reflexivity || discriminate.
Qed.

(* ================================================================== *)
(** * More on installApk *)
(* ================================================================== *)

(** X10. On android, for a file that exists, [installApk] translates
    the file URI once and starts exactly one activity: the VIEW action
    on the content URI the file store gave, with the APK media type and
    the flags 17. When the launcher accepts, the operation returns and
    shows no toast. *)
Theorem installApk_launches_content_uri
    (P : Platform.Platform) (s : Platform.State)
    (fileUri contentUri : JsString.jsstring) :
  Platform.getInfoAsync P (Platform.calls s Platform.CGetInfo) fileUri
  = inr true ->
  Platform.getContentUriAsync P
    (Platform.calls s Platform.CGetContentUri) fileUri = inr contentUri ->
  JsString.eqb (Platform.OS P) (JsString.str "android") = true ->
  let out := fst (UpdateService.installApk P fileUri s) in
  let evs := Run.events_of (UpdateService.installApk P fileUri) s in
  Observe.translated evs = [fileUri]
  /\ Platform.launched evs =
     [ {| Platform.action := JsString.str "android.intent.action.VIEW";
          Platform.data := contentUri;
          Platform.type :=
            JsString.str "application/vnd.android.package-archive";
          Platform.flags := 17 |} ]
  /\ (Platform.startActivityAsync P
        (Platform.calls s Platform.CStartActivity)
        (Observe.install_intent contentUri) = None ->
      out = Async.Return tt /\ Platform.toasts evs = []).
Proof.
  intros GI GC OSA. cbv zeta.
  pose proof (installApk_run P fileUri s) as H. cbv zeta in H.
  rewrite GI, GC, OSA in H.
  destruct (Platform.startActivityAsync P _ _) as [e|];
    destruct H as (O & E); rewrite E, O.
  - split; [reflexivity|]. split; [reflexivity|]. discriminate.
  - split; [reflexivity|]. split; [reflexivity|]. intros _.
    split; reflexivity.
Qed.

(** A device that runs android, with a launcher that accepts. *)
Lemma installApk_launches_content_uri_witness :
  fst (UpdateService.installApk (Observe.device "android" None)
         Scenario.apk_uri Platform.initial) = Async.Return tt
  /\ Platform.launched
       (Run.events_of
          (UpdateService.installApk (Observe.device "android" None)
             Scenario.apk_uri) Platform.initial)
     = [Observe.install_intent
          (JsString.str "content://file:///data/OrionTV_v1700000000000.apk")].
Proof.
  destruct (installApk_launches_content_uri
              (Observe.device "android" None) Platform.initial
              Scenario.apk_uri
              (JsString.str
                 "content://file:///data/OrionTV_v1700000000000.apk")
              eq_refl eq_refl eq_refl) as (_ & L & R).
  split; [exact (proj1 (R eq_refl))|exact L].
Defined.

(** X11. When the launcher rejects the activity with [e], [installApk]
    does not try again: it shows one toast, titled "安装失败", and
    throws [e] itself. The second line of the toast is chosen by the
    message of [e]: the text on a missing application when it includes
    "Activity not found", else the text on unknown sources when it
    includes "permission", else the text on an unknown error. *)
Theorem installApk_reports_launch_failure
    (P : Platform.Platform) (s : Platform.State)
    (fileUri contentUri : JsString.jsstring) (e : Platform.JsError) :
  Platform.getInfoAsync P (Platform.calls s Platform.CGetInfo) fileUri
  = inr true ->
  Platform.getContentUriAsync P
    (Platform.calls s Platform.CGetContentUri) fileUri = inr contentUri ->
  JsString.eqb (Platform.OS P) (JsString.str "android") = true ->
  Platform.startActivityAsync P (Platform.calls s Platform.CStartActivity)
    (Observe.install_intent contentUri) = Some e ->
  let out := fst (UpdateService.installApk P fileUri s) in
  let evs := Run.events_of (UpdateService.installApk P fileUri) s in
  let not_found :=
    JsString.includes (Platform.message e)
      (JsString.str "Activity not found") in
  let permission :=
    JsString.includes (Platform.message e) (JsString.str "permission") in
  out = Async.Throw e
  /\ Platform.launched evs = [Observe.install_intent contentUri]
  /\ Platform.toasts evs = ["安装失败"%string]
  /\ Observe.toast_bodies evs
     = [if not_found then
          "系统没有找到可以打开 APK 的应用，请检查系统设置"%string
        else if permission then "请在设置里允许“未知来源”安装"%string
        else "未知错误，请稍后重试"%string].
Proof.
  intros GI GC OSA SA. cbv zeta.
  pose proof (installApk_run P fileUri s) as H. cbv zeta in H.
  rewrite GI, GC, OSA, SA in H. destruct H as (O & E). rewrite E, O.
  repeat split; reflexivity.
Qed.

(** A message with both words: the missing application wins. *)
Lemma installApk_reports_launch_failure_witness :
  Observe.toast_bodies
    (Run.events_of
       (UpdateService.installApk
          (Observe.device "android"
             (Some (Platform.Error
                      (JsString.str
                         "permission denied: Activity not found"))))
          Scenario.apk_uri) Platform.initial)
  = ["系统没有找到可以打开 APK 的应用，请检查系统设置"%string].
Proof.
  destruct (installApk_reports_launch_failure
              (Observe.device "android"
                 (Some (Platform.Error
                          (JsString.str
                             "permission denied: Activity not found"))))
              Platform.initial Scenario.apk_uri
              (JsString.str
                 "content://file:///data/OrionTV_v1700000000000.apk")
              (Platform.Error
                 (JsString.str "permission denied: Activity not found"))
              eq_refl eq_refl eq_refl eq_refl) as (_ & _ & _ & B).
  exact B.
Defined.

(** X12. On a platform whose [OS] is not "android", [installApk] of a
    file that exists still asks the file store for the content URI, then
    starts no activity, shows the toast on iOS and throws the error
    "APK install not supported on iOS". *)
Theorem installApk_unsupported_platform
    (P : Platform.Platform) (s : Platform.State)
    (fileUri contentUri : JsString.jsstring) :
  Platform.getInfoAsync P (Platform.calls s Platform.CGetInfo) fileUri
  = inr true ->
  Platform.getContentUriAsync P
    (Platform.calls s Platform.CGetContentUri) fileUri = inr contentUri ->
  JsString.eqb (Platform.OS P) (JsString.str "android") = false ->
  let out := fst (UpdateService.installApk P fileUri s) in
  let evs := Run.events_of (UpdateService.installApk P fileUri) s in
  out = Async.Throw
          (Platform.Error (JsString.str "APK install not supported on iOS"))
  /\ Observe.translated evs = [fileUri]
  /\ Platform.launched evs = []
  /\ Platform.toasts evs = ["安装失败"%string]
  /\ Observe.toast_bodies evs = ["iOS 设备无法直接安装 APK"%string].
Proof.
  intros GI GC OSA. cbv zeta.
  pose proof (installApk_run P fileUri s) as H. cbv zeta in H.
  rewrite GI, GC, OSA in H. destruct H as (O & E). rewrite E, O.
  repeat split; reflexivity.
Qed.

Lemma installApk_unsupported_platform_witness :
  fst (UpdateService.installApk (Observe.device "ios" None)
         Scenario.apk_uri Platform.initial)
  = Async.Throw
      (Platform.Error (JsString.str "APK install not supported on iOS"))
  /\ Platform.launched
       (Run.events_of
          (UpdateService.installApk (Observe.device "ios" None)
             Scenario.apk_uri) Platform.initial) = [].
Proof.
  destruct (installApk_unsupported_platform
              (Observe.device "ios" None) Platform.initial
              Scenario.apk_uri
              (JsString.str
                 "content://file:///data/OrionTV_v1700000000000.apk")
              eq_refl eq_refl eq_refl) as (O & _ & L & _).
  split; [exact O|exact L].
Defined.

(** X13. A failure of [installApk] before the platform is looked at
    passes to the caller without a toast and without a launch: a
    rejected existence check, a missing file, and a rejected
    translation of the URI, which is thrown on every platform. *)
Theorem installApk_early_failures_are_silent
    (P : Platform.Platform) (s : Platform.State)
    (fileUri : JsString.jsstring) :
  let exists_ :=
    Platform.getInfoAsync P (Platform.calls s Platform.CGetInfo) fileUri in
  let contentUri :=
    Platform.getContentUriAsync P
      (Platform.calls s Platform.CGetContentUri) fileUri in
  let out := fst (UpdateService.installApk P fileUri s) in
  let evs := Run.events_of (UpdateService.installApk P fileUri) s in
  (forall e, exists_ = inl e ->
     out = Async.Throw e /\ evs = [Platform.EvGetInfo fileUri])
  /\ (exists_ = inr false ->
      out = Async.Throw
              (Platform.Error (JsString.str "APK not found at " ++ fileUri))
      /\ evs = [Platform.EvGetInfo fileUri])
  /\ (forall e, exists_ = inr true -> contentUri = inl e ->
      out = Async.Throw e
      /\ evs = [Platform.EvGetInfo fileUri;
                Platform.EvGetContentUri fileUri]).
Proof.
  cbv zeta. pose proof (installApk_run P fileUri s) as H. cbv zeta in H.
  split; [|split].
  - intros e GI. rewrite GI in H. exact H.
  - intros GI. rewrite GI in H. exact H.
  - intros e GI GC. rewrite GI, GC in H. exact H.
Qed.

(** X14. Whatever the platform answers, [installApk] only checks,
    translates, launches and shows toasts; it starts at most one
    activity and shows at most one toast, never both after a return;
    an activity is started on android only; and the operation returns
    only after a launch the launcher accepted. *)
Theorem installApk_launches_at_most_once
    (P : Platform.Platform) (s : Platform.State)
    (fileUri : JsString.jsstring) :
  let out := fst (UpdateService.installApk P fileUri s) in
  let evs := Run.events_of (UpdateService.installApk P fileUri) s in
  forallb Observe.install_event evs = true
  /\ (length (Platform.launched evs) <= 1)%nat
  /\ (length (Platform.toasts evs) <= 1)%nat
  /\ (Platform.launched evs <> [] ->
      JsString.eqb (Platform.OS P) (JsString.str "android") = true)
  /\ (out = Async.Return tt ->
      Platform.toasts evs = []
      /\ exists contentUri,
           Platform.getContentUriAsync P
             (Platform.calls s Platform.CGetContentUri) fileUri
           = inr contentUri
           /\ Platform.launched evs = [Observe.install_intent contentUri]
           /\ Platform.startActivityAsync P
                (Platform.calls s Platform.CStartActivity)
                (Observe.install_intent contentUri) = None).
Proof.
  cbv zeta. pose proof (installApk_run P fileUri s) as H. cbv zeta in H.
  destruct (Platform.getInfoAsync P _ fileUri) as [e|[|]].
  2:{ destruct (Platform.getContentUriAsync P _ fileUri)
        as [e|contentUri].
      2:{ destruct (JsString.eqb (Platform.OS P) (JsString.str "android")).
          - destruct (Platform.startActivityAsync P _ _) as [e|] eqn:SA;
              destruct H as (O & E); rewrite E, O;
              (split; [reflexivity|]); (split; [cbn; lia|]);
              (split; [cbn; lia|]); (split; [reflexivity|]).
            + discriminate.
            + intros _. split; [reflexivity|]. exists contentUri.
              repeat split; reflexivity || exact SA.
          - destruct H as (O & E). rewrite E, O.
            split; [reflexivity|]. split; [cbn; lia|].
            split; [cbn; lia|]. split; [intros N; destruct N; reflexivity|].
            discriminate. }
      destruct H as (O & E). rewrite E, O.
      split; [reflexivity|]. split; [cbn; lia|]. split; [cbn; lia|].
      split; [intros N; destruct N; reflexivity|]. discriminate. }
  all: destruct H as (O & E); rewrite E, O;
    (split; [reflexivity|]); (split; [cbn; lia|]); (split; [cbn; lia|]);
    (split; [intros N; destruct N; reflexivity|]); discriminate.
Qed.

(* ================================================================== *)
(** * More on downloadApk: the clean-up and the files *)
(* ================================================================== *)

Section DownloadOrder.
Import JsString Platform Async UpdateService Observe Run.
Local Open Scope async_scope.
Variable P : Platform.

(** The clean-up lists the document directory once when there is one,
    before anything else. *)
Lemma cleanOldApkFiles_listed s :
  listed (events_of (cleanOldApkFiles P) s)
  = match available (documentDirectory P) with
    | Some dirUri => [dirUri]
    | None => []
    end.
Proof.
  assert (EV : forall evs l,
             l = trace s ++ evs -> skipn (length (trace s)) l = evs).
  { intros evs l ->. rewrite skipn_app, skipn_all, Nat.sub_diag.
    reflexivity. }
  unfold events_of, cleanOldApkFiles, try_catch, logger_warn, tell.
  destruct (available (documentDirectory P)) as [dirUri|].
  2:{ cbn [throw snd trace emit]. rewrite (EV _ _ eq_refl). reflexivity. }
  unfold bind, call_readDirectoryAsync.
  destruct (readDirectoryAsync P (calls s CReadDirectory) dirUri)
    as [e|listing]; cbn [settle throw ret].
  { cbn [snd trace emit count]. rewrite <- app_assoc, (EV _ _ eq_refl).
    reflexivity. }
  destruct (length (filter is_apk_name listing) <=? 2)%nat.
  { cbn [ret snd trace emit count]. rewrite (EV _ _ eq_refl). reflexivity. }
  set (s1 := count CReadDirectory (emit (EvReadDirectory dirUri) s)).
  set (stale := JsArray.slice 2 _).
  destruct (delete_stale_run P dirUri stale s1) as (evs & s' & E & _).
  destruct (delete_stale_emits P
              (fun ev => match ev with EvReadDirectory _ => false
                                  | _ => true end)
              dirUri stale (fun _ => eq_refl) (fun _ => eq_refl)
              (fun _ _ => eq_refl) s1) as (evs' & T & K).
  rewrite E in *. cbn [snd] in *. rewrite T. subst s1.
  cbn [trace emit count]. rewrite <- app_assoc, (EV _ _ eq_refl).
  cbn [app listed flat_map]. f_equal.
  refine (flat_map_none _ _ _ _ K).
  intros []; cbn; intros; reflexivity || discriminate.
Qed.

(** The files of the transfers of the loop: attempt [n] downloads to
    the file named by the [n]-th reading of the clock. *)
Lemma downloadApk_loop_targets url onProgress s :
  let target n := (url, file_uri P (now P (n + calls s CNow))) in
  exists evs k,
    trace (snd (downloadApk_loop P url onProgress 1 maxRetries s))
    = trace s ++ evs
    /\ (1 <= k <= 3)%nat
    /\ downloaded evs = List.map target (seq 0 k).
Proof.
  cbv zeta. unfold maxRetries.
  destruct (downloadApk_loop_step P url onProgress 1 2 s)
    as (ev1 & s1 & A1 & D1 & _ & H1). cbv zeta in H1.
  destruct (read_download _) as [e1|u1] in H1.
  2:{ destruct H1 as (E & _). exists ev1, 1%nat. rewrite E.
      split; [apply A1|]. split; [lia|exact D1]. }
  cbn [Nat.eqb maxRetries] in H1. destruct H1 as (E1 & _).
  destruct (downloadApk_loop_step P url onProgress 2 1 s1)
    as (ev2 & s2 & A2 & D2 & _ & H2). cbv zeta in H2.
  assert (N1 : calls s1 CNow = S (calls s CNow)) by apply A1.
  rewrite N1 in D2.
  pose proof (after_trans _ _ _ _ _ _ _ A1 A2) as A12.
  destruct (read_download _) as [e2|u2] in H2.
  2:{ destruct H2 as (E & _). exists (ev1 ++ ev2), 2%nat. rewrite E1, E.
      split; [apply A12|]. split; [lia|].
      unfold downloaded in *. rewrite flat_map_app, D1, D2. reflexivity. }
  cbn [Nat.eqb maxRetries] in H2. destruct H2 as (E2 & _).
  destruct (downloadApk_loop_step P url onProgress 3 0 s2)
    as (ev3 & s3 & A3 & D3 & _ & H3). cbv zeta in H3.
  assert (N2 : calls s2 CNow = S (S (calls s CNow)))
    by (destruct A2 as [_ C]; rewrite C, N1; reflexivity).
  rewrite N2 in D3.
  pose proof (after_trans _ _ _ _ _ _ _ A12 A3) as A.
  assert (D : downloaded ((ev1 ++ ev2) ++ ev3)
              = List.map
                  (fun n => (url, file_uri P (now P (n + calls s CNow))))
                  (seq 0 3)).
  { unfold downloaded in *. rewrite !flat_map_app, D1, D2, D3.
    reflexivity. }
  exists ((ev1 ++ ev2) ++ ev3), 3%nat. rewrite E1, E2.
  destruct (read_download _) as [e3|u3] in H3;
    cbn [Nat.eqb maxRetries] in H3; destruct H3 as (E3 & _); rewrite E3;
    (split; [apply A|]); (split; [lia|exact D]).
Qed.

Lemma file_uri_injective t1 t2 :
  file_uri P t1 = file_uri P t2 -> t1 = t2.
Proof.
  unfold file_uri. intros H. apply app_inv_head in H.
  apply (file_name_injective t1 t2 H).
Qed.

End DownloadOrder.

(** X15. [downloadApk] runs the clean-up once, to its end, before the
    first transfer: its events are those of [cleanOldApkFiles] followed
    by events of the attempts, which never list or delete. However
    many attempts it makes, the document directory is listed once (not
    at all when it is not available). *)
Theorem downloadApk_cleans_before_transfers
    (P : Platform.Platform) (s : Platform.State)
    (url : JsString.jsstring) (onProgress : bool) :
  let cleaning := Run.events_of (UpdateService.cleanOldApkFiles P) s in
  let evs := Run.events_of (UpdateService.downloadApk P url onProgress) s in
  (exists attempts,
     evs = cleaning ++ attempts
     /\ forallb Observe.transfer_event attempts = true
     /\ Observe.listed attempts = [] /\ Platform.deleted attempts = [])
  /\ forallb Observe.cleanup_event cleaning = true
  /\ Platform.downloaded cleaning = []
  /\ Observe.listed evs
     = match UpdateService.available (Platform.documentDirectory P) with
       | Some dirUri => [dirUri]
       | None => []
       end.
Proof.
  cbv zeta.
  destruct (cleanOldApkFiles_run P s) as (ev0 & s0 & E0 & T0 & _).
  destruct (cleanOldApkFiles_events P s) as (ev0' & T0' & K0).
  rewrite E0 in T0'. cbn [snd] in T0'.
  assert (ev0' = ev0) by (rewrite T0 in T0'; apply app_inv_head in T0';
                          symmetry; exact T0'). subst ev0'.
  destruct (downloadApk_loop_events P url onProgress 1
              UpdateService.maxRetries s0) as (ev1 & T1 & K1).
  assert (C : Run.events_of (UpdateService.cleanOldApkFiles P) s = ev0).
  { apply events_of_emits. rewrite E0. exact T0. }
  assert (EV : Run.events_of (UpdateService.downloadApk P url onProgress) s
               = ev0 ++ ev1).
  { apply events_of_emits. unfold UpdateService.downloadApk, Async.bind.
    rewrite E0, T1, T0, app_assoc. reflexivity. }
  assert (L1 : Observe.listed ev1 = []).
  { apply (flat_map_none Observe.transfer_event); [|exact K1].
    intros []; cbn; intros; reflexivity || discriminate. }
  pose proof (cleanOldApkFiles_listed P s) as L0. rewrite C in L0.
  rewrite EV, C. split; [|split; [exact K0|split]].
  - exists ev1. split; [reflexivity|]. split; [exact K1|].
    split; [exact L1|].
    apply (flat_map_none Observe.transfer_event); [|exact K1].
    intros []; cbn; intros; reflexivity || discriminate.
  - apply (flat_map_none Observe.cleanup_event); [|exact K0].
    intros [| | | | | | | |? []| | | | | |]; cbn; intros;
      reflexivity || discriminate.
  - unfold Observe.listed in *. rewrite flat_map_app, L0, L1.
    apply app_nil_r.
Qed.

(** X16. Attempt [n] of [downloadApk] downloads the URL it was given
    to the file named by the [n]-th reading of the clock from the start
    of the operation, in the document directory; so when the clock
    gives different readings the attempts write to different files. *)
Theorem downloadApk_fresh_file_per_attempt
    (P : Platform.Platform) (s : Platform.State)
    (url : JsString.jsstring) (onProgress : bool) :
  let reading n := Platform.now P (n + Platform.calls s Platform.CNow) in
  let target n := (url, UpdateService.file_uri P (reading n)) in
  let evs := Run.events_of (UpdateService.downloadApk P url onProgress) s in
  (exists k, (1 <= k <= 3)%nat
             /\ Platform.downloaded evs = List.map target (seq 0 k))
  /\ (reading 0%nat <> reading 1%nat -> reading 0%nat <> reading 2%nat ->
      reading 1%nat <> reading 2%nat ->
      NoDup (List.map snd (Platform.downloaded evs))).
Proof.
  cbv zeta.
  destruct (cleanOldApkFiles_run P s)
    as (ev0 & s0 & E0 & T0 & C0 & _ & _ & Dl0 & _).
  destruct (downloadApk_loop_targets P url onProgress s0)
    as (ev1 & k & T1 & K & D1). cbv zeta in D1.
  rewrite (C0 Platform.CNow) in D1 by discriminate.
  assert (EV : Run.events_of (UpdateService.downloadApk P url onProgress) s
               = ev0 ++ ev1).
  { apply events_of_emits. unfold UpdateService.downloadApk, Async.bind.
    rewrite E0, T1, T0, app_assoc. reflexivity. }
  assert (D : Platform.downloaded (ev0 ++ ev1)
              = List.map
                  (fun n =>
                     (url,
                      UpdateService.file_uri P
                        (Platform.now P (n + Platform.calls s Platform.CNow))))
                  (seq 0 k)).
  { unfold Platform.downloaded in *. rewrite flat_map_app, Dl0, D1.
    reflexivity. }
  rewrite EV, D. split; [exists k; split; [exact K|reflexivity]|].
  intros N01 N02 N12.
  cbn [Nat.add] in N01, N02, N12.
  destruct k as [|[|[|[|k]]]]; try lia; cbn [seq List.map snd Nat.add];
    repeat (apply NoDup_cons; [cbn [In]; intros H|]); try apply NoDup_nil;
    repeat (destruct H as [H|H]; [apply file_uri_injective in H|]);
    try contradiction; congruence.
Qed.

(* ================================================================== *)
(** * What the retrying operations hand back *)
(* ================================================================== *)

Section Results.
Import JsString Platform Async UpdateService Observe Run.
Variable P : Platform.

(** An attempt of [checkVersion] that gives a result has read it from
    the body of a response with [ok] set. *)
Lemma read_fetch_result r info :
  read_fetch P r = inr info ->
  downloadUrl info = getDownloadUrl P (version info)
  /\ exists response body,
       r = inr response /\ ok response = true
       /\ json response = inr body
       /\ get_version body = inr (version info).
Proof.
  unfold read_fetch, read_response. destruct r as [e|response];
    [discriminate|].
  destruct (ok response) eqn:OK; cbn [negb]; [|discriminate].
  destruct (json response) as [e|body] eqn:J; [discriminate|].
  destruct (get_version body) as [e|v] eqn:V; [discriminate|].
  intros [= <-]. split; [reflexivity|].
  exists response, body. repeat split; assumption || reflexivity.
Qed.

(** An attempt of [checkVersion] that fails: the fetch was rejected,
    or the status was not one of success, or the body could not be
    read. *)
Lemma read_fetch_error r e :
  read_fetch P r = inl e ->
  match r with
  | inl e' => e = e'
  | inr response =>
      if ok response then
        match json response with
        | inl e' => e = e'
        | inr body => get_version body = inl e
        end
      else e = Error (str "HTTP " ++ of_N (status response))
  end.
Proof.
  unfold read_fetch, read_response. destruct r as [e'|response];
    [congruence|].
  destruct (ok response); cbn [negb]; [|congruence].
  destruct (json response) as [e'|body]; [congruence|].
  destruct (get_version body) as [e'|v]; [congruence|discriminate].
Qed.

(** A transfer that gives a URI has resolved with a result that
    carries it, and the URI is not empty. *)
Lemma read_download_result d u :
  read_download d = inr u ->
  u <> [] /\ settled d = inr (Some {| uri := Some u |}).
Proof.
  unfold read_download, result_uri.
  destruct (settled d) as [e|[[[[|c w]|]]|]]; try discriminate.
  intros [= <-]. split; [discriminate|reflexivity].
Qed.

End Results.

(** X17. A version that [checkVersion] returns was read from the
    body of a response with [ok] set, to one of its three fetches, and
    its download URL is computed from that version by
    [UPDATE_CONFIG.getDownloadUrl]. *)
Theorem checkVersion_result_from_manifest
    (P : Platform.Platform) (s : Platform.State)
    (info : Platform.VersionInfo) :
  fst (UpdateService.checkVersion P s) = Async.Return info ->
  Platform.downloadUrl info
  = Platform.getDownloadUrl P (Platform.version info)
  /\ exists n response body,
       (n < 3)%nat
       /\ Platform.fetch P (n + Platform.calls s Platform.CFetch)
            (Platform.GITHUB_RAW_URL P) = inr response
       /\ Platform.ok response = true
       /\ Platform.json response = inr body
       /\ Platform.get_version body = inr (Platform.version info).
Proof.
  intros R. pose proof (checkVersion_run P s) as H. cbv beta zeta in H.
  assert (A : exists n, (n < 3)%nat
              /\ UpdateService.read_fetch P
                   (Platform.fetch P (n + Platform.calls s Platform.CFetch)
                      (Platform.GITHUB_RAW_URL P)) = inr info).
  { destruct (UpdateService.read_fetch P _) as [e1|v1] eqn:A0 in H.
    2:{ exists 0%nat. split; [lia|]. destruct H as (O & _).
        rewrite A0. congruence. }
    destruct (UpdateService.read_fetch P _) as [e2|v2] eqn:A1 in H.
    2:{ exists 1%nat. split; [lia|]. destruct H as (O & _).
        rewrite A1. congruence. }
    destruct (UpdateService.read_fetch P _) as [e3|v3] eqn:A2 in H.
    2:{ exists 2%nat. split; [lia|]. destruct H as (O & _).
        rewrite A2. congruence. }
    destruct H as (O & _). congruence. }
  destruct A as (n & N & A).
  destruct (read_fetch_result P _ _ A) as (U & response & body & F & B).
  split; [exact U|]. exists n, response, body. split; [exact N|].
  split; [exact F|exact B].
Qed.

(** The second fetch answers with version 1.4.0. *)
Lemma checkVersion_result_from_manifest_witness :
  Platform.downloadUrl
    {| Platform.version :=
         Platform.Value (Platform.JString (JsString.str "1.4.0"));
       Platform.downloadUrl := JsString.str "https://dl.example/v1.4.0.apk" |}
  = Platform.getDownloadUrl Scenario.flaky
      (Platform.Value (Platform.JString (JsString.str "1.4.0"))).
Proof.
  exact (proj1 (checkVersion_result_from_manifest Scenario.flaky
                  Platform.initial
                  {| Platform.version :=
                       Platform.Value
                         (Platform.JString (JsString.str "1.4.0"));
                     Platform.downloadUrl :=
                       JsString.str "https://dl.example/v1.4.0.apk" |}
                  eq_refl)).
Defined.

(** X18. The error [checkVersion] throws is the one of its third
    attempt, after two earlier attempts that failed as well: the
    rejection of the third fetch, or the error "HTTP <status>" when the
    third response is not [ok], or what reading its body threw. *)
Theorem checkVersion_rethrows_last_error
    (P : Platform.Platform) (s : Platform.State) (e : Platform.JsError) :
  fst (UpdateService.checkVersion P s) = Async.Throw e ->
  let answer n :=
    Platform.fetch P (n + Platform.calls s Platform.CFetch)
      (Platform.GITHUB_RAW_URL P) in
  (exists e1, UpdateService.read_fetch P (answer 0%nat) = inl e1)
  /\ (exists e2, UpdateService.read_fetch P (answer 1%nat) = inl e2)
  /\ UpdateService.read_fetch P (answer 2%nat) = inl e
  /\ match answer 2%nat with
     | inl rejection => e = rejection
     | inr response =>
         if Platform.ok response then
           match Platform.json response with
           | inl e' => e = e'
           | inr body => Platform.get_version body = inl e
           end
         else
           e = Platform.Error
                 (JsString.str "HTTP "
                    ++ JsString.of_N (Platform.status response))
     end.
Proof.
  intros T. cbv zeta.
  pose proof (checkVersion_run P s) as H. cbv beta zeta in H.
  destruct (UpdateService.read_fetch P _) as [e1|v1] eqn:A0 in H;
    [|destruct H as (O & _); congruence].
  destruct (UpdateService.read_fetch P _) as [e2|v2] eqn:A1 in H;
    [|destruct H as (O & _); congruence].
  destruct (UpdateService.read_fetch P _) as [e3|v3] eqn:A2 in H;
    [|destruct H as (O & _); congruence].
  destruct H as (O & _). assert (e3 = e) by congruence. subst e3.
  split; [exists e1; exact A0|]. split; [exists e2; exact A1|].
  split; [exact A2|]. exact (read_fetch_error P _ _ A2).
Qed.

(** The network is down: the error of the fetch comes back. *)
Lemma checkVersion_rethrows_last_error_witness :
  UpdateService.read_fetch Scenario.offline
    (Platform.fetch Scenario.offline
       (2 + Platform.calls Platform.initial Platform.CFetch)
       (Platform.GITHUB_RAW_URL Scenario.offline))
  = inl Scenario.network_down.
Proof.
  destruct (checkVersion_rethrows_last_error Scenario.offline
              Platform.initial Scenario.network_down eq_refl)
    as (_ & _ & A & _).
  exact A.
Defined.

(** X19. A URI that [downloadApk] returns is not empty and is the
    [uri] of the result one of its three transfers resolved with. *)
Theorem downloadApk_result_is_reported
    (P : Platform.Platform) (s : Platform.State)
    (url : JsString.jsstring) (onProgress : bool)
    (u : JsString.jsstring) :
  fst (UpdateService.downloadApk P url onProgress s) = Async.Return u ->
  u <> []
  /\ exists n,
       (n < 3)%nat
       /\ Platform.settled
            (Platform.downloadAsync P
               (n + Platform.calls s Platform.CDownload) url
               (UpdateService.file_uri P
                  (Platform.now P (n + Platform.calls s Platform.CNow))))
          = inr (Some {| Platform.uri := Some u |}).
Proof.
  intros R. pose proof (downloadApk_run P url onProgress s) as H.
  cbv beta zeta in H.
  assert (A : exists n, (n < 3)%nat
              /\ Run.read_download
                   (Platform.downloadAsync P
                      (n + Platform.calls s Platform.CDownload) url
                      (UpdateService.file_uri P
                         (Platform.now P
                            (n + Platform.calls s Platform.CNow))))
                 = inr u).
  { destruct (Run.read_download _) as [e1|u1] eqn:A0 in H.
    2:{ exists 0%nat. split; [lia|]. destruct H as (O & _).
        rewrite A0. congruence. }
    destruct (Run.read_download _) as [e2|u2] eqn:A1 in H.
    2:{ exists 1%nat. split; [lia|]. destruct H as (O & _).
        rewrite A1. congruence. }
    destruct (Run.read_download _) as [e3|u3] eqn:A2 in H.
    2:{ exists 2%nat. split; [lia|]. destruct H as (O & _).
        rewrite A2. congruence. }
    destruct H as (O & _). congruence. }
  destruct A as (n & N & A).
  destruct (read_download_result _ _ A) as (NE & S).
  split; [exact NE|]. exists n. split; [exact N|exact S].
Qed.

Lemma downloadApk_result_is_reported_witness :
  JsString.str "file:///data/new.apk" <> []
  /\ exists n,
       (n < 3)%nat
       /\ Platform.settled
            (Platform.downloadAsync Scenario.reporting
               (n + Platform.calls Platform.initial Platform.CDownload)
               (JsString.str "https://dl.example/v1.4.0.apk")
               (UpdateService.file_uri Scenario.reporting
                  (Platform.now Scenario.reporting
                     (n + Platform.calls Platform.initial Platform.CNow))))
          = inr (Some {| Platform.uri :=
                           Some (JsString.str "file:///data/new.apk") |}).
Proof.
  exact (downloadApk_result_is_reported Scenario.reporting Platform.initial
           (JsString.str "https://dl.example/v1.4.0.apk") true
           (JsString.str "file:///data/new.apk") eq_refl).
Defined.

(* ================================================================== *)
(** * Components that are not numbers *)
(* ================================================================== *)

Section MalformedVersions.
Import JsNumber JsString Version.

Lemma split_no_sep sep x :
  forallb (fun c => negb (c =? sep)%N) x = true -> split sep x = [x].
Proof.
  induction x as [|c x IH]; [reflexivity|]. cbn [forallb split].
  rewrite andb_true_iff, negb_true_iff. intros [C X].
  rewrite C, (IH X). reflexivity.
Qed.

(** Nothing is below or above [NaN]. *)
Lemma nan_not_ordered x y :
  is_nan x = true \/ is_nan y = true -> gt x y = false /\ lt x y = false.
Proof.
  unfold gt, lt, SFltb.
  intros [H|H]; [destruct x; try discriminate|destruct y; try discriminate];
    [destruct y|destruct x]; split; reflexivity.
Qed.

End MalformedVersions.

(** X20. A component that does not read as a number decides nothing:
    when the first component of either version is not a number, the
    versions compare as their remaining components do. *)
Theorem compareVersions_skips_nan_component
    (x y a b : JsString.jsstring) :
  forallb (fun c => negb (c =? JsString.dot)%N) x = true ->
  forallb (fun c => negb (c =? JsString.dot)%N) y = true ->
  JsNumber.is_nan (JsString.Number x) = true
  \/ JsNumber.is_nan (JsString.Number y) = true ->
  Version.compareVersions (x ++ JsString.str "." ++ a)
    (y ++ JsString.str "." ++ b)
  = Version.compareVersions a b.
Proof.
  intros X Y N. unfold Version.compareVersions.
  change (JsString.str "." ++ a) with (JsString.dot :: a).
  change (JsString.str "." ++ b) with (JsString.dot :: b).
  rewrite !split_app_sep, (split_no_sep _ _ X), (split_no_sep _ _ Y).
  cbn [app List.map length Nat.max Version.compare_loop
         Version.at_or_zero nth_error].
  destruct (nan_not_ordered _ _ N) as [G L]. rewrite G, L.
  rewrite compare_loop_tl. reflexivity.
Qed.

(** [v2.0] against [1.9]: the [v2] is not a number, and [0] is below
    [9]. *)
Lemma compareVersions_skips_nan_component_witness :
  Version.compareVersions
    (JsString.str "v2" ++ JsString.str "." ++ JsString.str "0")
    (JsString.str "1" ++ JsString.str "." ++ JsString.str "9")
  = Version.compareVersions (JsString.str "0") (JsString.str "9").
Proof.
  apply (compareVersions_skips_nan_component
           (JsString.str "v2") (JsString.str "1")
           (JsString.str "0") (JsString.str "9")); [reflexivity|reflexivity|].
  left. reflexivity.
Defined.
